(** * MemNote: card derivation and study queue engine

    A shallow embedding of the card-derivation code ([extractCards] in
    [App.tsx], [tableData] / [counts] / [getFilteredData] in the card
    table), of the progress update ([handleUpdateCardProgress]) and of the
    study session's queue handlers ([handleRate], restart, swipe actions and
    the timers they start), with the properties the specification states
    about them. *)

From Stdlib Require Import List Bool Arith NArith ZArith QArith Lia Permutation.
From Stdlib Require Import Ascii String.
Import ListNotations.
Close Scope Q_scope.
Local Open Scope nat_scope.
Local Open Scope list_scope.

(* ================================================================== *)
(** * JavaScript strings *)
(* ================================================================== *)

(** A JavaScript string is a sequence of UTF-16 code units. *)
Module JsString.

Definition char := N.
Definition str := list char.

(** Literals of the source, written as Rocq strings. *)
Definition lit (s : string) : str :=
  List.map N_of_ascii (list_ascii_of_string s).

Definition str_eqb (a b : str) : bool :=
  if list_eq_dec N.eq_dec a b then true else false.

(** Truthiness of a string value: the empty string is falsy. *)
Definition truthy (s : str) : bool :=
  match s with [] => false | _ :: _ => true end.

(** Truthiness of a possibly [undefined] string (array destructuring). *)
Definition truthy_opt (o : option str) : bool :=
  match o with None => false | Some s => truthy s end.

(** [d] occurs in [s] at position 0 ([s.startsWith(d)]). *)
Fixpoint is_prefix (d s : str) : bool :=
  match d, s with
  | [], _ => true
  | _ :: _, [] => false
  | x :: d', y :: s' => (x =? y)%N && is_prefix d' s'
  end.

(** [s.indexOf(d)]: the least position at which [d] occurs, [None] for -1. *)
Fixpoint indexOf (d s : str) : option nat :=
  if is_prefix d s then Some 0
  else match s with
       | [] => None
       | _ :: s' => option_map S (indexOf d s')
       end.

(** [s.includes(d)]. *)
Definition includes (d s : str) : bool :=
  match indexOf d s with Some _ => true | None => false end.

(** Puts a code unit in front of the first piece of a split. *)
Definition cons_head (c : char) (ps : list str) : list str :=
  match ps with
  | [] => [[c]]
  | p :: ps' => (c :: p) :: ps'
  end.

(** [s.split(d)] for a non-empty separator [d]: the pieces between the
    occurrences of [d], found from left to right without overlap. [skip]
    counts the code units of a separator just matched that are still to be
    passed over. *)
Fixpoint split_from (d : str) (skip : nat) (s : str) : list str :=
  match s with
  | [] => [[]]
  | c :: s' =>
      match skip with
      | S k => split_from d k s'
      | O => if is_prefix d s
             then [] :: split_from d (pred (List.length d)) s'
             else cons_head c (split_from d 0 s')
      end
  end.

Definition split (d s : str) : list str := split_from d 0 s.

(** White space and line terminators, as [String.prototype.trim] strips
    them. *)
Definition is_ws (c : char) : bool :=
  ((9 <=? c) && (c <=? 13) || (c =? 32) || (c =? 160) || (c =? 5760)
   || (8192 <=? c) && (c <=? 8202) || (c =? 8232) || (c =? 8233)
   || (c =? 8239) || (c =? 8287) || (c =? 12288) || (c =? 65279))%N.

Fixpoint trimStart (s : str) : str :=
  match s with
  | [] => []
  | c :: s' => if is_ws c then trimStart s' else s
  end.

Definition trimEnd (s : str) : str := rev (trimStart (rev s)).

Definition trim (s : str) : str := trimEnd (trimStart s).

Definition brace_open : char := 123%N.
Definition brace_close : char := 125%N.

(** After an opening brace: [seen] tells whether one code unit other than
    the closing brace was read; the match succeeds at a closing brace that
    follows at least one such unit. *)
Fixpoint cloze_body (seen : bool) (s : str) : bool :=
  match s with
  | [] => false
  | c :: s' => if (c =? brace_close)%N then seen else cloze_body true s'
  end.

(** The test of the regular expression [\{[^}]+\}] on [s]. *)
Fixpoint cloze_test (s : str) : bool :=
  match s with
  | [] => false
  | c :: s' => ((c =? brace_open)%N && cloze_body false s') || cloze_test s'
  end.

End JsString.
Import JsString.


(* ================================================================== *)
(** * Data model (module [types]) *)
(* ================================================================== *)

(** The [srsData] object of a block. [lapses] and [disabled] are optional
    fields; [lastReview] is not declared by the interface but is written by
    [handleUpdateCardProgress]. Counters are natural numbers, time stamps
    integers, and the two numbers that are only copied are rationals. *)
Module SrsData.
Record t := mk {
  nextReview : Z;
  interval : Q;
  easeFactor : Q;
  repetitions : N;
  lapses : option N;
  disabled : option bool;
  lastReview : option Z
}.
End SrsData.

Module Block.
Record t := mk {
  id : str;
  content : str;
  level : N;
  isFlashcard : option bool;
  parentId : option str;
  srsData : option SrsData.t
}.
(** [{ ...block, srsData: srs }] *)
Definition with_srsData (b : t) (srs : SrsData.t) : t :=
  mk (id b) (content b) (level b) (isFlashcard b) (parentId b) (Some srs).
End Block.

Module Document.
Record t := mk {
  id : str;
  folderId : option str;
  title : str;
  blocks : list Block.t;
  lastModified : Z
}.
(** [{ ...doc, blocks: bs }] *)
Definition with_blocks (d : t) (bs : list Block.t) : t :=
  mk (id d) (folderId d) (title d) bs (lastModified d).
End Document.

Inductive CardType := forward | bidirectional | cloze.
Inductive Status := status_new | status_learning | status_review | status_mastered.

Module Flashcard.
Record t := mk {
  id : str;
  front : str;
  back : str;
  blockId : str;
  docId : str;
  cardType : CardType;
  status : Status;
  nextReview : Z;
  interval : Q;
  easeFactor : Q;
  repetitions : N;
  lapses : option N;
  disabled : option bool
}.
End Flashcard.

Inductive StudyRating := AGAIN | HARD | GOOD | EASY.
Inductive OrderRating := TWO_SEC | FIFTEEN_MIN | THIRTY_MIN | ONE_HOUR.
Inductive Rating := study (r : StudyRating) | order (r : OrderRating).

Module AppSettings.
Record t := mk {
  showContext : bool;
  failDelay : Z;
  leechThreshold : Z
}.
End AppSettings.

(** The value of an optional counter under [x || 0] and of an optional flag
    under [x || false] (also its truthiness). *)
Definition or0 (x : option N) : N :=
  match x with Some n => n | None => 0%N end.
Definition orFalse (x : option bool) : bool :=
  match x with Some b => b | None => false end.

(* ================================================================== *)
(** * Study extractor (component [App]) *)
(* ================================================================== *)

(** The literal used where a block has no [srsData]. *)
Definition defaultSrs : SrsData.t :=
  SrsData.mk 0 0%Q (5 # 2)%Q 0 (Some 0%N) (Some false) None.

Definition srsOrDefault (block : Block.t) : SrsData.t :=
  match Block.srsData block with Some srs => srs | None => defaultSrs end.

(** [{ ...baseCard, id, front, back, cardType }] *)
Definition baseCard (doc : Document.t) (block : Block.t) (srs : SrsData.t)
    (id front back : str) (cardType : CardType) : Flashcard.t :=
  Flashcard.mk id front back (Block.id block) (Document.id doc) cardType
    (if (SrsData.repetitions srs =? 0)%N then status_new else status_review)
    (SrsData.nextReview srs) (SrsData.interval srs) (SrsData.easeFactor srs)
    (SrsData.repetitions srs) (SrsData.lapses srs) (SrsData.disabled srs).

(** The cards one block contributes: the body of the inner [forEach] of
    [extractCards]. *)
Definition extractBlock (doc : Document.t) (block : Block.t) : list Flashcard.t :=
  let srs := srsOrDefault block in
  if orFalse (SrsData.disabled srs) then []
  else
    let card := baseCard doc block srs in
    let content := Block.content block in
    if includes (lit "::") content then
      match split (lit "::") content with
      | p0 :: p1 :: _ =>
          [card (Block.id block ++ lit "_fwd") (trim p0) (trim p1) forward]
      | _ => []
      end
    else if includes (lit ";;") content then
      match split (lit ";;") content with
      | p0 :: p1 :: _ =>
          [card (Block.id block ++ lit "_fwd") (trim p0) (trim p1) forward]
      | _ => []
      end
    else if cloze_test content then
      [card (Block.id block ++ lit "_cloze") content content cloze]
    else [].

(** [extractCards]: every block of every document in order, each pushing
    its cards onto [extracted]. *)
Definition extractCards (docsToScan : list Document.t) : list Flashcard.t :=
  fold_left
    (fun extracted doc =>
       fold_left (fun extracted block => extracted ++ extractBlock doc block)
                 (Document.blocks doc) extracted)
    docsToScan [].

(** The Fisher-Yates loop of [handleStartStudy], for [i] from
    [cards.length - 1] down to 1;
    [rand i] stands for [Math.floor(Math.random() * (i + 1))]. *)
Definition swap {A : Type} (i j : nat) (l : list A) : list A :=
  match nth_error l i, nth_error l j with
  | Some x, Some y =>
      let l1 := firstn i l ++ y :: skipn (S i) l in
      firstn j l1 ++ x :: skipn (S j) l1
  | _, _ => l
  end.

Fixpoint shuffle_from {A : Type} (rand : nat -> nat) (i : nat) (cards : list A) : list A :=
  match i with
  | O => cards
  | S i' => shuffle_from rand i' (swap i (rand i mod (i + 1)) cards)
  end.

Definition shuffle {A : Type} (rand : nat -> nat) (cards : list A) : list A :=
  shuffle_from rand (pred (List.length cards)) cards.

Inductive Mode := spaced | all | mode_order | flashcards.

(** The cards [handleStartStudy] keeps: the extracted cards, restricted to
    [specificCardIds] when that list is given and not empty. *)
Definition selectCards (docsToStudy : list Document.t)
    (specificCardIds : option (list str)) : list Flashcard.t :=
  let cards := extractCards docsToStudy in
  match specificCardIds with
  | Some ids =>
      if 0 <? List.length ids
      then filter (fun c => existsb (str_eqb (Flashcard.id c)) ids) cards
      else cards
  | None => cards
  end.

(** [activeDoc]: the document with id [activeDocId], else the first one. *)
Definition activeDoc (documents : list Document.t) (activeDocId : option str)
    : option Document.t :=
  match activeDocId with
  | Some id =>
      match find (fun d => str_eqb (Document.id d) id) documents with
      | Some d => Some d
      | None => nth_error documents 0
      end
  | None => nth_error documents 0
  end.

(** The documents a session of the given mode scans. *)
Definition docsToStudy (mode : Mode) (documents : list Document.t)
    (activeDocId : option str) : list Document.t :=
  match mode with
  | all | flashcards => documents
  | _ => match activeDoc documents activeDocId with
         | Some d => [d]
         | None => documents
         end
  end.

(** [handleStartStudy]: [None] is the alert [No flashcards found!], after
    which no session starts; otherwise the cards handed to the session. *)
Definition handleStartStudy (rand : nat -> nat) (documents : list Document.t)
    (activeDocId : option str) (mode : Mode) (specificCardIds : option (list str))
    : option (list Flashcard.t) :=
  let cards := selectCards (docsToStudy mode documents activeDocId) specificCardIds in
  if List.length cards =? 0 then None
  else match mode with
       | mode_order => Some cards
       | _ => Some (shuffle rand cards)
       end.

Definition isFail (rating : Rating) : bool :=
  match rating with
  | study AGAIN => true
  | order TWO_SEC => true
  | _ => false
  end.

(** The new [srsData] of the rated block; [now] is [Date.now()]. *)
Definition rateSrs (now : Z) (rating : Rating) (block : Block.t) : SrsData.t :=
  let currentSRS := srsOrDefault block in
  let newLapses := or0 (SrsData.lapses currentSRS) in
  let newReps := SrsData.repetitions currentSRS in
  let '(newLapses, newReps) :=
    if isFail rating then ((newLapses + 1)%N, 0%N) else (newLapses, (newReps + 1)%N) in
  SrsData.mk (SrsData.nextReview currentSRS) (SrsData.interval currentSRS)
    (SrsData.easeFactor currentSRS) newReps (Some newLapses)
    (SrsData.disabled currentSRS) (Some now).

(** [handleUpdateCardProgress], as the function it passes to
    [setDocuments]. *)
Definition handleUpdateCardProgress (now : Z) (card : Flashcard.t) (rating : Rating)
    (prevDocs : list Document.t) : list Document.t :=
  map (fun doc =>
         if negb (str_eqb (Document.id doc) (Flashcard.docId card)) then doc
         else Document.with_blocks doc
                (map (fun block =>
                        if negb (str_eqb (Block.id block) (Flashcard.blockId card)) then block
                        else Block.with_srsData block (rateSrs now rating block))
                     (Document.blocks doc)))
      prevDocs.

(** A block literal of [initialDocs]. *)
Definition initialBlock (id content : string) (level : N) (isFlashcard : option bool)
    : Block.t :=
  Block.mk (lit id) (lit content) level isFlashcard None None.

(** The document a new installation starts with; its [lastModified] is the
    time of creation. *)
Definition initialDocs (created : Z) : list Document.t :=
  [ Document.mk (lit "welcome-doc") None (lit "Welcome to MemNote")
      [ initialBlock "b1" "Welcome to your new intelligent notebook!" 0 None;
        initialBlock "b2" "How to use MemNote" 0 None;
        initialBlock "b3" "Type ';;' for a forward card ;; This is the answer" 1 (Some true);
        initialBlock "b4" "Type '::' for a two-way card :: This works both ways" 1 (Some true);
        initialBlock "b5" "Use {curly braces} to create a cloze deletion card." 1 (Some true);
        initialBlock "b6" "Select text to format it (Bold, Italic, Highlight, etc)." 1 None;
        initialBlock "b7" "Folders & References" 0 None;
        initialBlock "b8" "Create folders in the sidebar to organize." 1 None;
        initialBlock "b9" "Type '[[' to reference other documents." 1 None ]
      created ].

(* ================================================================== *)
(** * Card table (component [CardTable]) *)
(* ================================================================== *)

Module TableRow.
Record t := mk {
  id : str;
  blockId : str;
  ancestors : list str;
  front : str;
  back : str;
  type : CardType;
  lapses : N;
  disabled : bool;
  repetitions : N
}.
End TableRow.

Module CardTable.

(** The backward loop [for (let i = index - 1; i >= 0; i--)] with [i + 1]
    as the recursion argument: block [j = i - 1] is visited, its content is
    put in front of [ancestors] when its level is below [currentLevel], and
    the loop breaks at level 0. The loop is entered with [index] a position
    of [blocks], so [blocks[j]] is always defined. *)
Fixpoint lookBack (blocks : list Block.t) (i : nat) (currentLevel : N)
    (ancestors : list str) : list str :=
  match i with
  | O => ancestors
  | S j =>
      match nth_error blocks j with
      | None => ancestors
      | Some b =>
          if (Block.level b <? currentLevel)%N then
            if (Block.level b =? 0)%N then Block.content b :: ancestors
            else lookBack blocks j (Block.level b) (Block.content b :: ancestors)
          else lookBack blocks j currentLevel ancestors
      end
  end.

(** Step 1 of the [forEach] body: the ancestors of [block] at [index]. *)
Definition ancestorsOf (blocks : list Block.t) (index : nat) (block : Block.t) : list str :=
  lookBack blocks index (Block.level block) [].

(** The rows one block contributes: the body of the [forEach] of
    [tableData]. *)
Definition tableRows (blocks : list Block.t) (index : nat) (block : Block.t)
    : list TableRow.t :=
  let ancestors := ancestorsOf blocks index block in
  let lapses := or0 (match Block.srsData block with
                     | Some srs => SrsData.lapses srs | None => None end) in
  let disabled := orFalse (match Block.srsData block with
                           | Some srs => SrsData.disabled srs | None => None end) in
  let repetitions := match Block.srsData block with
                     | Some srs => SrsData.repetitions srs | None => 0%N end in
  let row id front back type :=
    TableRow.mk id (Block.id block) ancestors front back type lapses disabled repetitions in
  let content := Block.content block in
  if includes (lit "::") content then
    let parts := map trim (split (lit "::") content) in
    match nth_error parts 0, nth_error parts 1 with
    | Some front, Some back =>
        if truthy front && truthy back then
          [ row (Block.id block ++ lit "-fwd") front back bidirectional;
            row (Block.id block ++ lit "-bwd") back front bidirectional ]
        else []
    | _, _ => []
    end
  else if includes (lit ";;") content then
    let parts := map trim (split (lit ";;") content) in
    match nth_error parts 0, nth_error parts 1 with
    | Some front, Some back =>
        if truthy front && truthy back then
          [ row (Block.id block ++ lit "-fwd") front back forward ]
        else []
    | _, _ => []
    end
  else if cloze_test content then
    [ row (Block.id block ++ lit "-cloze") content (lit "...") cloze ]
  else [].

(** [blocks.forEach((block, index) => ...)], pushing onto [rows]. *)
Fixpoint forEachRow (blocks : list Block.t) (index : nat) (rest : list Block.t)
    (rows : list TableRow.t) : list TableRow.t :=
  match rest with
  | [] => rows
  | block :: rest' =>
      forEachRow blocks (S index) rest' (rows ++ tableRows blocks index block)
  end.

Definition tableData (blocks : list Block.t) : list TableRow.t :=
  forEachRow blocks 0 blocks [].

Inductive TabType := all | leech | struggling | disabled | enabled | new.

(** The predicates of the tab filter and of the tab counts. *)
Definition isLeech (leechThreshold : Z) (r : TableRow.t) : bool :=
  (leechThreshold <=? Z.of_N (TableRow.lapses r))%Z && negb (TableRow.disabled r).
Definition isStruggling (leechThreshold : Z) (r : TableRow.t) : bool :=
  (0 <? TableRow.lapses r)%N && (Z.of_N (TableRow.lapses r) <? leechThreshold)%Z
  && negb (TableRow.disabled r).
Definition isDisabled (r : TableRow.t) : bool := TableRow.disabled r.
Definition isNew (r : TableRow.t) : bool :=
  (TableRow.repetitions r =? 0)%N && negb (TableRow.disabled r).
Definition isEnabled (r : TableRow.t) : bool := negb (TableRow.disabled r).

(** The [switch (activeTab)] of [getFilteredData]. *)
Definition tabFilter (activeTab : TabType) (leechThreshold : Z)
    (data : list TableRow.t) : list TableRow.t :=
  match activeTab with
  | leech => filter (isLeech leechThreshold) data
  | struggling => filter (isStruggling leechThreshold) data
  | disabled => filter isDisabled data
  | new => filter isNew data
  | enabled => filter isEnabled data
  | all => data
  end.

Module Counts.
Record t := mk {
  leech : nat; struggling : nat; disabled : nat; new : nat; enabled : nat; all : nat
}.
End Counts.

Definition counts (tableData : list TableRow.t) (leechThreshold : Z) : Counts.t :=
  Counts.mk (List.length (filter (isLeech leechThreshold) tableData))
            (List.length (filter (isStruggling leechThreshold) tableData))
            (List.length (filter isDisabled tableData))
            (List.length (filter isNew tableData))
            (List.length (filter isEnabled tableData))
            (List.length tableData).

Section TextFilter.
(** [String.prototype.toLowerCase], a function of the JavaScript runtime. *)
Variable toLowerCase : str -> str.

Definition textFilter (searchTerm : str) (data : list TableRow.t) : list TableRow.t :=
  if truthy searchTerm then
    let lower := toLowerCase searchTerm in
    filter (fun row =>
              includes lower (toLowerCase (TableRow.front row))
              || includes lower (toLowerCase (TableRow.back row))
              || existsb (fun a => includes lower (toLowerCase a)) (TableRow.ancestors row))
           data
  else data.

Definition getFilteredData (tableData : list TableRow.t) (searchTerm : str)
    (activeTab : TabType) (settings : AppSettings.t) : list TableRow.t :=
  tabFilter activeTab (AppSettings.leechThreshold settings) (textFilter searchTerm tableData).

(** [handlePracticeFiltered]: the ids handed to [onStartStudy]. *)
Definition handlePracticeFiltered (tableData : list TableRow.t) (searchTerm : str)
    (activeTab : TabType) (settings : AppSettings.t) : list str :=
  map TableRow.id (getFilteredData tableData searchTerm activeTab settings).
End TextFilter.

End CardTable.

(* ================================================================== *)
(** * Study session (component [StudySession]) *)
(* ================================================================== *)

Definition Flashcard_eq_dec (a b : Flashcard.t) : {a = b} + {a <> b}.
Proof. repeat decide equality. Defined.

Definition queue_eqb (q1 q2 : list Flashcard.t) : bool :=
  if list_eq_dec Flashcard_eq_dec q1 q2 then true else false.

Definition card_opt_eqb (c1 c2 : option Flashcard.t) : bool :=
  match c1, c2 with
  | None, None => true
  | Some a, Some b => if Flashcard_eq_dec a b then true else false
  | _, _ => false
  end.

Definition mode_eqb (m1 m2 : Mode) : bool :=
  match m1, m2 with
  | spaced, spaced | all, all | mode_order, mode_order | flashcards, flashcards => true
  | _, _ => false
  end.

Module StudySession.

Inductive Direction := swipe_left | swipe_right.

(** What a pending [setTimeout] callback does when it fires. A callback
    is a closure of the render that created it, so it carries the values
    of that render which it reads. *)
Inductive TimerAction :=
| Requeue (cardToRequeue : Flashcard.t)
| AutoFlip (isFlipped : bool)
| AutoGood (currentCard : option Flashcard.t) (currentIndex queueLength : nat)
| NextCard (currentIndex queueLength : nat).

Record Timer := mkTimer { handle : nat; due : Z; action : TimerAction }.

(** The state of a mounted session: props ([documents], [settings],
    [mode]), React state, the two refs, and the timers of the event loop
    with its clock. State that only drives the presentation (reveal, hint,
    menu, edit form, swipe animation, search box) is left out. *)
Record t := mk {
  documents : list Document.t;
  settings : AppSettings.t;
  mode : Mode;
  originalQueue : list Flashcard.t;
  queue : list Flashcard.t;
  currentIndex : nat;
  isFlipped : bool;
  isPlaying : bool;
  missedCards : list str;
  currentIndexRef : nat;
  autoPlayRef : option nat;
  timers : list Timer;
  nextHandle : nat;
  now : Z;
  mounted : bool
}.

Definition setDocuments (f : list Document.t -> list Document.t) (s : t) : t :=
  mk (f (documents s)) (settings s) (mode s) (originalQueue s) (queue s) (currentIndex s)
     (isFlipped s) (isPlaying s) (missedCards s) (currentIndexRef s) (autoPlayRef s)
     (timers s) (nextHandle s) (now s) (mounted s).
Definition setQueue (f : list Flashcard.t -> list Flashcard.t) (s : t) : t :=
  mk (documents s) (settings s) (mode s) (originalQueue s) (f (queue s)) (currentIndex s)
     (isFlipped s) (isPlaying s) (missedCards s) (currentIndexRef s) (autoPlayRef s)
     (timers s) (nextHandle s) (now s) (mounted s).
Definition setCurrentIndex (f : nat -> nat) (s : t) : t :=
  mk (documents s) (settings s) (mode s) (originalQueue s) (queue s) (f (currentIndex s))
     (isFlipped s) (isPlaying s) (missedCards s) (currentIndexRef s) (autoPlayRef s)
     (timers s) (nextHandle s) (now s) (mounted s).
Definition setIsFlipped (b : bool) (s : t) : t :=
  mk (documents s) (settings s) (mode s) (originalQueue s) (queue s) (currentIndex s)
     b (isPlaying s) (missedCards s) (currentIndexRef s) (autoPlayRef s)
     (timers s) (nextHandle s) (now s) (mounted s).
Definition setIsPlaying (b : bool) (s : t) : t :=
  mk (documents s) (settings s) (mode s) (originalQueue s) (queue s) (currentIndex s)
     (isFlipped s) b (missedCards s) (currentIndexRef s) (autoPlayRef s)
     (timers s) (nextHandle s) (now s) (mounted s).
Definition setMissedCards (f : list str -> list str) (s : t) : t :=
  mk (documents s) (settings s) (mode s) (originalQueue s) (queue s) (currentIndex s)
     (isFlipped s) (isPlaying s) (f (missedCards s)) (currentIndexRef s) (autoPlayRef s)
     (timers s) (nextHandle s) (now s) (mounted s).
Definition setCurrentIndexRef (i : nat) (s : t) : t :=
  mk (documents s) (settings s) (mode s) (originalQueue s) (queue s) (currentIndex s)
     (isFlipped s) (isPlaying s) (missedCards s) i (autoPlayRef s)
     (timers s) (nextHandle s) (now s) (mounted s).
Definition setAutoPlayRef (h : option nat) (s : t) : t :=
  mk (documents s) (settings s) (mode s) (originalQueue s) (queue s) (currentIndex s)
     (isFlipped s) (isPlaying s) (missedCards s) (currentIndexRef s) h
     (timers s) (nextHandle s) (now s) (mounted s).
Definition setTimers (ts : list Timer) (s : t) : t :=
  mk (documents s) (settings s) (mode s) (originalQueue s) (queue s) (currentIndex s)
     (isFlipped s) (isPlaying s) (missedCards s) (currentIndexRef s) (autoPlayRef s)
     ts (nextHandle s) (now s) (mounted s).
Definition setNow (n : Z) (s : t) : t :=
  mk (documents s) (settings s) (mode s) (originalQueue s) (queue s) (currentIndex s)
     (isFlipped s) (isPlaying s) (missedCards s) (currentIndexRef s) (autoPlayRef s)
     (timers s) (nextHandle s) n (mounted s).
Definition unmount (s : t) : t :=
  mk (documents s) (settings s) (mode s) (originalQueue s) (queue s) (currentIndex s)
     (isFlipped s) (isPlaying s) (missedCards s) (currentIndexRef s) (autoPlayRef s)
     (timers s) (nextHandle s) (now s) false.

(** [setTimeout(callback, delay)]: a new pending timer; its handle is the
    value returned. *)
Definition setTimeout (a : TimerAction) (delay : Z) (s : t) : t :=
  mk (documents s) (settings s) (mode s) (originalQueue s) (queue s) (currentIndex s)
     (isFlipped s) (isPlaying s) (missedCards s) (currentIndexRef s) (autoPlayRef s)
     (timers s ++ [mkTimer (nextHandle s) (now s + Z.max 0 delay) a])
     (S (nextHandle s)) (now s) (mounted s).

(** [clearTimeout(h)] *)
Definition clearTimeout (h : nat) (s : t) : t :=
  setTimers (filter (fun tm => negb (handle tm =? h)) (timers s)) s.

(** A session as [StudySession] mounts it on [cards]. *)
Definition start (cards : list Flashcard.t) (documents : list Document.t)
    (settings : AppSettings.t) (mode : Mode) (now : Z) : t :=
  mk documents settings mode cards cards 0 false false [] 0 None [] 1 now true.

Definition currentCard (s : t) : option Flashcard.t :=
  nth_error (queue s) (currentIndex s).

(** The function [handleRate] passes to [setQueue] when the delay has
    elapsed; [currentPos] is [currentIndexRef.current] read at that time. *)
Definition requeue (cardToRequeue : Flashcard.t) (currentPos : nat)
    (currentQueue : list Flashcard.t) : list Flashcard.t :=
  if List.length currentQueue <? currentPos then currentQueue ++ [cardToRequeue]
  else
    let insertIndex :=
      if currentPos <? List.length currentQueue then currentPos + 1 else currentPos in
    firstn insertIndex currentQueue ++ cardToRequeue :: skipn insertIndex currentQueue.

Definition handleRate (rating : Rating) (s : t) : t :=
  match currentCard s with
  | None => s
  | Some currentCard =>
      let s := setDocuments (handleUpdateCardProgress (now s) currentCard rating) s in
      if isFail rating then
        let cardToRequeue := currentCard in
        let s := setCurrentIndex (fun prev => prev + 1) s in
        setTimeout (Requeue cardToRequeue) (AppSettings.failDelay (settings s)) s
      else setCurrentIndex (fun prev => prev + 1) s
  end.

(** The [onClick] of the button [Restart Session]. *)
Definition handleRestartSession (s : t) : t := setCurrentIndex (fun _ => 0) s.

Definition handleRestartAll (s : t) : t :=
  setIsFlipped false
    (setCurrentIndex (fun _ => 0)
       (setMissedCards (fun _ => [])
          (setQueue (fun _ => originalQueue s) s))).

Definition handleRestartMissed (s : t) : t :=
  let missed :=
    filter (fun c => existsb (str_eqb (Flashcard.id c)) (missedCards s)) (originalQueue s) in
  setIsFlipped false
    (setCurrentIndex (fun _ => 0)
       (setMissedCards (fun _ => [])
          (setQueue (fun _ => missed) s))).

(** [handleNextCard] of a render with the given [currentIndex] and queue
    length. *)
Definition handleNextCard (currentIndex queueLength : nat) (s : t) : t :=
  if currentIndex <? queueLength - 1 then setCurrentIndex (fun _ => currentIndex + 1) s
  else
    match mode s with
    | flashcards => setCurrentIndex (fun _ => currentIndex + 1) s
    | _ => setCurrentIndex (fun _ => currentIndex + 1) s
    end.

(** [handleCardAction] of a render with the given current card, index and
    queue length. *)
Definition handleCardAction (direction : Direction) (currentCard : option Flashcard.t)
    (currentIndex queueLength : nat) (s : t) : t :=
  match currentCard with
  | None => s
  | Some currentCard =>
      let s := match direction with
               | swipe_left => setMissedCards (fun prev => prev ++ [Flashcard.id currentCard]) s
               | swipe_right => s
               end in
      setTimeout (NextCard currentIndex queueLength) 300 s
  end.

(** [handleFlip] of a render with the given [isFlipped]. *)
Definition handleFlip (isFlipped : bool) (s : t) : t := setIsFlipped (negb isFlipped) s.

(** The auto-play effect: its cleanup, then its body. *)
Definition autoPlayEffect (s : t) : t :=
  let s := match autoPlayRef s with Some h => clearTimeout h s | None => s end in
  if isPlaying s && mode_eqb (mode s) flashcards
     && match currentCard s with Some _ => true | None => false end
  then
    let h := nextHandle s in
    if negb (isFlipped s)
    then setAutoPlayRef (Some h) (setTimeout (AutoFlip (isFlipped s)) 2000 s)
    else setAutoPlayRef (Some h)
           (setTimeout (AutoGood (currentCard s) (currentIndex s) (List.length (queue s))) 3000 s)
  else s.

(** The effects that run once the state [next], reached from the rendered
    state [prev], is rendered: the ref follows [currentIndex]; a change of
    [currentIndex] or [queue] turns the card face up; a change of one of
    [isPlaying], [isFlipped], [currentCard], [mode] re-runs the auto-play
    effect. Dependencies are compared by value. *)
Definition commit (prev next : t) : t :=
  let n := setCurrentIndexRef (currentIndex next) next in
  let n := if negb (currentIndex prev =? currentIndex n) || negb (queue_eqb (queue prev) (queue n))
           then setIsFlipped false n else n in
  if negb (Bool.eqb (isPlaying prev) (isPlaying n))
     || negb (Bool.eqb (isFlipped prev) (isFlipped n))
     || negb (card_opt_eqb (currentCard prev) (currentCard n))
     || negb (mode_eqb (mode prev) (mode n))
  then autoPlayEffect n else n.

(** Closing the session unmounts the component: the cleanup of the
    auto-play effect runs; nothing else is cleared. *)
Definition close (s : t) : t :=
  let s := match autoPlayRef s with Some h => clearTimeout h s | None => s end in
  unmount s.

(** The callback of a timer. *)
Definition fireAction (a : TimerAction) (s : t) : t :=
  match a with
  | Requeue cardToRequeue => setQueue (requeue cardToRequeue (currentIndexRef s)) s
  | AutoFlip isFlipped => handleFlip isFlipped s
  | AutoGood currentCard currentIndex queueLength =>
      handleCardAction swipe_right currentCard currentIndex queueLength s
  | NextCard currentIndex queueLength => handleNextCard currentIndex queueLength s
  end.

Inductive Event :=
| Rate (rating : Rating)
| RestartSession
| RestartAll
| RestartMissed
| CardAction (direction : Direction)
| FlipKey
| FlipClick
| TogglePlay
| Close
| Tick (dt : Z)
| Fire (h : nat).

(** A pending timer may fire once its delay has elapsed and no other
    pending timer is due earlier (or as early, and set before it). *)
Definition fireable (tm : Timer) (s : t) : bool :=
  (due tm <=? now s)%Z
  && forallb (fun o => (due tm <? due o)%Z
                       || ((due tm =? due o)%Z && (handle tm <=? handle o)))
             (timers s).

Definition endScreen (s : t) : bool :=
  match currentCard s with
  | None => true
  | Some _ => List.length (queue s) <=? currentIndex s
  end.

Definition isFlashcards (s : t) : bool := mode_eqb (mode s) flashcards.

(** The rating buttons a mode shows: those of [OrderRating] in mode
    [order], those of [StudyRating] in the other rating modes. *)
Definition offered (m : Mode) (rating : Rating) : bool :=
  match m, rating with
  | flashcards, _ => false
  | mode_order, order _ => true
  | mode_order, study _ => false
  | _, study _ => true
  | _, order _ => false
  end.

(** One event of the session: [None] when the interface does not offer it
    in state [s]. State updates on an unmounted component are dropped. *)
Definition step (e : Event) (s : t) : option t :=
  match e with
  | Tick dt => if (0 <=? dt)%Z then Some (setNow (now s + dt) s) else None
  | Fire h =>
      match find (fun tm => handle tm =? h) (timers s) with
      | Some tm =>
          if fireable tm s then
            let s1 := clearTimeout h s in
            if mounted s then Some (commit s (fireAction (action tm) s1)) else Some s1
          else None
      | None => None
      end
  | _ =>
      if negb (mounted s) then None
      else
        match e with
        | Rate rating =>
            if offered (mode s) rating && negb (endScreen s)
            then Some (commit s (handleRate rating s)) else None
        | RestartSession =>
            if negb (isFlashcards s) && endScreen s
            then Some (commit s (handleRestartSession s)) else None
        | RestartAll =>
            if isFlashcards s && endScreen s
            then Some (commit s (handleRestartAll s)) else None
        | RestartMissed =>
            if isFlashcards s && endScreen s && (0 <? List.length (missedCards s))
            then Some (commit s (handleRestartMissed s)) else None
        | CardAction direction =>
            if isFlashcards s && negb (endScreen s)
            then Some (commit s (handleCardAction direction (currentCard s) (currentIndex s)
                                   (List.length (queue s)) s))
            else None
        | FlipKey =>
            if isFlashcards s && negb (endScreen s)
            then Some (commit s (handleFlip (isFlipped s)
                                   (if isPlaying s then setIsPlaying false s else s)))
            else None
        | FlipClick =>
            if isFlashcards s && negb (endScreen s)
            then Some (commit s (handleFlip (isFlipped s) s))
            else None
        | TogglePlay =>
            if isFlashcards s && negb (endScreen s)
            then Some (commit s (setIsPlaying (negb (isPlaying s)) s)) else None
        | Close => Some (close s)
        | _ => None
        end
  end.

Fixpoint run (es : list Event) (s : t) : option t :=
  match es with
  | [] => Some s
  | e :: es' => match step e s with Some s' => run es' s' | None => None end
  end.

(** ** Context path *)

(** The backward loop of [getContextPath], as [CardTable.lookBack] but on
    trimmed contents. *)
Fixpoint lookBackTrim (blocks : list Block.t) (i : nat) (currentLevel : N)
    (parents : list str) : list str :=
  match i with
  | O => parents
  | S j =>
      match nth_error blocks j with
      | None => parents
      | Some b =>
          if (Block.level b <? currentLevel)%N then
            if (Block.level b =? 0)%N then trim (Block.content b) :: parents
            else lookBackTrim blocks j (Block.level b) (trim (Block.content b) :: parents)
          else lookBackTrim blocks j currentLevel parents
      end
  end.




End StudySession.

(* ================================================================== *)
(** * Specification-side definitions *)
(* ================================================================== *)

Module Spec.

(** ** Ancestry: the implicit tree of the data model *)

(** The parent of the block at [i], whose level is [lvl]: the nearest
    preceding block with a strictly smaller level. *)
Fixpoint parentIndex (blocks : list Block.t) (i : nat) (lvl : N) : option nat :=
  match i with
  | O => None
  | S j =>
      match nth_error blocks j with
      | Some b => if (Block.level b <? lvl)%N then Some j else parentIndex blocks j lvl
      | None => parentIndex blocks j lvl
      end
  end.

(** The texts of the parent, the parent's parent and so on, root first.
    Every parent lies strictly before its child, so [fuel = i] suffices. *)
Fixpoint ancestorChain (fuel : nat) (blocks : list Block.t) (i : nat) (lvl : N) : list str :=
  match fuel with
  | O => []
  | S fuel' =>
      match parentIndex blocks i lvl with
      | None => []
      | Some j =>
          match nth_error blocks j with
          | Some p => ancestorChain fuel' blocks j (Block.level p) ++ [Block.content p]
          | None => []
          end
      end
  end.

Definition ancestorPath (blocks : list Block.t) (index : nat) (block : Block.t) : list str :=
  ancestorChain index blocks index (Block.level block).

(** The scan in the words of the specification: over the blocks at
    [index-1 .. 0], a block whose level is strictly less than the tracked
    level is prepended and becomes the tracked level; the scan stops once
    the tracked level is 0. *)
Record Scan := mkScan { tracked : N; path : list str; stopped : bool }.

Definition scanStep (st : Scan) (b : Block.t) : Scan :=
  if stopped st then st
  else if (Block.level b <? tracked st)%N
       then mkScan (Block.level b) (Block.content b :: path st) (Block.level b =? 0)%N
       else st.

Definition ancestorsScan (blocks : list Block.t) (index : nat) (block : Block.t) : list str :=
  path (fold_left scanStep (rev (firstn index blocks)) (mkScan (Block.level block) [] false)).

(** ** Pieces of a delimited content *)

(** [a] is the substring of [content] before the first occurrence of [d],
    and [rest] what follows that occurrence. *)
Definition cutAtFirst (d content a rest : str) : Prop :=
  content = a ++ d ++ rest /\ indexOf d content = Some (List.length a).

(** [b] is the substring of [rest] up to the next occurrence of [d], or all
    of [rest] when [d] does not occur in it. *)
Definition pieceUpTo (d rest b : str) : Prop :=
  (indexOf d rest = None /\ b = rest) \/ (exists c, cutAtFirst d rest b c).

(** [{ ...block, content: c }] *)
Definition withContent (b : Block.t) (c : str) : Block.t :=
  Block.mk (Block.id b) c (Block.level b) (Block.isFlashcard b) (Block.parentId b)
    (Block.srsData b).

(** What a row shows of a card: id, front, back and type. *)
Definition face (r : TableRow.t) : str * str * str * CardType :=
  (TableRow.id r, TableRow.front r, TableRow.back r, TableRow.type r).

(** An enabled card without lapses. *)
Definition isFresh (r : TableRow.t) : bool :=
  CardTable.isEnabled r && (TableRow.lapses r =? 0)%N.

(** ** Sessions *)


(** ** Rating frame *)

(** [b'] is [b] after a rating at time [now]: the block keeps its own
    fields; of its record (the default one if absent) [nextReview],
    [interval], [easeFactor] and [disabled] are kept, [lastReview] is
    [now], and the counters move as the rating says. *)
Definition ratedBlock (now : Z) (rating : Rating) (b b' : Block.t) : Prop :=
  Block.id b' = Block.id b /\ Block.content b' = Block.content b
  /\ Block.level b' = Block.level b /\ Block.isFlashcard b' = Block.isFlashcard b
  /\ Block.parentId b' = Block.parentId b
  /\ exists srs',
       Block.srsData b' = Some srs'
       /\ SrsData.nextReview srs' = SrsData.nextReview (srsOrDefault b)
       /\ SrsData.interval srs' = SrsData.interval (srsOrDefault b)
       /\ SrsData.easeFactor srs' = SrsData.easeFactor (srsOrDefault b)
       /\ SrsData.disabled srs' = SrsData.disabled (srsOrDefault b)
       /\ SrsData.lastReview srs' = Some now
       /\ (if isFail rating
           then or0 (SrsData.lapses srs') = (or0 (SrsData.lapses (srsOrDefault b)) + 1)%N
                /\ SrsData.repetitions srs' = 0%N
           else SrsData.repetitions srs' = (SrsData.repetitions (srsOrDefault b) + 1)%N
                /\ or0 (SrsData.lapses srs') = or0 (SrsData.lapses (srsOrDefault b))).

(** A block of the rated card's document after the rating. *)
Definition blockAfterRating (now : Z) (card : Flashcard.t) (rating : Rating)
    (b b' : Block.t) : Prop :=
  (Block.id b <> Flashcard.blockId card -> b' = b)
  /\ (Block.id b = Flashcard.blockId card -> ratedBlock now rating b b').

(** A document after the rating. *)
Definition docAfterRating (now : Z) (card : Flashcard.t) (rating : Rating)
    (d d' : Document.t) : Prop :=
  (Document.id d <> Flashcard.docId card -> d' = d)
  /\ (Document.id d = Flashcard.docId card ->
      Document.id d' = Document.id d /\ Document.folderId d' = Document.folderId d
      /\ Document.title d' = Document.title d
      /\ Document.lastModified d' = Document.lastModified d
      /\ Forall2 (blockAfterRating now card rating) (Document.blocks d) (Document.blocks d')).

(** The claim that only [repetitions] and [lapses] of the record change:
    every other field of the record, [lastReview] included, is kept. *)
Definition onlyCountersChange (b b' : Block.t) : Prop :=
  SrsData.nextReview (srsOrDefault b') = SrsData.nextReview (srsOrDefault b)
  /\ SrsData.interval (srsOrDefault b') = SrsData.interval (srsOrDefault b)
  /\ SrsData.easeFactor (srsOrDefault b') = SrsData.easeFactor (srsOrDefault b)
  /\ SrsData.disabled (srsOrDefault b') = SrsData.disabled (srsOrDefault b)
  /\ SrsData.lastReview (srsOrDefault b') = SrsData.lastReview (srsOrDefault b).

End Spec.

(* ================================================================== *)
(** * Sample documents and sessions *)
(* ================================================================== *)

Module Sample.

Definition block (id content : string) (level : N) : Block.t :=
  Block.mk (lit id) (lit content) level None None None.

Definition doc (id : string) (blocks : list Block.t) : Document.t :=
  Document.mk (lit id) None (lit "Notes") blocks 0.

Definition settings : AppSettings.t := AppSettings.mk true 2000 5.

(** A two-way block, and blocks with an empty side. *)
Definition twoWay : Block.t := block "b4" "front :: back" 1.
Definition noBack : Block.t := block "b5" "front ::" 1.
Definition noFront : Block.t := block "b6" " ;; back" 1.

Definition twoWayDoc : Document.t := doc "d" [twoWay].
Definition emptySideDoc : Document.t := doc "d" [noBack; noFront].


(** An outline with the levels 0,1,1,2,0,1. *)
Definition outline : list Block.t :=
  [ block "o0" "t0" 0; block "o1" "t1" 1; block "o2" "t2" 1;
    block "o3" "t3" 2; block "o4" "t4" 0; block "o5" "t5" 1 ].

(** Rows of a card table: a leech, a struggling card, a card without
    lapses and a disabled card. *)
Definition row (id : string) (lapses : N) (disabled : bool) (repetitions : N) : TableRow.t :=
  TableRow.mk (lit id) (lit id) [] (lit "front") (lit "back") forward
    lapses disabled repetitions.

Definition rows : list TableRow.t :=
  [ row "r1" 6 false 3; row "r2" 2 false 1; row "r3" 0 false 4; row "r4" 7 true 0 ].

(** Three forward cards and the document they come from. *)
Definition deck : Document.t :=
  doc "d1" [ block "q1" "one ;; 1" 0; block "q2" "two ;; 2" 0; block "q3" "three ;; 3" 0 ].

Definition cardOf (id front back : string) : Flashcard.t :=
  Flashcard.mk (lit id) (lit front) (lit back) (lit (String.substring 0 2 id)) (lit "d1")
    forward status_new 0 0%Q (5 # 2)%Q 0 (Some 0%N) (Some false).

Definition cardA : Flashcard.t := cardOf "q1_fwd" "one" "1".
Definition cardB : Flashcard.t := cardOf "q2_fwd" "two" "2".
Definition cardC : Flashcard.t := cardOf "q3_fwd" "three" "3".

(** A session in mode [spaced] on the cards of [deck], in document order. *)
Definition session3 : StudySession.t :=
  StudySession.start (extractCards [deck]) [deck] settings spaced 1000.

(** A session on the first card only. *)
Definition session1 : StudySession.t :=
  StudySession.start [cardA] [deck] settings spaced 1000.

(** A swipe session on the cards of [deck]. *)
Definition swipe3 : StudySession.t :=
  StudySession.start (extractCards [deck]) [deck] settings flashcards 1000.

End Sample.

(* ================================================================== *)
(** * Further string functions *)
(* ================================================================== *)

Module JsText.

(** [s.endsWith(d)] *)
Definition endsWith (d s : str) : bool := is_prefix (rev d) (rev s).

(** [s.replace(d, r)] for a string pattern [d] and a replacement [r]
    without [$]: the first occurrence of [d] is replaced. *)
Fixpoint replaceFirst (d r s : str) : str :=
  if is_prefix d s then r ++ skipn (List.length d) s
  else match s with
       | [] => []
       | c :: s' => c :: replaceFirst d r s'
       end.

(** [s.substring(start, end)]: both positions are clamped to the length
    and swapped when out of order. *)
Definition substring (start end_ : nat) (s : str) : str :=
  let a := Nat.min start (List.length s) in
  let b := Nat.min end_ (List.length s) in
  firstn (Nat.max a b - Nat.min a b) (skipn (Nat.min a b) s).

(** [s.substring(start)] *)
Definition substringFrom (start : nat) (s : str) : str :=
  skipn (Nat.min start (List.length s)) s.

(** The arrows the editor puts for a typed delimiter: U+21D2 and U+2194,
    each followed by a space. *)
Definition arrowForward : str := [8658; 32]%N.
Definition arrowBoth : str := [8596; 32]%N.

Definition quote : char := 34%N.

(** The replacement string of [replace] for a match [m] of a pattern
    without groups, with [before] and [after] the rest of the string:
    [$$] gives a dollar sign, [$&] the match, [$`] the part before and
    [$'] the part after it; any other dollar sign stays. *)
Fixpoint expand (m before after r : str) : str :=
  match r with
  | [] => []
  | c :: r' =>
      if (c =? 36)%N then
        match r' with
        | c' :: r'' =>
            if (c' =? 36)%N then 36%N :: expand m before after r''
            else if (c' =? 38)%N then m ++ expand m before after r''
            else if (c' =? 96)%N then before ++ expand m before after r''
            else if (c' =? 39)%N then after ++ expand m before after r''
            else c :: expand m before after r'
        | [] => [c]
        end
      else c :: expand m before after r'
  end.

(** [s.replace(/d$/, r)] for a literal [d]: the pattern matches at the
    end of [s] only. *)
Definition replaceAtEnd (d r s : str) : str :=
  if endsWith d s
  then let before := firstn (List.length s - List.length d) s in
       before ++ expand d before [] r
  else s.

End JsText.

(* ================================================================== *)
(** * Editor (component [Editor]) *)
(* ================================================================== *)


(** [l[index] = x] on a copy of the array, for a position of the array. *)
Definition setAt {A : Type} (index : nat) (x : A) (l : list A) : list A :=
  firstn index l ++ x :: skipn (S index) l.

Module Editor.

(** [flashcardCount]: the blocks flagged as flashcards or whose content has
    a delimiter or a cloze span. *)
Definition flashcardCount (blocks : list Block.t) : nat :=
  List.length
    (filter (fun b => orFalse (Block.isFlashcard b)
                      || includes (lit "::") (Block.content b)
                      || includes (lit ";;") (Block.content b)
                      || cloze_test (Block.content b))
            blocks).

(** [x || d] on the numbers of a possibly absent record. *)
Definition zOr (x : option Z) (d : Z) : Z :=
  match x with Some v => if (v =? 0)%Z then d else v | None => d end.
Definition nOr (x : option N) (d : N) : N :=
  match x with Some v => if (v =? 0)%N then d else v | None => d end.
Definition qOr (x : option Q) (d : Q) : Q :=
  match x with Some v => if (Qnum v =? 0)%Z then d else v | None => d end.

(** The record [handleToggleDisable] writes for a block. *)
Definition toggledSrs (b : Block.t) : SrsData.t :=
  let srs := Block.srsData b in
  SrsData.mk
    (zOr (option_map SrsData.nextReview srs) 0)
    (qOr (option_map SrsData.interval srs) 0%Q)
    (qOr (option_map SrsData.easeFactor srs) (5 # 2)%Q)
    (nOr (option_map SrsData.repetitions srs) 0)
    (Some (nOr (match srs with Some s => SrsData.lapses s | None => None end) 0))
    (Some (negb (orFalse (match srs with Some s => SrsData.disabled s | None => None end))))
    (match srs with Some s => SrsData.lastReview s | None => None end).

(** [handleToggleDisable]: the blocks handed to [onChangeBlocks]. *)
Definition handleToggleDisable (blockId : str) (blocks : list Block.t) : list Block.t :=
  map (fun b => if str_eqb (Block.id b) blockId
                then Block.with_srsData b (toggledSrs b)
                else b)
      blocks.

(** The replacements of [handleBlockChange]: a content that ends with a
    delimiter and a space gets its first such delimiter turned into an
    arrow. *)
Definition replacements (content : str) : str :=
  let newContent := content in
  let newContent :=
    if JsText.endsWith (lit ";; ") newContent
    then JsText.replaceFirst (lit ";; ") JsText.arrowForward newContent
    else newContent in
  if JsText.endsWith (lit ":: ") newContent
  then JsText.replaceFirst (lit ":: ") JsText.arrowBoth newContent
  else newContent.

(** [handleBlockChange]: the blocks handed to [onChangeBlocks], the blocks
    as they are when the content is the same, [None] when [index] is no
    position of [blocks] (a [TypeError]). *)
Definition handleBlockChange (index : nat) (content : str) (blocks : list Block.t)
    : option (list Block.t) :=
  let newContent := replacements content in
  match nth_error blocks index with
  | None => None
  | Some b =>
      if negb (str_eqb (Block.content b) newContent)
      then Some (setAt index (Spec.withContent b newContent) blocks)
      else Some blocks
  end.

(** [insertReference] for the block the reference menu was opened on:
    [None] when the menu is not open on a block of [blocks]. *)
Definition insertReference (docTitle : str) (refTriggerIdx : option nat)
    (blocks : list Block.t) : option (list Block.t) :=
  match refTriggerIdx with
  | None => None
  | Some index =>
      match nth_error blocks index with
      | None => None
      | Some block =>
          let newContent :=
            JsText.replaceAtEnd (lit "[[") (lit "[[" ++ docTitle ++ lit "]] ")
              (Block.content block) in
          handleBlockChange index newContent blocks
      end
  end.

Inductive FormatType :=
  bold | italic | underline | highlight | format_cloze | ref | color.

(** The prefix and suffix [applyFormat] puts around the selection. *)
Definition formatMarks (formatType : FormatType) (colorValue : option str) : str * str :=
  match formatType with
  | bold => (lit "**", lit "**")
  | italic => (lit "*", lit "*")
  | underline => (lit "<u>", lit "</u>")
  | highlight => (lit "^^", lit "^^")
  | format_cloze => (lit "{", lit "}")
  | ref => (lit "[[", lit "]]")
  | color =>
      match colorValue with
      | Some c =>
          if truthy c
          then (lit "<span style=" ++ [JsText.quote] ++ lit "color:" ++ c
                ++ [JsText.quote] ++ lit ">", lit "</span>")
          else ([], [])
      | None => ([], [])
      end
  end.

(** [newText] of [applyFormat] for the selection from [start] to [end_]. *)
Definition applyFormat (formatType : FormatType) (colorValue : option str)
    (start end_ : nat) (text : str) : str :=
  let selection := JsText.substring start end_ text in
  let '(prefix, suffix) := formatMarks formatType colorValue in
  let before := JsText.substring 0 start text in
  let after := JsText.substringFrom end_ text in
  before ++ prefix ++ selection ++ suffix ++ after.






End Editor.

(* ================================================================== *)
(** * Documents and folders (component [App]) *)
(* ================================================================== *)

Module Folder.
Record t := mk { id : str; name : str; isOpen : bool }.
End Folder.

Module Backlink.
Record t := mk {
  sourceDocId : str;
  sourceDocTitle : str;
  sourceBlockId : str;
  content : str
}.
End Backlink.

Module App.

(** [activeBacklinks]: the blocks of all documents whose content has the
    title of the active document between double brackets. *)
Definition titlePattern (title : str) : str := lit "[[" ++ title ++ lit "]]".

Definition activeBacklinks (documents : list Document.t) (activeDocId : option str)
    : list Backlink.t :=
  match activeDoc documents activeDocId with
  | None => []
  | Some active =>
      flat_map
        (fun doc =>
           flat_map
             (fun block =>
                if includes (titlePattern (Document.title active)) (Block.content block)
                then [Backlink.mk (Document.id doc) (Document.title doc) (Block.id block)
                        (Block.content block)]
                else [])
             (Document.blocks doc))
        documents
  end.

(** [handleUpdateBlocks], as the function it passes to [setDocuments];
    [now] is [Date.now()]. *)
Definition handleUpdateBlocks (now : Z) (activeDocId : option str) (blocks : list Block.t)
    (prev : list Document.t) : list Document.t :=
  map (fun doc =>
         if match activeDocId with
            | Some a => str_eqb (Document.id doc) a
            | None => false
            end
         then Document.mk (Document.id doc) (Document.folderId doc) (Document.title doc)
                blocks now
         else doc)
      prev.

(** What [handleEditCard] makes of the block of the card: the new front
    alone for a cloze card, else the new front and back around the
    delimiter the block has. *)
Definition editBlock (card : Flashcard.t) (newFront newBack : str) (b : Block.t) : Block.t :=
  match Flashcard.cardType card with
  | cloze => Spec.withContent b newFront
  | _ =>
      let sep := if includes (lit "::") (Block.content b) then lit "::" else lit ";;" in
      Spec.withContent b (newFront ++ lit " " ++ sep ++ lit " " ++ newBack)
  end.

(** [handleEditCard], as the function it passes to [setDocuments]. *)
Definition handleEditCard (card : Flashcard.t) (newFront newBack : str)
    (docs : list Document.t) : list Document.t :=
  map (fun d =>
         if str_eqb (Document.id d) (Flashcard.docId card)
         then Document.with_blocks d
                (map (fun b =>
                        if str_eqb (Block.id b) (Flashcard.blockId card)
                        then editBlock card newFront newBack b
                        else b)
                     (Document.blocks d))
         else d)
      docs.

(** The part of the state the document and folder handlers work on. *)
Record Library := mkLibrary {
  documents : list Document.t;
  folders : list Folder.t;
  activeDocId : option str
}.

(** [{ ...d, folderId }] *)
Definition withFolder (d : Document.t) (folderId : option str) : Document.t :=
  Document.mk (Document.id d) folderId (Document.title d) (Document.blocks d)
    (Document.lastModified d).

(** Truthiness of a [folderId]. *)
Definition hasFolder (d : Document.t) : bool :=
  match Document.folderId d with Some f => truthy f | None => false end.

Definition inFolder (folderId : str) (d : Document.t) : bool :=
  match Document.folderId d with Some f => str_eqb f folderId | None => false end.

(** [handleDeleteDoc]; [confirm] is the answer to [window.confirm]. [None]
    is the [TypeError] of [newDocs[0].id] on an empty array. *)
Definition handleDeleteDoc (id : str) (confirm : bool) (lib : Library) : option Library :=
  match find (fun d => str_eqb (Document.id d) id) (documents lib) with
  | None => Some lib
  | Some _ =>
      if List.length (documents lib) <=? 1 then Some lib
      else if confirm then
        let newDocs := filter (fun d => negb (str_eqb (Document.id d) id)) (documents lib) in
        if match activeDocId lib with Some a => str_eqb a id | None => false end
        then match nth_error newDocs 0 with
             | Some d0 => Some (mkLibrary newDocs (folders lib) (Some (Document.id d0)))
             | None => None
             end
        else Some (mkLibrary newDocs (folders lib) (activeDocId lib))
      else Some lib
  end.

(** [handleDeleteFolder] *)
Definition handleDeleteFolder (folderId : str) (confirm : bool) (lib : Library) : Library :=
  match find (fun f => str_eqb (Folder.id f) folderId) (folders lib) with
  | None => lib
  | Some _ =>
      let hasDocs := 0 <? List.length (filter (inFolder folderId) (documents lib)) in
      if confirm then
        mkLibrary
          (if hasDocs
           then map (fun d => if inFolder folderId d then withFolder d None else d)
                    (documents lib)
           else documents lib)
          (filter (fun f => negb (str_eqb (Folder.id f) folderId)) (folders lib))
          (activeDocId lib)
      else lib
  end.

(** [handleMoveDoc] *)
Definition handleMoveDoc (docId : str) (folderId : option str) (lib : Library) : Library :=
  mkLibrary
    (map (fun d => if str_eqb (Document.id d) docId then withFolder d folderId else d)
         (documents lib))
    (folders lib) (activeDocId lib).

(** The places of the sidebar: under [Unsorted] the documents without
    folder, and under each folder (shown when the folder is open) the
    documents of that folder. [listed] has every document once for each
    place it has. *)
Definition unorganizedDocs (lib : Library) : list Document.t :=
  filter (fun d => negb (hasFolder d)) (documents lib).

Definition folderDocs (lib : Library) (folder : Folder.t) : list Document.t :=
  filter (inFolder (Folder.id folder)) (documents lib).

Definition listed (lib : Library) : list Document.t :=
  flat_map (folderDocs lib) (folders lib) ++ unorganizedDocs lib.

End App.

(* ================================================================== *)
(** * Further handlers of the study session *)
(* ================================================================== *)

Module SessionHandlers.

Import StudySession.

Definition handlePrevCard (s : t) : t :=
  if 0 <? currentIndex s then setCurrentIndex (fun _ => currentIndex s - 1) s else s.

(** [handleDisableCard]: after its alert the position moves on unless the
    card is the last one. *)
Definition handleDisableCard (s : t) : t :=
  if currentIndex s <? List.length (queue s) - 1
  then setCurrentIndex (fun _ => currentIndex s + 1) s
  else s.

(** [handleShuffle] *)
Definition handleShuffle (rand : nat -> nat) (s : t) : t :=
  if isFlashcards s
  then setCurrentIndex (fun _ => 0) (setQueue (fun _ => shuffle rand (queue s)) s)
  else s.

(** [{ ...currentCard, front, back }] *)
Definition withFaces (c : Flashcard.t) (front back : str) : Flashcard.t :=
  Flashcard.mk (Flashcard.id c) front back (Flashcard.blockId c) (Flashcard.docId c)
    (Flashcard.cardType c) (Flashcard.status c) (Flashcard.nextReview c)
    (Flashcard.interval c) (Flashcard.easeFactor c) (Flashcard.repetitions c)
    (Flashcard.lapses c) (Flashcard.disabled c).

(** [handleSaveEdit] with the contents of the edit form. *)
Definition handleSaveEdit (editFront editBack : str) (s : t) : t :=
  match currentCard s with
  | None => s
  | Some currentCard =>
      let s := setDocuments (App.handleEditCard currentCard editFront editBack) s in
      setQueue (fun _ => setAt (currentIndex s) (withFaces currentCard editFront editBack)
                               (queue s)) s
  end.

Section Filter.
Variable toLowerCase : str -> str.

(** The filtering effect, run for a new [filterTerm]. *)
Definition filterEffect (filterTerm : str) (s : t) : t :=
  if isFlashcards s then
    if negb (truthy (trim filterTerm)) then setQueue (fun _ => originalQueue s) s
    else
      let term := toLowerCase filterTerm in
      let filtered :=
        filter (fun card => includes term (toLowerCase (Flashcard.front card))
                            || includes term (toLowerCase (Flashcard.back card)))
               (originalQueue s) in
      setCurrentIndex (fun _ => 0) (setQueue (fun _ => filtered) s)
  else s.
End Filter.

End SessionHandlers.

(* ================================================================== *)
(** * Import of generated notes ([geminiService]) *)
(* ================================================================== *)

Module NoteImport.

(** The characters of the class [[-*...]] as the source file has it. *)
Definition isMarker (c : char) : bool :=
  ((c =? 45) || (c =? 42) || (c =? 226) || (c =? 8364) || (c =? 162))%N.

(** [trimmed.replace(/^[-*...]\s*/, '')] *)
Definition cleanMarker (trimmed : str) : str :=
  match trimmed with
  | c :: rest => if isMarker c then trimStart rest else trimmed
  | [] => []
  end.

Definition levelOf (line : str) : N :=
  let level := 0%N in
  let level := if is_prefix (lit "    ") line || is_prefix [9%N] line then 1%N else level in
  if is_prefix (lit "        ") line || is_prefix [9%N; 9%N] line then 2%N else level.

(** The block made of one line; [id] is the id [generateId] returns. *)
Definition blockOfLine (id : str) (line : str) : Block.t :=
  let cleanContent := cleanMarker (trimStart line) in
  Block.mk id cleanContent (levelOf line) (Some (includes (lit "::") cleanContent))
    None None.

(** The non-blank lines of the response text. *)
Definition linesOf (text : str) : list str :=
  filter (fun line => truthy (trim line)) (split [10%N] text).

(** The blocks [generateFlashcardsFromTopic] makes of the response text;
    [genId k] is the id generated for line [k]. *)
Definition blocksOfText (genId : nat -> str) (text : str) : list Block.t :=
  map (fun kl => blockOfLine (genId (fst kl)) (snd kl))
      (combine (seq 0 (List.length (linesOf text))) (linesOf text)).

End NoteImport.

(* ================================================================== *)
(** * Sessions as a whole *)
(* ================================================================== *)

Module SessionSpec.

Import StudySession.

(** What is kept in a session of a rating mode [m] on [cards]: the mode,
    the cards the session was mounted on, no auto-play and no missed
    cards; the position is within the queue or right behind it; the queue
    has the cards of the session and no other; every pending timer puts
    back a card of the session; and the ref follows the position while
    the session is mounted. *)
Definition ratingSession (cards : list Flashcard.t) (m : Mode) (s : t) : Prop :=
  mode s = m /\ originalQueue s = cards
  /\ isPlaying s = false /\ autoPlayRef s = None /\ missedCards s = []
  /\ currentIndex s <= List.length (queue s)
  /\ List.length cards <= List.length (queue s)
  /\ (forall c, In c (queue s) <-> In c cards)
  /\ (forall tm, In tm (timers s) -> exists c, action tm = Requeue c /\ In c cards)
  /\ (mounted s = true -> currentIndexRef s = currentIndex s).

(** Swiping the cards of a swipe session one after the other: each swipe
    is followed by the 300 ms of its animation and by its timer, whose
    handle is the next one of the session. *)
Fixpoint swipeEvents (h : nat) (directions : list Direction) : list Event :=
  match directions with
  | [] => []
  | d :: ds => CardAction d :: Tick 300 :: Fire h :: swipeEvents (S h) ds
  end.

Definition isLeft (d : Direction) : bool :=
  match d with swipe_left => true | swipe_right => false end.

(** The cards swiped to the left, in the order of the queue. *)
Definition swipedLeft (cards : list Flashcard.t) (directions : list Direction)
    : list Flashcard.t :=
  map fst (filter (fun cd => isLeft (snd cd)) (combine cards directions)).

End SessionSpec.

(** Two strings with different endings differ: compared from the end,
    they part within the endings. *)
Ltac differ_at_end :=
  let E := fresh "E" in
  intros E; apply (f_equal (@rev char)) in E;
  rewrite !rev_app_distr in E; vm_compute in E; congruence.

(* ================================================================== *)
(** * Properties of the string functions *)
(* ================================================================== *)

Section StringFacts.

Variable d : str.

Lemma is_prefix_self (r : str) : is_prefix d (d ++ r) = true.
Proof.
  induction d as [|x d' IH]; simpl; [reflexivity|].
  now rewrite N.eqb_refl, IH.
Qed.

Lemma is_prefix_decompose (s : str) :
  is_prefix d s = true -> exists r, s = d ++ r.
Proof.
  revert s. induction d as [|x d' IH]; intros s H.
  - now exists s.
  - destruct s as [|y s']; simpl in H; [discriminate|].
    apply andb_true_iff in H as [Hxy Hp].
    apply N.eqb_eq in Hxy. subst y.
    destruct (IH s' Hp) as [r ->]. now exists r.
Qed.


Lemma split_from_skip (k r : str) :
  split_from d (List.length k) (k ++ r) = split_from d 0 r.
Proof. induction k as [|c k IH]; simpl; auto. Qed.

Lemma indexOf_cons_Some (c : char) (s : str) (n : nat) :
  indexOf d (c :: s) = Some (S n) ->
  is_prefix d (c :: s) = false /\ indexOf d s = Some n.
Proof.
  cbn [indexOf]. destruct (is_prefix d (c :: s)); [discriminate|].
  destruct (indexOf d s) as [m|]; simpl; [|discriminate].
  intros [= ->]. auto.
Qed.

Lemma indexOf_cons_None (c : char) (s : str) :
  indexOf d (c :: s) = None ->
  is_prefix d (c :: s) = false /\ indexOf d s = None.
Proof.
  cbn [indexOf]. destruct (is_prefix d (c :: s)); [discriminate|].
  destruct (indexOf d s); simpl; [discriminate|auto].
Qed.

Lemma indexOf_decompose (s : str) (n : nat) :
  indexOf d s = Some n -> exists a r, s = a ++ d ++ r /\ List.length a = n.
Proof.
  revert n. induction s as [|c s IH]; intros n H.
  - cbn [indexOf] in H. destruct (is_prefix d []) eqn:Hp; [|discriminate].
    injection H as <-. destruct (is_prefix_decompose _ Hp) as [r Hr].
    exists [], r. auto.
  - destruct n as [|n].
    + cbn [indexOf] in H. destruct (is_prefix d (c :: s)) eqn:Hp.
      * destruct (is_prefix_decompose _ Hp) as [r Hr]. exists [], r. auto.
      * destruct (indexOf d s); discriminate.
    + apply indexOf_cons_Some in H as [_ H].
      destruct (IH _ H) as (a & r & -> & <-).
      exists (c :: a), r. auto.
Qed.

Lemma includes_indexOf (s : str) :
  includes d s = true <-> exists n, indexOf d s = Some n.
Proof.
  unfold includes. destruct (indexOf d s) as [n|]; split; eauto.
  - discriminate.
  - intros [n H]. discriminate.
Qed.

Lemma includes_false_indexOf (s : str) :
  includes d s = false <-> indexOf d s = None.
Proof.
  unfold includes. destruct (indexOf d s); split; congruence.
Qed.


End StringFacts.

Lemma split_at_occurrence (d r : str) :
  d <> [] -> split_from d 0 (d ++ r) = [] :: split_from d 0 r.
Proof.
  destruct d as [|x d']; [contradiction|]. intros _.
  cbn [app split_from]. change (x :: d' ++ r) with ((x :: d') ++ r).
  rewrite is_prefix_self. cbn [List.length pred].
  now rewrite split_from_skip.
Qed.

Section SplitFacts.

Variable d : str.
Hypothesis d_nonempty : d <> [].

(** [split] cuts at the first occurrence and goes on after it. *)
Lemma split_first (a r : str) :
  indexOf d (a ++ d ++ r) = Some (List.length a) ->
  split d (a ++ d ++ r) = a :: split d r.
Proof.
  unfold split. induction a as [|c a IH]; intros H.
  - cbn [app]. now apply split_at_occurrence.
  - cbn [app List.length] in H. apply indexOf_cons_Some in H as [Hp H].
    cbn [app split_from]. rewrite Hp, (IH H). reflexivity.
Qed.

(** Without an occurrence, [split] returns the string as its only piece. *)
Lemma split_none (s : str) : indexOf d s = None -> split d s = [s].
Proof.
  unfold split. induction s as [|c s IH]; intros H; [reflexivity|].
  apply indexOf_cons_None in H as [Hp H].
  cbn [split_from]. rewrite Hp, (IH H). reflexivity.
Qed.

(** The first two pieces of [split], in the words of the specification. *)
Lemma split_two_pieces (content a rest b : str) :
  Spec.cutAtFirst d content a rest -> Spec.pieceUpTo d rest b ->
  exists more, split d content = a :: b :: more.
Proof.
  intros [-> Ha] [[Hn ->] | [c [-> Hb]]].
  - exists []. now rewrite (split_first _ _ Ha), (split_none _ Hn).
  - exists (split d c). now rewrite (split_first _ _ Ha), (split_first _ _ Hb).
Qed.

(** A content that includes [d] has a first cut and a next piece. *)
Lemma includes_pieces (content : str) :
  includes d content = true ->
  exists a rest b, Spec.cutAtFirst d content a rest /\ Spec.pieceUpTo d rest b.
Proof.
  intros H. apply includes_indexOf in H as [n H].
  destruct (indexOf_decompose _ _ _ H) as (a & rest & -> & <-).
  exists a, rest.
  destruct (indexOf d rest) as [m|] eqn:Hr.
  - destruct (indexOf_decompose _ _ _ Hr) as (b & c & -> & <-).
    exists b. split; [split; auto|]. right. exists c. split; auto.
  - exists rest. split; [split; auto|]. left. auto.
Qed.

End SplitFacts.

Arguments split_two_pieces {d} _ {content a rest b} _ _.

Lemma lit_cons_nonempty (c : ascii) (s : string) : lit (String c s) <> [].
Proof. discriminate. Qed.

(** The string functions on some inputs, as JavaScript evaluates them. *)
Example split_examples :
  split (lit "::") (lit "a::b::c") = [lit "a"; lit "b"; lit "c"]
  /\ split (lit "::") (lit "a:::b") = [lit "a"; lit ":b"]
  /\ split (lit "::") (lit "a::") = [lit "a"; lit ""]
  /\ split (lit "::") (lit "::") = [lit ""; lit ""]
  /\ split (lit "::") (lit "a:b") = [lit "a:b"]
  /\ split (lit "::") (lit "") = [lit ""].
Proof. repeat split. Qed.

Example trim_examples :
  trim (lit "  a b  ") = lit "a b"
  /\ trim (lit "   ") = lit ""
  /\ trim [9; 10; 13; 160; 97; 8232; 65279]%N = [97]%N.
Proof. repeat split. Qed.

Example cloze_examples :
  cloze_test (lit "Use {curly braces} here") = true
  /\ cloze_test (lit "an empty {} pair") = false
  /\ cloze_test (lit "{open only") = false
  /\ cloze_test (lit "} {{} ") = true.
Proof. repeat split. Qed.

Example includes_examples :
  includes (lit "::") (lit "a:::b") = true
  /\ indexOf (lit "::") (lit "a:::b") = Some 1
  /\ includes (lit "::") (lit "a:b;;c") = false
  /\ includes (lit "") (lit "abc") = true.
Proof. repeat split. Qed.

Arguments lit : simpl never.

(* ================================================================== *)
(** * Card derivation *)
(* ================================================================== *)

Lemma fold_left_push {A B : Type} (f : B -> list A) (l : list B) (acc : list A) :
  fold_left (fun acc x => acc ++ f x) l acc = acc ++ flat_map f l.
Proof.
  revert acc. induction l as [|x l IH]; intros acc; simpl.
  - now rewrite app_nil_r.
  - now rewrite IH, app_assoc.
Qed.

(** [extractCards] concatenates the cards of the blocks, document by
    document. *)
Lemma extractCards_flat_map (docs : list Document.t) :
  extractCards docs
  = flat_map (fun doc => flat_map (extractBlock doc) (Document.blocks doc)) docs.
Proof.
  unfold extractCards.
  transitivity (fold_left
    (fun acc doc => acc ++ flat_map (extractBlock doc) (Document.blocks doc)) docs []).
  - generalize (@nil Flashcard.t). induction docs as [|doc docs IH]; intros acc; simpl.
    + reflexivity.
    + now rewrite fold_left_push, IH.
  - now rewrite fold_left_push.
Qed.

Lemma In_extractCards (docs : list Document.t) (c : Flashcard.t) :
  In c (extractCards docs) <->
  exists doc block, In doc docs /\ In block (Document.blocks doc)
                    /\ In c (extractBlock doc block).
Proof.
  rewrite extractCards_flat_map, in_flat_map. split.
  - intros (doc & Hd & Hc). apply in_flat_map in Hc as (block & Hb & Hc). eauto.
  - intros (doc & block & Hd & Hb & Hc). exists doc. split; [assumption|].
    apply in_flat_map. eauto.
Qed.

Lemma forEachRow_flat_map (blocks rest : list Block.t) (index : nat) (rows : list TableRow.t) :
  CardTable.forEachRow blocks index rest rows
  = rows ++ flat_map (fun ib => CardTable.tableRows blocks (fst ib) (snd ib))
                     (combine (seq index (List.length rest)) rest).
Proof.
  revert index rows. induction rest as [|b rest IH]; intros index rows; simpl.
  - now rewrite app_nil_r.
  - now rewrite IH, app_assoc.
Qed.

Lemma In_tableData (blocks : list Block.t) (r : TableRow.t) :
  In r (CardTable.tableData blocks) ->
  exists index block, nth_error blocks index = Some block
                      /\ In r (CardTable.tableRows blocks index block).
Proof.
  unfold CardTable.tableData. rewrite forEachRow_flat_map. cbn [app].
  intros H. apply in_flat_map in H as ([i b] & Hin & Hr). cbn [fst snd] in Hr.
  exists i, b. split; [|assumption].
  clear Hr.
  assert (G : forall (bs : list Block.t) k, In (i, b) (combine (seq k (List.length bs)) bs) ->
              k <= i /\ nth_error bs (i - k) = Some b).
  { clear Hin. induction bs as [|x bs IH]; intros k Hin; [contradiction|].
    cbn [List.length seq combine] in Hin. destruct Hin as [[= <- <-] | Hin].
    - rewrite Nat.sub_diag. auto.
    - apply IH in Hin as [Hle Hn]. split; [lia|].
      replace (i - k) with (S (i - S k)) by lia. exact Hn. }
  apply G in Hin as [_ Hn]. now rewrite Nat.sub_0_r in Hn.
Qed.

(** The ids [extractBlock] gives its cards. *)
Lemma extractBlock_ids (doc : Document.t) (block : Block.t) (c : Flashcard.t) :
  In c (extractBlock doc block) ->
  Flashcard.id c = Block.id block ++ lit "_fwd"
  \/ Flashcard.id c = Block.id block ++ lit "_cloze".
Proof.
  unfold extractBlock.
  destruct (orFalse _); [contradiction|].
  destruct (includes (lit "::") _).
  - destruct (split _ _) as [|p0 [|p1 ?]]; try contradiction.
    intros [<-|[]]. now left.
  - destruct (includes (lit ";;") _).
    + destruct (split _ _) as [|p0 [|p1 ?]]; try contradiction.
      intros [<-|[]]. now left.
    + destruct (cloze_test _); [|contradiction].
      intros [<-|[]]. now right.
Qed.

(** The ids [tableRows] gives its rows. *)
Lemma tableRows_ids (blocks : list Block.t) (index : nat) (block : Block.t) (r : TableRow.t) :
  In r (CardTable.tableRows blocks index block) ->
  TableRow.id r = Block.id block ++ lit "-fwd"
  \/ TableRow.id r = Block.id block ++ lit "-bwd"
  \/ TableRow.id r = Block.id block ++ lit "-cloze".
Proof.
  unfold CardTable.tableRows.
  destruct (includes (lit "::") _).
  - destruct (nth_error _ 0); [|contradiction].
    destruct (nth_error _ 1); [|contradiction].
    destruct (_ && _); [|contradiction].
    intros [<-|[<-|[]]]; auto.
  - destruct (includes (lit ";;") _).
    + destruct (nth_error _ 0); [|contradiction].
      destruct (nth_error _ 1); [|contradiction].
      destruct (_ && _); [|contradiction].
      intros [<-|[]]; auto.
    + destruct (cloze_test _); [|contradiction].
      intros [<-|[]]; auto.
Qed.

Lemma study_id_not_table_id (x y : str) :
  forall s t, In s [lit "_fwd"; lit "_cloze"] ->
              In t [lit "-fwd"; lit "-bwd"; lit "-cloze"] ->
              x ++ s <> y ++ t.
Proof.
  intros s t Hs Ht.
  repeat (destruct Hs as [<-|Hs]; [|try contradiction]);
  repeat (destruct Ht as [<-|Ht]; [|try contradiction]);
  differ_at_end.
Qed.

Section Delimited.

Variables (doc : Document.t) (block : Block.t) (a rest b : str).

Lemma cut_includes (d : str) :
  Spec.cutAtFirst d (Block.content block) a rest ->
  includes d (Block.content block) = true.
Proof. intros [_ H]. apply includes_indexOf. eauto. Qed.

(** The study extractor on a block with [::]: one card of type [forward]
    from the first two pieces, unless the block is disabled. *)
Lemma extractBlock_two_way :
  Spec.cutAtFirst (lit "::") (Block.content block) a rest ->
  Spec.pieceUpTo (lit "::") rest b ->
  extractBlock doc block
  = if orFalse (SrsData.disabled (srsOrDefault block)) then []
    else [baseCard doc block (srsOrDefault block) (Block.id block ++ lit "_fwd")
            (trim a) (trim b) forward].
Proof.
  intros Ha Hb. unfold extractBlock.
  destruct (split_two_pieces (@lit_cons_nonempty _ _) Ha Hb) as [more Hs].
  now rewrite (cut_includes _ Ha), Hs.
Qed.

(** The study extractor on a block with [;;] and no [::]. *)
Lemma extractBlock_one_way :
  includes (lit "::") (Block.content block) = false ->
  Spec.cutAtFirst (lit ";;") (Block.content block) a rest ->
  Spec.pieceUpTo (lit ";;") rest b ->
  extractBlock doc block
  = if orFalse (SrsData.disabled (srsOrDefault block)) then []
    else [baseCard doc block (srsOrDefault block) (Block.id block ++ lit "_fwd")
            (trim a) (trim b) forward].
Proof.
  intros Hn Ha Hb. unfold extractBlock.
  destruct (split_two_pieces (@lit_cons_nonempty _ _) Ha Hb) as [more Hs].
  now rewrite Hn, (cut_includes _ Ha), Hs.
Qed.

Variables (blocks : list Block.t) (index : nat).

(** The card table on a block with [::]: the forward and the backward
    row, both [bidirectional], when both sides are non-empty; no row
    otherwise. *)
Lemma tableRows_two_way :
  Spec.cutAtFirst (lit "::") (Block.content block) a rest ->
  Spec.pieceUpTo (lit "::") rest b ->
  map Spec.face (CardTable.tableRows blocks index block)
  = if truthy (trim a) && truthy (trim b)
    then [ (Block.id block ++ lit "-fwd", trim a, trim b, bidirectional);
           (Block.id block ++ lit "-bwd", trim b, trim a, bidirectional) ]
    else [].
Proof.
  intros Ha Hb. unfold CardTable.tableRows.
  destruct (split_two_pieces (@lit_cons_nonempty _ _) Ha Hb) as [more Hs].
  rewrite (cut_includes _ Ha), Hs. cbn [map nth_error].
  now destruct (truthy (trim a) && truthy (trim b)).
Qed.

(** The card table on a block with [;;] and no [::]. *)
Lemma tableRows_one_way :
  includes (lit "::") (Block.content block) = false ->
  Spec.cutAtFirst (lit ";;") (Block.content block) a rest ->
  Spec.pieceUpTo (lit ";;") rest b ->
  map Spec.face (CardTable.tableRows blocks index block)
  = if truthy (trim a) && truthy (trim b)
    then [ (Block.id block ++ lit "-fwd", trim a, trim b, forward) ]
    else [].
Proof.
  intros Hn Ha Hb. unfold CardTable.tableRows.
  destruct (split_two_pieces (@lit_cons_nonempty _ _) Ha Hb) as [more Hs].
  rewrite Hn, (cut_includes _ Ha), Hs. cbn [map nth_error].
  now destruct (truthy (trim a) && truthy (trim b)).
Qed.

(** Every row of a block shows that block's record. *)
Lemma tableRows_view (r : TableRow.t) :
  In r (CardTable.tableRows blocks index block) ->
  TableRow.blockId r = Block.id block
  /\ TableRow.lapses r
     = or0 (match Block.srsData block with Some srs => SrsData.lapses srs | None => None end)
  /\ TableRow.disabled r
     = orFalse (match Block.srsData block with Some srs => SrsData.disabled srs | None => None end)
  /\ TableRow.repetitions r
     = match Block.srsData block with Some srs => SrsData.repetitions srs | None => 0%N end.
Proof.
  unfold CardTable.tableRows.
  destruct (includes (lit "::") _).
  - destruct (nth_error _ 0); [|contradiction].
    destruct (nth_error _ 1); [|contradiction].
    destruct (_ && _); [|contradiction].
    intros [<-|[<-|[]]]; auto.
  - destruct (includes (lit ";;") _).
    + destruct (nth_error _ 0); [|contradiction].
      destruct (nth_error _ 1); [|contradiction].
      destruct (_ && _); [|contradiction].
      intros [<-|[]]; auto.
    + destruct (cloze_test _); [|contradiction].
      intros [<-|[]]; auto.
Qed.

(** In the card table a delimiter with an empty side gives no row. *)
Lemma tableRows_empty_side (d : str) :
  (d = lit "::" \/ d = lit ";;" /\ includes (lit "::") (Block.content block) = false) ->
  Spec.cutAtFirst d (Block.content block) a rest ->
  Spec.pieceUpTo d rest b ->
  trim a = [] \/ trim b = [] ->
  CardTable.tableRows blocks index block = [].
Proof.
  intros Hd Ha Hb He.
  assert (Ht : truthy (trim a) && truthy (trim b) = false).
  { destruct He as [-> | ->]; [reflexivity|]. apply andb_false_r. }
  destruct Hd as [-> | [-> Hn]].
  - pose proof (tableRows_two_way Ha Hb) as H. rewrite Ht in H.
    now destruct (CardTable.tableRows blocks index block).
  - pose proof (tableRows_one_way Hn Ha Hb) as H. rewrite Ht in H.
    now destruct (CardTable.tableRows blocks index block).
Qed.

End Delimited.

Lemma str_eqb_eq (x y : str) : str_eqb x y = true <-> x = y.
Proof. unfold str_eqb. destruct (list_eq_dec N.eq_dec x y); split; congruence. Qed.

Lemma str_eqb_neq (x y : str) : str_eqb x y = false <-> x <> y.
Proof. unfold str_eqb. destruct (list_eq_dec N.eq_dec x y); split; congruence. Qed.

Lemma filter_none {A : Type} (f : A -> bool) (l : list A) :
  (forall x, In x l -> f x = false) -> filter f l = [].
Proof.
  induction l as [|x l IH]; intros H; simpl; [reflexivity|].
  rewrite (H x (or_introl eq_refl)). apply IH. intros y Hy. apply H. now right.
Qed.

(** No card of the study extractor has the id of a row of the card table. *)
Lemma study_ids_apart (docs : list Document.t) (blocks : list Block.t)
    (c : Flashcard.t) (r : TableRow.t) :
  In c (extractCards docs) -> In r (CardTable.tableData blocks) ->
  Flashcard.id c <> TableRow.id r.
Proof.
  intros Hc Hr.
  apply In_extractCards in Hc as (doc & block & _ & _ & Hc).
  apply In_tableData in Hr as (index & block' & _ & Hr).
  apply extractBlock_ids in Hc. apply tableRows_ids in Hr.
  destruct Hc as [-> | ->]; destruct Hr as [-> | [-> | ->]];
    apply study_id_not_table_id; simpl; auto.
Qed.

(** The ids of the practice button are ids of rows of the table. *)
Lemma practice_ids_from_table (toLowerCase : str -> str) (tableData : list TableRow.t)
    (searchTerm : str) (activeTab : CardTable.TabType) (settings : AppSettings.t) :
  incl (CardTable.handlePracticeFiltered toLowerCase tableData searchTerm activeTab settings)
       (map TableRow.id tableData).
Proof.
  unfold CardTable.handlePracticeFiltered, CardTable.getFilteredData. intros i Hi.
  apply in_map_iff in Hi as (r & <- & Hr). apply in_map.
  assert (Ht : In r (CardTable.textFilter toLowerCase searchTerm tableData)).
  { destruct activeTab; cbn [CardTable.tabFilter] in Hr;
      try (apply filter_In in Hr as [Hr _]); exact Hr. }
  unfold CardTable.textFilter in Ht.
  destruct (truthy searchTerm); [now apply filter_In in Ht|exact Ht].
Qed.

(** The two derivations on the welcome document. Its two-way block gives
    two [bidirectional] rows in the card table and one [forward] card in
    the study extractor; the delimiters quoted in the texts count as
    delimiters. *)
Lemma welcome_document_cards (created : Z) :
  map Spec.face (CardTable.tableData (flat_map Document.blocks (initialDocs created)))
  = [ (lit "b3-fwd", lit "Type '", lit "' for a forward card", forward);
      (lit "b4-fwd", lit "Type '", lit "' for a two-way card", bidirectional);
      (lit "b4-bwd", lit "' for a two-way card", lit "Type '", bidirectional);
      (lit "b5-cloze", lit "Use {curly braces} to create a cloze deletion card.",
       lit "...", cloze) ]
  /\ map (fun c => (Flashcard.id c, Flashcard.front c, Flashcard.back c,
                    Flashcard.cardType c))
         (extractCards (initialDocs created))
     = [ (lit "b3_fwd", lit "Type '", lit "' for a forward card", forward);
         (lit "b4_fwd", lit "Type '", lit "' for a two-way card", forward);
         (lit "b5_cloze", lit "Use {curly braces} to create a cloze deletion card.",
          lit "Use {curly braces} to create a cloze deletion card.", cloze) ].
Proof. split; reflexivity. Qed.

(* ================================================================== *)
(** * Claims on card derivation *)
(* ================================================================== *)

(** C1. The two-way block [front :: back], enabled: the card table derives
    the forward and the backward row, both of type [bidirectional], but
    [extractCards] derives one card only, of type [forward]; the pair the
    claim requires of every derivation context is not what the study
    extractor emits. *)
Theorem two_way_block_one_forward_study_card :
  map Spec.face (CardTable.tableData [Sample.twoWay])
  = [ (lit "b4-fwd", lit "front", lit "back", bidirectional);
      (lit "b4-bwd", lit "back", lit "front", bidirectional) ]
  /\ map (fun c => (Flashcard.id c, Flashcard.front c, Flashcard.back c,
                    Flashcard.cardType c))
         (extractCards [Sample.twoWayDoc])
     = [ (lit "b4_fwd", lit "front", lit "back", forward) ].
Proof. split; reflexivity. Qed.

(** C4. The blocks [front ::] and [ ;; back], each with one side empty
    after trimming: the card table derives no row for them, but
    [extractCards] emits a card for each, with an empty back and an empty
    front. *)
Theorem empty_side_block_still_study_card :
  CardTable.tableData [Sample.noBack; Sample.noFront] = []
  /\ map (fun c => (Flashcard.id c, Flashcard.front c, Flashcard.back c))
         (extractCards [Sample.emptySideDoc])
     = [ (lit "b5_fwd", lit "front", lit ""); (lit "b6_fwd", lit "", lit "back") ].
Proof. split; reflexivity. Qed.

(** C5. The ids of the card table and the ids of the study extractor are
    disjoint, so a non-empty list of ids taken from the card table, given
    as [specificCardIds], leaves no extracted card: the selection is empty
    and [handleStartStudy] ends in its alert. *)
Theorem table_ids_select_no_study_card
    (docs : list Document.t) (blocks : list Block.t) (ids : list str) :
  ids <> [] ->
  incl ids (map TableRow.id (CardTable.tableData blocks)) ->
  (forall c r, In c (extractCards docs) -> In r (CardTable.tableData blocks) ->
               Flashcard.id c <> TableRow.id r)
  /\ selectCards docs (Some ids) = []
  /\ forall rand documents activeDocId mode,
       docs = docsToStudy mode documents activeDocId ->
       handleStartStudy rand documents activeDocId mode (Some ids) = None.
Proof.
  intros Hne Hincl.
  assert (Hsel : selectCards docs (Some ids) = []).
  { unfold selectCards. destruct ids as [|i ids']; [contradiction|].
    cbn [List.length Nat.ltb Nat.leb]. apply filter_none. intros c Hc.
    destruct (existsb _ _) eqn:E; [|reflexivity].
    apply existsb_exists in E as (x & Hx & E). apply str_eqb_eq in E.
    apply Hincl, in_map_iff in Hx as (r & <- & Hr).
    now destruct (study_ids_apart docs blocks c r Hc Hr). }
  split; [intros c r; apply study_ids_apart|].
  split; [exact Hsel|].
  intros rand documents activeDocId mode Hd. unfold handleStartStudy.
  now rewrite <- Hd, Hsel.
Qed.

Lemma table_ids_select_no_study_card_witness :
  CardTable.handlePracticeFiltered (fun t => t) (CardTable.tableData [Sample.twoWay])
    (lit "") CardTable.enabled Sample.settings
  = [lit "b4-fwd"; lit "b4-bwd"]
  /\ map Flashcard.id (extractCards [Sample.twoWayDoc]) = [lit "b4_fwd"]
  /\ selectCards [Sample.twoWayDoc] (Some [lit "b4-fwd"; lit "b4-bwd"]) = []
  /\ handleStartStudy (fun _ => 0) [Sample.twoWayDoc] (Some (lit "d")) spaced
       (Some [lit "b4-fwd"; lit "b4-bwd"]) = None.
Proof.
  assert (Hne : [lit "b4-fwd"; lit "b4-bwd"] <> []) by discriminate.
  assert (Hin : incl [lit "b4-fwd"; lit "b4-bwd"]
                     (map TableRow.id (CardTable.tableData [Sample.twoWay])))
    by exact (practice_ids_from_table (fun t => t) (CardTable.tableData [Sample.twoWay])
                (lit "") CardTable.enabled Sample.settings).
  destruct (table_ids_select_no_study_card [Sample.twoWayDoc] [Sample.twoWay] _ Hne Hin)
    as (_ & Hsel & Hstart).
  split; [reflexivity|]. split; [reflexivity|]. split; [exact Hsel|].
  apply Hstart. reflexivity.
Defined.



(* ================================================================== *)
(** * Classification *)
(* ================================================================== *)

Section Buckets.

Import CardTable.

Variable leechThreshold : Z.

Lemma leech_struggling_apart (r : TableRow.t) :
  isLeech leechThreshold r && isStruggling leechThreshold r = false.
Proof.
  unfold isLeech, isStruggling.
  destruct (Z.leb_spec leechThreshold (Z.of_N (TableRow.lapses r)));
  destruct (Z.ltb_spec (Z.of_N (TableRow.lapses r)) leechThreshold);
  destruct (0 <? TableRow.lapses r)%N, (TableRow.disabled r); simpl; try reflexivity; lia.
Qed.

Lemma enabled_three_ways (r : TableRow.t) :
  isEnabled r
  = isLeech leechThreshold r || (isStruggling leechThreshold r || Spec.isFresh r).
Proof.
  unfold isLeech, isStruggling, Spec.isFresh, isEnabled.
  destruct (Z.leb_spec leechThreshold (Z.of_N (TableRow.lapses r)));
  destruct (Z.ltb_spec (Z.of_N (TableRow.lapses r)) leechThreshold);
  destruct (N.ltb_spec 0 (TableRow.lapses r));
  destruct (N.eqb_spec (TableRow.lapses r) 0);
  destruct (TableRow.disabled r); simpl; try reflexivity; lia.
Qed.

Lemma fresh_apart (r : TableRow.t) :
  (0 < leechThreshold)%Z ->
  isLeech leechThreshold r && (isStruggling leechThreshold r || Spec.isFresh r) = false.
Proof.
  unfold isLeech, isStruggling, Spec.isFresh, isEnabled. intros Hpos.
  destruct (Z.leb_spec leechThreshold (Z.of_N (TableRow.lapses r)));
  destruct (Z.ltb_spec (Z.of_N (TableRow.lapses r)) leechThreshold);
  destruct (N.ltb_spec 0 (TableRow.lapses r));
  destruct (N.eqb_spec (TableRow.lapses r) 0);
  destruct (TableRow.disabled r); simpl; try reflexivity; lia.
Qed.

Lemma struggling_fresh_apart (r : TableRow.t) :
  isStruggling leechThreshold r && Spec.isFresh r = false.
Proof.
  unfold isStruggling, Spec.isFresh, isEnabled.
  destruct (Z.ltb_spec (Z.of_N (TableRow.lapses r)) leechThreshold);
  destruct (N.ltb_spec 0 (TableRow.lapses r));
  destruct (N.eqb_spec (TableRow.lapses r) 0);
  destruct (TableRow.disabled r); simpl; try reflexivity; lia.
Qed.

Lemma length_filter_sum {A : Type} (f g h : A -> bool) (l : list A) :
  (forall x, f x = g x || h x) -> (forall x, g x && h x = false) ->
  List.length (filter f l) = List.length (filter g l) + List.length (filter h l).
Proof.
  intros Hf Hgh. induction l as [|x l IH]; [reflexivity|].
  simpl. rewrite Hf. specialize (Hgh x).
  destruct (g x), (h x); simpl in *; try discriminate; lia.
Qed.

(** C8. For a card set [data] and a threshold: no card is both leech and
    struggling; the enabled cards are the leech cards, the struggling
    cards and the enabled cards without lapses together; no card is both
    enabled and disabled; every card is enabled or disabled. The
    number of cards is the number of enabled plus the number of disabled
    cards, and for a positive threshold the three kinds of enabled cards
    count up to the enabled ones. *)
Theorem buckets_partition (data : list TableRow.t) :
  (forall r, In r (tabFilter leech leechThreshold data) ->
             ~ In r (tabFilter struggling leechThreshold data))
  /\ (forall r, In r (tabFilter enabled leechThreshold data) <->
                In r (tabFilter leech leechThreshold data)
                \/ In r (tabFilter struggling leechThreshold data)
                \/ (In r (tabFilter enabled leechThreshold data)
                    /\ TableRow.lapses r = 0%N))
  /\ (forall r, In r (tabFilter enabled leechThreshold data) ->
                ~ In r (tabFilter disabled leechThreshold data))
  /\ (forall r, In r (tabFilter all leechThreshold data) <->
                In r (tabFilter enabled leechThreshold data)
                \/ In r (tabFilter disabled leechThreshold data))
  /\ Counts.all (counts data leechThreshold)
     = Counts.enabled (counts data leechThreshold)
       + Counts.disabled (counts data leechThreshold)
  /\ ((0 < leechThreshold)%Z ->
      Counts.enabled (counts data leechThreshold)
      = Counts.leech (counts data leechThreshold)
        + Counts.struggling (counts data leechThreshold)
        + List.length (filter Spec.isFresh data)).
Proof.
  cbn [tabFilter counts Counts.enabled Counts.leech Counts.struggling Counts.all
       Counts.disabled].
  repeat split.
  - intros r H1 H2. apply filter_In in H1 as [_ H1]. apply filter_In in H2 as [_ H2].
    pose proof (leech_struggling_apart r) as H. rewrite H1, H2 in H. discriminate.
  - intros H. apply filter_In in H as [Hin He].
    rewrite !filter_In. rewrite enabled_three_ways in He.
    apply orb_true_iff in He as [He|He]; [now left|].
    apply orb_true_iff in He as [He|He]; [now (right; left)|].
    right; right. unfold Spec.isFresh in He. apply andb_true_iff in He as [He Hz].
    apply N.eqb_eq in Hz. auto.
  - intros [H|[H|[H _]]]; [| |exact H]; apply filter_In in H as [Hin H];
      apply filter_In; (split; [assumption|]); rewrite enabled_three_ways, H;
      [reflexivity|apply orb_true_r].
  - intros r H1 H2. apply filter_In in H1 as [_ H1]. apply filter_In in H2 as [_ H2].
    unfold isEnabled, isDisabled in *. rewrite H2 in H1. discriminate.
  - intros H. rewrite !filter_In. unfold isEnabled, isDisabled.
    destruct (TableRow.disabled r); auto.
  - intros [H|H]; now apply filter_In in H.
  - assert (H : forall l : list TableRow.t,
              List.length l = List.length (filter isEnabled l)
                              + List.length (filter isDisabled l)).
    { induction l as [|x l IH]; [reflexivity|]. simpl.
      unfold isEnabled at 1, isDisabled at 1.
      destruct (TableRow.disabled x); simpl; lia. }
    apply H.
  - intros Hpos. rewrite <- Nat.add_assoc.
    rewrite (length_filter_sum (isEnabled) (isLeech leechThreshold)
               (fun r => isStruggling leechThreshold r || Spec.isFresh r));
      [|apply enabled_three_ways|intros x; now apply fresh_apart].
    f_equal. apply length_filter_sum; [reflexivity|apply struggling_fresh_apart].
Qed.

End Buckets.

Lemma buckets_partition_witness :
  (0 < 5)%Z
  /\ CardTable.counts Sample.rows 5 = CardTable.Counts.mk 1 1 1 0 3 4
  /\ CardTable.Counts.all (CardTable.counts Sample.rows 5)
     = CardTable.Counts.enabled (CardTable.counts Sample.rows 5)
       + CardTable.Counts.disabled (CardTable.counts Sample.rows 5)
  /\ CardTable.Counts.enabled (CardTable.counts Sample.rows 5)
     = CardTable.Counts.leech (CardTable.counts Sample.rows 5)
       + CardTable.Counts.struggling (CardTable.counts Sample.rows 5)
       + List.length (filter Spec.isFresh Sample.rows).
Proof.
  assert (Hpos : (0 < 5)%Z) by reflexivity.
  destruct (buckets_partition 5 Sample.rows) as (_ & _ & _ & _ & Hall & Hthree).
  split; [exact Hpos|]. split; [reflexivity|]. split; [exact Hall|exact (Hthree Hpos)].
Defined.

(* ================================================================== *)
(** * Ancestor resolution *)
(* ================================================================== *)

Section Ancestry.

Variable blocks : list Block.t.

Lemma firstn_succ_nth {A : Type} (l : list A) (j : nat) (x : A) :
  nth_error l j = Some x -> firstn (S j) l = firstn j l ++ [x].
Proof.
  revert j. induction l as [|y l IH]; intros [|j] H; try discriminate.
  - injection H as ->. reflexivity.
  - cbn [nth_error] in H. cbn [firstn app]. now rewrite <- (IH j H).
Qed.

Lemma in_range_defined (j : nat) :
  j < List.length blocks -> exists b, nth_error blocks j = Some b.
Proof.
  intros H. destruct (nth_error blocks j) as [b|] eqn:E; [eauto|].
  apply nth_error_None in E. lia.
Qed.

Lemma scan_stopped (l : list Block.t) (st : Spec.Scan) :
  Spec.stopped st = true -> fold_left Spec.scanStep l st = st.
Proof.
  intros H. induction l as [|b l IH]; [reflexivity|].
  cbn [fold_left]. unfold Spec.scanStep at 2. rewrite H. exact IH.
Qed.

(** The loop of the card table is the scan the specification words. *)
Lemma lookBack_scan (i : nat) (lvl : N) (acc : list str) :
  i <= List.length blocks ->
  CardTable.lookBack blocks i lvl acc
  = Spec.path (fold_left Spec.scanStep (rev (firstn i blocks)) (Spec.mkScan lvl acc false)).
Proof.
  revert lvl acc. induction i as [|j IH]; intros lvl acc Hle; [reflexivity|].
  destruct (in_range_defined j) as [b Hb]; [lia|].
  cbn [CardTable.lookBack]. rewrite Hb, (firstn_succ_nth _ _ _ Hb), rev_unit.
  cbn [fold_left]. unfold Spec.scanStep at 2. cbn [Spec.stopped Spec.tracked Spec.path].
  destruct (Block.level b <? lvl)%N.
  - destruct (Block.level b =? 0)%N.
    + now rewrite scan_stopped.
    + apply IH. lia.
  - apply IH. lia.
Qed.

Lemma parentIndex_level_zero (i : nat) : Spec.parentIndex blocks i 0 = None.
Proof.
  induction i as [|j IH]; [reflexivity|]. cbn [Spec.parentIndex].
  destruct (nth_error blocks j) as [b|]; [|exact IH].
  destruct (N.ltb_spec (Block.level b) 0); [lia|exact IH].
Qed.

Lemma ancestorChain_level_zero (fuel i : nat) : Spec.ancestorChain fuel blocks i 0 = [].
Proof. destruct fuel; [reflexivity|]. cbn. now rewrite parentIndex_level_zero. Qed.

(** The loop of the card table follows the parents, root first. *)
Lemma lookBack_chain (i : nat) :
  forall (lvl : N) (acc : list str) (fuel : nat),
    i <= fuel -> i <= List.length blocks ->
    CardTable.lookBack blocks i lvl acc = Spec.ancestorChain fuel blocks i lvl ++ acc.
Proof.
  induction i as [|j IH]; intros lvl acc fuel Hf Hle.
  - destruct fuel; reflexivity.
  - destruct fuel as [|fuel]; [lia|].
    destruct (in_range_defined j) as [b Hb]; [lia|].
    cbn [CardTable.lookBack Spec.ancestorChain Spec.parentIndex]. rewrite Hb.
    destruct (Block.level b <? lvl)%N eqn:Hlt.
    + rewrite Hb. destruct (N.eqb_spec (Block.level b) 0) as [Hz|Hz].
      * rewrite Hz, ancestorChain_level_zero. reflexivity.
      * rewrite (IH _ _ fuel) by lia. now rewrite <- app_assoc.
    + rewrite (IH lvl acc (S fuel)) by lia. reflexivity.
Qed.

(** The loop of [getContextPath] gives the trimmed texts of the same
    blocks. *)
Lemma lookBackTrim_map (i : nat) (lvl : N) (acc : list str) :
  StudySession.lookBackTrim blocks i lvl (map trim acc)
  = map trim (CardTable.lookBack blocks i lvl acc).
Proof.
  revert lvl acc. induction i as [|j IH]; intros lvl acc; [reflexivity|].
  cbn [StudySession.lookBackTrim CardTable.lookBack].
  destruct (nth_error blocks j) as [b|]; [|reflexivity].
  destruct (Block.level b <? lvl)%N; [|apply IH].
  destruct (Block.level b =? 0)%N; [reflexivity|].
  apply (IH (Block.level b) (Block.content b :: acc)).
Qed.

End Ancestry.

(** C9. For the block at [index], the ancestors computed by the card table
    are the result of the scan of the specification (indices [index-1] to
    0, prepending each block whose level is strictly below the tracked
    level, which it becomes, and stopping at level 0); they are the chain
    of parents, root first, each parent being the nearest earlier block of
    smaller level, so that skipped levels do no harm; the loop of
    [getContextPath] gives the same blocks, trimmed. For blocks with the
    levels 0,1,1,2,0,1 the ancestors of index 2 are the text of block 0,
    and the ancestors of index 3 are the texts of blocks 0 and 2. *)
Theorem ancestors_root_first (blocks : list Block.t) (index : nat) (block : Block.t) :
  nth_error blocks index = Some block ->
  CardTable.ancestorsOf blocks index block = Spec.ancestorsScan blocks index block
  /\ CardTable.ancestorsOf blocks index block = Spec.ancestorPath blocks index block
  /\ StudySession.lookBackTrim blocks index (Block.level block) []
     = map trim (CardTable.ancestorsOf blocks index block)
  /\ (forall b0 b1 b2 b3 b4 b5,
        map Block.level [b0; b1; b2; b3; b4; b5] = [0; 1; 1; 2; 0; 1]%N ->
        CardTable.ancestorsOf [b0; b1; b2; b3; b4; b5] 2 b2 = [Block.content b0]
        /\ CardTable.ancestorsOf [b0; b1; b2; b3; b4; b5] 3 b3
           = [Block.content b0; Block.content b2]).
Proof.
  intros Hn.
  assert (Hle : index <= List.length blocks).
  { apply Nat.lt_le_incl, nth_error_Some. congruence. }
  unfold CardTable.ancestorsOf, Spec.ancestorsScan, Spec.ancestorPath.
  split; [now apply lookBack_scan|].
  split; [rewrite (lookBack_chain blocks index _ [] index); auto using app_nil_r|].
  split; [apply (lookBackTrim_map blocks index _ [])|].
  intros b0 b1 b2 b3 b4 b5 [= H0 H1 H2 H3 H4 H5].
  cbn [CardTable.lookBack nth_error]. rewrite H0, H1, H2, H3. split; reflexivity.
Qed.

Lemma ancestors_root_first_witness :
  nth_error Sample.outline 3 = Some (Sample.block "o3" "t3" 2)
  /\ CardTable.ancestorsOf Sample.outline 3 (Sample.block "o3" "t3" 2) = [lit "t0"; lit "t2"]
  /\ Spec.ancestorPath Sample.outline 3 (Sample.block "o3" "t3" 2) = [lit "t0"; lit "t2"]
  /\ Spec.ancestorsScan Sample.outline 3 (Sample.block "o3" "t3" 2) = [lit "t0"; lit "t2"]
  /\ CardTable.ancestorsOf Sample.outline 2 (Sample.block "o2" "t2" 1) = [lit "t0"].
Proof.
  assert (Hn : nth_error Sample.outline 3 = Some (Sample.block "o3" "t3" 2)) by reflexivity.
  destruct (ancestors_root_first Sample.outline 3 _ Hn) as (Hscan & Hpath & _ & Hex).
  split; [exact Hn|]. split; [reflexivity|].
  split; [rewrite <- Hpath; reflexivity|].
  split; [rewrite <- Hscan; reflexivity|].
  exact (proj1 (Hex (Sample.block "o0" "t0" 0) (Sample.block "o1" "t1" 1)
                    (Sample.block "o2" "t2" 1) (Sample.block "o3" "t3" 2)
                    (Sample.block "o4" "t4" 0) (Sample.block "o5" "t5" 1) eq_refl)).
Defined.

(* ================================================================== *)
(** * Rating a card *)
(* ================================================================== *)

Lemma Forall2_map_fun {A : Type} (R : A -> A -> Prop) (f : A -> A) (l : list A) :
  (forall x, In x l -> R x (f x)) -> Forall2 R l (map f l).
Proof.
  induction l as [|x l IH]; intros H; simpl; constructor.
  - apply H. now left.
  - apply IH. intros y Hy. apply H. now right.
Qed.

Lemma rateSrs_rated (now : Z) (rating : Rating) (b : Block.t) :
  Spec.ratedBlock now rating b (Block.with_srsData b (rateSrs now rating b)).
Proof.
  unfold Spec.ratedBlock. repeat (split; [reflexivity|]).
  exists (rateSrs now rating b). split; [reflexivity|].
  unfold rateSrs. destruct (isFail rating); cbn; auto 10.
Qed.

(** C7. After a rating at time [now], every document with another id is
    the same, and in the rated card's document every block with another
    id is the same; the rated block keeps its own fields and, of its
    record, [nextReview], [interval], [easeFactor] and [disabled]; a fail
    rating adds 1 to [lapses] and sets [repetitions] to 0, any other rating
    adds 1 to [repetitions] and keeps [lapses]; and [lastReview] is set to
    [now]. *)
Theorem rating_changes_counters_and_lastReview
    (now : Z) (card : Flashcard.t) (rating : Rating) (docs : list Document.t) :
  Forall2 (Spec.docAfterRating now card rating) docs
          (handleUpdateCardProgress now card rating docs).
Proof.
  unfold handleUpdateCardProgress. apply Forall2_map_fun. intros doc _.
  unfold Spec.docAfterRating.
  destruct (str_eqb (Document.id doc) (Flashcard.docId card)) eqn:Ed; cbn [negb].
  - apply str_eqb_eq in Ed. split; [intros H; contradiction|]. intros _.
    repeat (split; [reflexivity|]). cbn [Document.with_blocks Document.blocks].
    apply Forall2_map_fun. intros b _. unfold Spec.blockAfterRating.
    destruct (str_eqb (Block.id b) (Flashcard.blockId card)) eqn:Eb; cbn [negb].
    + apply str_eqb_eq in Eb. split; [intros H; contradiction|].
      intros _. apply rateSrs_rated.
    + apply str_eqb_neq in Eb. split; [reflexivity|]. intros H. contradiction.
  - apply str_eqb_neq in Ed. split; [reflexivity|]. intros H. contradiction.
Qed.

Lemma rating_changes_counters_and_lastReview_witness :
  Forall2 (Spec.docAfterRating 5000 Sample.cardA (study AGAIN)) [Sample.deck]
          (handleUpdateCardProgress 5000 Sample.cardA (study AGAIN) [Sample.deck])
  /\ map (fun b => option_map (fun s => (SrsData.repetitions s, SrsData.lapses s,
                                         SrsData.lastReview s)) (Block.srsData b))
         (flat_map Document.blocks
            (handleUpdateCardProgress 5000 Sample.cardA (study AGAIN) [Sample.deck]))
     = [Some (0%N, Some 1%N, Some 5000%Z); None; None].
Proof.
  split.
  - exact (rating_changes_counters_and_lastReview 5000 Sample.cardA (study AGAIN)
             [Sample.deck]).
  - reflexivity.
Defined.

(** C7, as stated, fails: rating the first card of the sample deck at time
    5000 changes, besides the counters, the field [lastReview] of the
    block's record, from absent to 5000. *)
Lemma rating_changes_more_than_counters :
  exists b b',
    nth_error (Document.blocks Sample.deck) 0 = Some b
    /\ nth_error (flat_map Document.blocks
                    (handleUpdateCardProgress 5000 Sample.cardA (study GOOD) [Sample.deck]))
                 0 = Some b'
    /\ SrsData.lastReview (srsOrDefault b) = None
    /\ SrsData.lastReview (srsOrDefault b') = Some 5000%Z
    /\ ~ Spec.onlyCountersChange b b'.
Proof.
  eexists. eexists. split; [reflexivity|]. split; [reflexivity|].
  split; [reflexivity|]. split; [reflexivity|].
  intros (_ & _ & _ & _ & H). discriminate H.
Qed.

(* ================================================================== *)
(** * The session queue *)
(* ================================================================== *)

Section RatingModes.

Import StudySession.

Lemma setIsFlipped_same (s : t) : setIsFlipped (isFlipped s) s = s.
Proof. now destruct s. Qed.

Lemma autoPlayEffect_rating_mode (s : t) :
  isFlashcards s = false -> autoPlayRef s = None -> autoPlayEffect s = s.
Proof.
  unfold autoPlayEffect, isFlashcards. intros Hm ->. rewrite Hm.
  now rewrite andb_false_r.
Qed.

(** In the rating modes the effects only move the ref and may turn the
    card face up. *)
Lemma commit_rating_mode (prev next : t) :
  isFlashcards next = false -> autoPlayRef next = None ->
  exists b, commit prev next
            = setIsFlipped b (setCurrentIndexRef (currentIndex next) next).
Proof.
  intros Hm Ha. unfold commit.
  set (n1 := setCurrentIndexRef (currentIndex next) next).
  assert (Hm1 : forall b, isFlashcards (setIsFlipped b n1) = false) by (intros; exact Hm).
  assert (Ha1 : forall b, autoPlayRef (setIsFlipped b n1) = None) by (intros; exact Ha).
  destruct (negb (currentIndex prev =? currentIndex n1) || negb (queue_eqb (queue prev) (queue n1))).
  - exists false. destruct (_ || _); [|reflexivity].
    now apply autoPlayEffect_rating_mode.
  - exists (isFlipped n1). rewrite setIsFlipped_same.
    destruct (_ || _); [|reflexivity].
    apply autoPlayEffect_rating_mode; [exact (Hm1 false)|exact (Ha1 false)].
Qed.

Lemma offered_rating_mode (m : Mode) (rating : Rating) :
  offered m rating = true -> mode_eqb m flashcards = false.
Proof. now destruct m. Qed.

Lemma step_rate (s : t) (rating : Rating) (card : Flashcard.t) :
  mounted s = true -> offered (mode s) rating = true -> autoPlayRef s = None ->
  currentCard s = Some card ->
  exists b, step (Rate rating) s
            = Some (setIsFlipped b
                      (setCurrentIndexRef (currentIndex s + 1) (handleRate rating s))).
Proof.
  intros Hm Hf Ha Hc. cbn [step]. rewrite Hm, Hf. cbn [negb andb].
  apply offered_rating_mode in Hf. unfold endScreen. rewrite Hc.
  assert (Hlt : currentIndex s < List.length (queue s)).
  { apply nth_error_Some. unfold currentCard in Hc. congruence. }
  destruct (Nat.leb_spec (List.length (queue s)) (currentIndex s)); [lia|]. cbn [negb].
  assert (Hi : currentIndex (handleRate rating s) = currentIndex s + 1).
  { unfold handleRate. rewrite Hc. now destruct (isFail rating). }
  destruct (commit_rating_mode s (handleRate rating s)) as [b Hb].
  - unfold handleRate. rewrite Hc. now destruct (isFail rating).
  - unfold handleRate. rewrite Hc. now destruct (isFail rating).
  - exists b. now rewrite Hb, Hi.
Qed.

Lemma step_fire (s : t) (h : nat) (tm : Timer) :
  mounted s = true -> isFlashcards s = false -> autoPlayRef s = None ->
  find (fun tm => handle tm =? h) (timers s) = Some tm ->
  fireable tm s = true ->
  (forall c, action tm = Requeue c ->
  exists b, step (Fire h) s
            = Some (setIsFlipped b
                      (setCurrentIndexRef (currentIndex s)
                         (fireAction (Requeue c) (clearTimeout h s))))).
Proof.
  intros Hm Hf Ha Hfind Hfire c Hc. cbn [step]. rewrite Hfind, Hfire, Hm, Hc.
  destruct (commit_rating_mode s (fireAction (Requeue c) (clearTimeout h s))) as [b Hb];
    [exact Hf|exact Ha|].
  exists b. now rewrite Hb.
Qed.

Lemma nth_error_insert {A : Type} (l : list A) (n : nat) (x : A) :
  n <= List.length l -> nth_error (firstn n l ++ x :: skipn n l) n = Some x.
Proof.
  intros H. rewrite nth_error_app2; rewrite firstn_length_le by lia; [|lia].
  now rewrite Nat.sub_diag.
Qed.

Lemma requeue_within (c : Flashcard.t) (pos : nat) (q : list Flashcard.t) :
  pos < List.length q ->
  requeue c pos q = firstn (pos + 1) q ++ c :: skipn (pos + 1) q
  /\ nth_error (requeue c pos q) (pos + 1) = Some c.
Proof.
  intros H. unfold requeue.
  destruct (Nat.ltb_spec (List.length q) pos); [lia|].
  destruct (Nat.ltb_spec pos (List.length q)); [|lia].
  split; [reflexivity|]. apply nth_error_insert. lia.
Qed.

Lemma requeue_beyond (c : Flashcard.t) (pos : nat) (q : list Flashcard.t) :
  List.length q <= pos ->
  requeue c pos q = q ++ [c]
  /\ nth_error (requeue c pos q) (List.length q) = Some c.
Proof.
  intros H. unfold requeue.
  assert (E : (if List.length q <? pos then q ++ [c]
               else firstn (if pos <? List.length q then pos + 1 else pos) q
                    ++ c :: skipn (if pos <? List.length q then pos + 1 else pos) q)
              = q ++ [c]).
  { destruct (Nat.ltb_spec (List.length q) pos); [reflexivity|].
    destruct (Nat.ltb_spec pos (List.length q)); [lia|].
    assert (pos = List.length q) as -> by lia.
    now rewrite firstn_all, skipn_all. }
  rewrite E. split; [reflexivity|].
  rewrite nth_error_app2 by lia. now rewrite Nat.sub_diag.
Qed.

Lemma handleRate_fail (s : t) (rating : Rating) (card : Flashcard.t) :
  isFail rating = true -> currentCard s = Some card ->
  handleRate rating s
  = setTimeout (Requeue card) (AppSettings.failDelay (settings s))
      (setCurrentIndex (fun prev => prev + 1)
         (setDocuments (handleUpdateCardProgress (now s) card rating) s)).
Proof. intros Hr Hc. unfold handleRate. now rewrite Hc, Hr. Qed.

Lemma handleRate_pass (s : t) (rating : Rating) (card : Flashcard.t) :
  isFail rating = false -> currentCard s = Some card ->
  handleRate rating s
  = setCurrentIndex (fun prev => prev + 1)
      (setDocuments (handleUpdateCardProgress (now s) card rating) s).
Proof. intros Hr Hc. unfold handleRate. now rewrite Hc, Hr. Qed.

Lemma run_step (e : Event) (es : list Event) (s s' : t) :
  step e s = Some s' -> run (e :: es) s = run es s'.
Proof. intros H. cbn [run]. now rewrite H. Qed.
Arguments run_step {e es s s'} _.


Lemma step_tick (dt : Z) (s : t) :
  (0 <= dt)%Z -> step (Tick dt) s = Some (setNow (now s + dt) s).
Proof. intros H. cbn [step]. now destruct (Z.leb_spec 0 dt); [|lia]. Qed.

End RatingModes.

Section SessionRuns.

Import StudySession.



(** Closing the session clears the auto-play timer. *)
Lemma close_clears_autoPlay (s : t) (h : nat) :
  autoPlayRef s = Some h -> ~ In h (map handle (timers (close s))).
Proof.
  intros Ha Hin. unfold close in Hin. rewrite Ha in Hin. cbn in Hin.
  apply in_map_iff in Hin as (tm & <- & Hin).
  apply filter_In in Hin as [_ Hin]. now rewrite Nat.eqb_refl in Hin.
Qed.

(** Closing the session, and restarting it, leave every other timer
    pending, the requeue timers among them. *)
Lemma close_keeps_other_timers (s : t) (tm : Timer) :
  In tm (timers s) -> autoPlayRef s <> Some (handle tm) -> In tm (timers (close s)).
Proof.
  intros Hin Hne. unfold close. destruct (autoPlayRef s) as [h|]; [|exact Hin].
  cbn. apply filter_In. split; [exact Hin|].
  destruct (Nat.eqb_spec (handle tm) h); [congruence|reflexivity].
Qed.

Lemma restart_keeps_timers (s : t) :
  timers (handleRestartSession s) = timers s
  /\ queue (handleRestartSession s) = queue s.
Proof. split; reflexivity. Qed.

(** C3. A session on one card: the card is failed, which completes the
    session, and the session is restarted before the fail delay has
    elapsed. The requeue timer is still pending after the restart, and when
    it fires it inserts the copy into the queue of the restarted session.
    Closing the session instead leaves the requeue timer pending too; its
    later firing changes nothing only because the component is unmounted.
    The auto-play timer of a swipe session, in contrast, is cleared by
    closing. *)
Theorem requeue_timer_survives_restart :
  (exists s1 s2,
      run [Rate (study AGAIN); RestartSession] Sample.session1 = Some s1
      /\ map handle (timers s1) = [1] /\ queue s1 = [Sample.cardA] /\ currentIndex s1 = 0
      /\ run [Tick 2000; Fire 1] s1 = Some s2
      /\ queue s2 = [Sample.cardA; Sample.cardA])
  /\ (exists s3 s4,
        run [Rate (study AGAIN); Close] Sample.session1 = Some s3
        /\ mounted s3 = false /\ map handle (timers s3) = [1]
        /\ run [Tick 2000; Fire 1] s3 = Some s4
        /\ queue s4 = queue s3 /\ timers s4 = [])
  /\ (exists s5 s6,
        run [TogglePlay] Sample.swipe3 = Some s5
        /\ map handle (timers s5) = [1] /\ autoPlayRef s5 = Some 1
        /\ step Close s5 = Some s6 /\ timers s6 = []).
Proof.
  split; [|split].
  - eexists. eexists. split; [vm_compute; reflexivity|].
    split; [reflexivity|]. split; [reflexivity|]. split; [reflexivity|].
    split; [vm_compute; reflexivity|]. reflexivity.
  - eexists. eexists. split; [vm_compute; reflexivity|].
    split; [reflexivity|]. split; [reflexivity|].
    split; [vm_compute; reflexivity|]. split; reflexivity.
  - eexists. eexists. split; [vm_compute; reflexivity|].
    split; [reflexivity|]. split; [reflexivity|].
    split; [vm_compute; reflexivity|]. reflexivity.
Qed.

(** [handleRestartAll] puts the original queue back, empties the missed
    set and goes to position 0. *)
Lemma restartAll_resets (s : t) :
  queue (handleRestartAll s) = originalQueue s
  /\ missedCards (handleRestartAll s) = []
  /\ currentIndex (handleRestartAll s) = 0.
Proof. repeat split. Qed.

(** C6. A session on one card in a rating mode: the card is failed, the
    copy is requeued when the delay has elapsed, the copy is rated good and
    the completed session is restarted. The position is 0 again, but the
    queue still holds the requeued copy: it is not the original queue. The
    restart of the swipe session does what the claim says: the queue is the
    original queue, the missed set is empty and the position is 0. *)
Theorem restart_session_keeps_requeued_copy :
  (exists s',
      run [Rate (study AGAIN); Tick 2000; Fire 1; Rate (study GOOD); RestartSession]
          Sample.session1 = Some s'
      /\ currentIndex s' = 0
      /\ originalQueue s' = [Sample.cardA]
      /\ queue s' = [Sample.cardA; Sample.cardA]
      /\ queue s' <> originalQueue s')
  /\ (forall s, queue (handleRestartAll s) = originalQueue s
                /\ missedCards (handleRestartAll s) = []
                /\ currentIndex (handleRestartAll s) = 0).
Proof.
  split; [|exact restartAll_resets].
  eexists. split; [vm_compute; reflexivity|].
  split; [reflexivity|]. split; [reflexivity|]. split; [reflexivity|]. discriminate.
Qed.

End SessionRuns.
(* ================================================================== *)
(** * Further properties of card derivation *)
(* ================================================================== *)

(** X1. The first rule that matches decides the cards of a block. With
    [::] in the content every row of the card table is [bidirectional] and
    there are at most two; with [;;] and no [::] there is at most one row,
    of type [forward]; otherwise there is at most one row, of type [cloze],
    showing the whole content. The study extractor gives at most one card,
    of type [forward] when the content has a delimiter and of type [cloze],
    with the content on both sides, when it has none. In particular braces
    beside a delimiter never give a cloze card. *)
Theorem first_matching_rule_decides
    (doc : Document.t) (blocks : list Block.t) (index : nat) (block : Block.t) :
  let content := Block.content block in
  let rows := CardTable.tableRows blocks index block in
  let cards := extractBlock doc block in
  List.length rows <= 2 /\ List.length cards <= 1
  /\ (includes (lit "::") content = true ->
      (forall r, In r rows -> TableRow.type r = bidirectional)
      /\ (forall c, In c cards -> Flashcard.cardType c = forward))
  /\ (includes (lit "::") content = false -> includes (lit ";;") content = true ->
      List.length rows <= 1
      /\ (forall r, In r rows -> TableRow.type r = forward)
      /\ (forall c, In c cards -> Flashcard.cardType c = forward))
  /\ (includes (lit "::") content = false -> includes (lit ";;") content = false ->
      List.length rows <= 1
      /\ (forall r, In r rows ->
            TableRow.type r = cloze /\ TableRow.front r = content
            /\ cloze_test content = true)
      /\ (forall c, In c cards ->
            Flashcard.cardType c = cloze /\ Flashcard.front c = content
            /\ Flashcard.back c = content)).
Proof.
  intros content rows cards. subst content rows cards.
  unfold CardTable.tableRows, extractBlock.
  destruct (orFalse (SrsData.disabled (srsOrDefault block)));
  destruct (includes (lit "::") (Block.content block));
  destruct (includes (lit ";;") (Block.content block));
  destruct (cloze_test (Block.content block));
  destruct (split (lit "::") (Block.content block)) as [|p0 [|p1 m1]];
  destruct (split (lit ";;") (Block.content block)) as [|q0 [|q1 m2]];
  cbn [map nth_error];
  try destruct (truthy (trim p0) && truthy (trim p1));
  try destruct (truthy (trim q0) && truthy (trim q1));
  cbn [List.length In];
  repeat split; try lia; try discriminate; intros;
  repeat match goal with
         | H : _ \/ _ |- _ => destruct H
         | H : False |- _ => destruct H
         end; subst; try reflexivity; try discriminate.
Qed.

Lemma first_matching_rule_decides_witness :
  includes (lit "::") (lit "{a} :: {b}") = true
  /\ map TableRow.type
         (CardTable.tableRows [] 0 (Sample.block "w1" "{a} :: {b}" 0))
     = [bidirectional; bidirectional]
  /\ forall r, In r (CardTable.tableRows [] 0 (Sample.block "w1" "{a} :: {b}" 0)) ->
               TableRow.type r = bidirectional.
Proof.
  assert (Hi : includes (lit "::") (Block.content (Sample.block "w1" "{a} :: {b}" 0)) = true)
    by reflexivity.
  destruct (first_matching_rule_decides (Sample.doc "d" []) [] 0
              (Sample.block "w1" "{a} :: {b}" 0)) as (_ & _ & H & _).
  split; [exact Hi|]. split; [reflexivity|]. exact (proj1 (H Hi)).
Defined.

(** X2. A block that has a row in the card table and is not disabled has
    exactly one study card; the card has the front of the block's first
    row, its back unless the row is a cloze row, and shows the same block
    and counters. *)
Theorem table_row_has_study_card
    (doc : Document.t) (blocks : list Block.t) (index : nat) (block : Block.t)
    (r : TableRow.t) (rest : list TableRow.t) :
  CardTable.tableRows blocks index block = r :: rest ->
  TableRow.disabled r = false ->
  exists c, extractBlock doc block = [c]
            /\ Flashcard.front c = TableRow.front r
            /\ (TableRow.type r <> cloze -> Flashcard.back c = TableRow.back r)
            /\ Flashcard.blockId c = TableRow.blockId r
            /\ or0 (Flashcard.lapses c) = TableRow.lapses r
            /\ Flashcard.repetitions c = TableRow.repetitions r.
Proof.
  unfold CardTable.tableRows, extractBlock, srsOrDefault.
  destruct (Block.srsData block) as [srs|]; cbn [defaultSrs SrsData.disabled orFalse];
  (destruct (includes (lit "::") (Block.content block));
   [destruct (split (lit "::") (Block.content block)) as [|p0 [|p1 m1]];
    cbn [map nth_error]; try discriminate;
    destruct (truthy (trim p0) && truthy (trim p1)); try discriminate
   |destruct (includes (lit ";;") (Block.content block));
    [destruct (split (lit ";;") (Block.content block)) as [|q0 [|q1 m2]];
     cbn [map nth_error]; try discriminate;
     destruct (truthy (trim q0) && truthy (trim q1)); try discriminate
    |destruct (cloze_test (Block.content block)); try discriminate]]);
  intros [= <- <-]; cbn [TableRow.disabled]; intros Hd; try rewrite Hd;
  eexists; (split; [reflexivity|]); cbn; repeat split; try reflexivity;
  intros H; now destruct H.
Qed.

Lemma table_row_has_study_card_witness :
  exists r rest c,
    CardTable.tableRows [] 0 Sample.twoWay = r :: rest
    /\ TableRow.disabled r = false
    /\ extractBlock Sample.twoWayDoc Sample.twoWay = [c]
    /\ Flashcard.front c = TableRow.front r.
Proof.
  assert (Ht : CardTable.tableRows [] 0 Sample.twoWay
               = hd (TableRow.mk [] [] [] [] [] cloze 0 false 0)
                    (CardTable.tableRows [] 0 Sample.twoWay)
                 :: tl (CardTable.tableRows [] 0 Sample.twoWay)) by reflexivity.
  assert (Hd : TableRow.disabled
                 (hd (TableRow.mk [] [] [] [] [] cloze 0 false 0)
                     (CardTable.tableRows [] 0 Sample.twoWay)) = false) by reflexivity.
  destruct (table_row_has_study_card Sample.twoWayDoc [] 0 Sample.twoWay _ _ Ht Hd)
    as (c & Hc & Hf & _).
  eexists. eexists. exists c. repeat split; eassumption.
Defined.

(** A block gives at most two rows and at most one study card. *)
Lemma derived_counts (doc : Document.t) (blocks : list Block.t) (index : nat)
    (block : Block.t) :
  List.length (CardTable.tableRows blocks index block) <= 2
  /\ List.length (extractBlock doc block) <= 1.
Proof.
  unfold CardTable.tableRows, extractBlock.
  destruct (orFalse (SrsData.disabled (srsOrDefault block)));
  destruct (includes (lit "::") (Block.content block));
  destruct (includes (lit ";;") (Block.content block));
  destruct (cloze_test (Block.content block));
  destruct (split (lit "::") (Block.content block)) as [|p0 [|p1 m1]];
  destruct (split (lit ";;") (Block.content block)) as [|q0 [|q1 m2]];
  cbn [map nth_error];
  try destruct (truthy (trim p0) && truthy (trim p1));
  try destruct (truthy (trim q0) && truthy (trim q1));
  cbn [List.length]; split; lia.
Qed.

Lemma NoDup_app_apart {A : Type} (l1 l2 : list A) :
  NoDup l1 -> NoDup l2 -> (forall x, In x l1 -> ~ In x l2) -> NoDup (l1 ++ l2).
Proof.
  induction l1 as [|x l1 IH]; intros H1 H2 Hd; [exact H2|].
  inversion H1 as [|? ? Hx H1']; subst. cbn [app]. constructor.
  - rewrite in_app_iff. intros [H|H]; [contradiction|].
    apply (Hd x); [now left|exact H].
  - apply IH; auto. intros y Hy. apply Hd. now right.
Qed.

(** Unique keys of the items give unique keys of what is derived from
    them, when each item's derivatives have unique keys and derivatives
    with the same key come from items with the same key. *)
Lemma NoDup_flat_map_keyed {A B K L : Type} (key : A -> K) (g : B -> L)
    (f : A -> list B) (l : list A) :
  NoDup (map key l) ->
  (forall x, NoDup (map g (f x))) ->
  (forall x y b b', In b (f x) -> In b' (f y) -> g b = g b' -> key x = key y) ->
  NoDup (map g (flat_map f l)).
Proof.
  intros Hk Hf Hinj. induction l as [|x l IH]; [constructor|].
  cbn [flat_map map] in *. rewrite map_app. inversion Hk as [|? ? Hx Hk']; subst.
  apply NoDup_app_apart; [apply Hf|now apply IH|].
  intros i Hi Hi'. apply in_map_iff in Hi as (b & <- & Hb).
  apply in_map_iff in Hi' as (b' & E & Hb').
  apply in_flat_map in Hb' as (y & Hy & Hb').
  apply Hx. rewrite (Hinj x y b b' Hb Hb' (eq_sym E)). now apply in_map.
Qed.

(** An id of the card table determines the block id and the ending. *)
Lemma table_id_parts (x y s t : str) :
  In s [lit "-fwd"; lit "-bwd"; lit "-cloze"] ->
  In t [lit "-fwd"; lit "-bwd"; lit "-cloze"] ->
  x ++ s = y ++ t -> x = y /\ s = t.
Proof.
  intros Hs Ht.
  repeat (destruct Hs as [<-|Hs]; [|try contradiction]);
  repeat (destruct Ht as [<-|Ht]; [|try contradiction]);
  try (intros E; split; [now apply app_inv_tail in E|reflexivity]);
  differ_at_end.
Qed.

Lemma study_id_parts (x y s t : str) :
  In s [lit "_fwd"; lit "_cloze"] -> In t [lit "_fwd"; lit "_cloze"] ->
  x ++ s = y ++ t -> x = y /\ s = t.
Proof.
  intros Hs Ht.
  repeat (destruct Hs as [<-|Hs]; [|try contradiction]);
  repeat (destruct Ht as [<-|Ht]; [|try contradiction]);
  try (intros E; split; [now apply app_inv_tail in E|reflexivity]);
  differ_at_end.
Qed.

Lemma tableRows_ids_NoDup (blocks : list Block.t) (index : nat) (block : Block.t) :
  NoDup (map TableRow.id (CardTable.tableRows blocks index block)).
Proof.
  unfold CardTable.tableRows.
  destruct (includes (lit "::") _).
  - destruct (nth_error _ 0); [|constructor].
    destruct (nth_error _ 1); [|constructor].
    destruct (_ && _); [|constructor].
    cbn [map TableRow.id]. constructor; [|constructor; [intros []|constructor]].
    intros [E|[]]. apply table_id_parts in E as [_ E]; cbn; auto. discriminate E.
  - destruct (includes (lit ";;") _).
    + destruct (nth_error _ 0); [|constructor].
      destruct (nth_error _ 1); [|constructor].
      destruct (_ && _); [|constructor].
      cbn [map]. constructor; [intros []|constructor].
    + destruct (cloze_test _); [|constructor].
      cbn [map]. constructor; [intros []|constructor].
Qed.

Lemma extractBlock_ids_NoDup (doc : Document.t) (block : Block.t) :
  NoDup (map Flashcard.id (extractBlock doc block)).
Proof.
  pose proof (derived_counts doc [] 0 block) as (_ & H).
  destruct (extractBlock doc block) as [|c [|c' l]]; cbn in *;
    [constructor|constructor; [intros []|constructor]|lia].
Qed.

Lemma combine_seq_keys {A B : Type} (f : A -> B) (l : list A) (k : nat) :
  map (fun ib => f (snd ib)) (combine (seq k (List.length l)) l) = map f l.
Proof.
  revert k. induction l as [|x l IH]; intros k; [reflexivity|].
  cbn [List.length seq combine map snd]. now rewrite IH.
Qed.

(** X3. When the blocks of a document have distinct ids, the rows of its
    card table have distinct ids; and when the blocks of the scanned
    documents have distinct ids, so have the study cards. *)
Theorem derived_ids_unique (blocks : list Block.t) (docs : list Document.t) :
  (NoDup (map Block.id blocks) ->
   NoDup (map TableRow.id (CardTable.tableData blocks)))
  /\ (NoDup (map Block.id (flat_map Document.blocks docs)) ->
      NoDup (map Flashcard.id (extractCards docs))).
Proof.
  split; intros Hn.
  - unfold CardTable.tableData. rewrite forEachRow_flat_map. cbn [app].
    apply NoDup_flat_map_keyed with (key := fun ib => Block.id (snd ib)).
    + now rewrite combine_seq_keys.
    + intros [i b]. apply tableRows_ids_NoDup.
    + intros [i b] [j b'] r r' Hr Hr' E. cbn [fst snd] in *.
      apply tableRows_ids in Hr. apply tableRows_ids in Hr'.
      rewrite E in Hr.
      destruct Hr as [Hr|[Hr|Hr]]; destruct Hr' as [Hr'|[Hr'|Hr']];
        rewrite Hr in Hr'; apply table_id_parts in Hr' as [Hx _]; cbn; auto.
  - rewrite extractCards_flat_map.
    assert (E : forall ds,
               flat_map (fun doc => flat_map (extractBlock doc) (Document.blocks doc)) ds
               = flat_map (fun p => extractBlock (fst p) (snd p))
                   (flat_map (fun doc => map (pair doc) (Document.blocks doc)) ds)).
    { induction ds as [|d ds IH]; [reflexivity|]. cbn [flat_map].
      rewrite flat_map_app, IH. f_equal.
      induction (Document.blocks d) as [|b bs IHb]; [reflexivity|].
      cbn [map flat_map fst snd]. now rewrite IHb. }
    rewrite E.
    apply NoDup_flat_map_keyed with (key := fun p => Block.id (snd p)).
    + replace (map (fun p => Block.id (snd p))
                 (flat_map (fun doc => map (pair doc) (Document.blocks doc)) docs))
        with (map Block.id (flat_map Document.blocks docs)); [exact Hn|].
      clear. induction docs as [|d ds IH]; [reflexivity|].
      cbn [flat_map]. rewrite !map_app, IH. f_equal.
      rewrite map_map. reflexivity.
    + intros [d b]. apply extractBlock_ids_NoDup.
    + intros [d b] [d' b'] c c' Hc Hc' Ec. cbn [fst snd] in *.
      apply extractBlock_ids in Hc. apply extractBlock_ids in Hc'.
      rewrite Ec in Hc.
      destruct Hc as [Hc|Hc]; destruct Hc' as [Hc'|Hc'];
        rewrite Hc in Hc'; apply study_id_parts in Hc' as [Hx _]; cbn; auto.
Qed.

Lemma derived_ids_unique_witness :
  NoDup (map Block.id (Document.blocks Sample.deck))
  /\ NoDup (map TableRow.id (CardTable.tableData (Document.blocks Sample.deck)))
  /\ NoDup (map Flashcard.id (extractCards [Sample.deck])).
Proof.
  assert (Hn : NoDup (map Block.id (Document.blocks Sample.deck))).
  { repeat constructor; cbn; intros H;
      repeat (destruct H as [H|H]; [discriminate H|]); exact H. }
  destruct (derived_ids_unique (Document.blocks Sample.deck) [Sample.deck]) as [H1 H2].
  split; [exact Hn|]. split; [exact (H1 Hn)|].
  apply H2. cbn [flat_map]. rewrite app_nil_r. exact Hn.
Defined.

Lemma length_flat_map_bound {A B : Type} (f : A -> list B) (p : A -> bool) (n : nat)
    (l : list A) :
  (forall x, List.length (f x) <= if p x then n else 0) ->
  List.length (flat_map f l) <= n * List.length (filter p l).
Proof.
  intros H. induction l as [|x l IH]; [cbn; lia|].
  cbn [flat_map filter]. rewrite length_app. specialize (H x).
  destruct (p x); cbn [List.length]; lia.
Qed.

(** The blocks [flashcardCount] counts. *)
Lemma rows_only_of_counted (blocks : list Block.t) (index : nat) (block : Block.t) :
  List.length (CardTable.tableRows blocks index block)
  <= if orFalse (Block.isFlashcard block)
        || includes (lit "::") (Block.content block)
        || includes (lit ";;") (Block.content block)
        || cloze_test (Block.content block)
     then 2 else 0.
Proof.
  pose proof (derived_counts (Sample.doc "d" []) blocks index block) as (H & _).
  unfold CardTable.tableRows in *.
  destruct (includes (lit "::") _); [rewrite orb_true_r; exact H|].
  destruct (includes (lit ";;") _); [rewrite orb_true_r; exact H|].
  destruct (cloze_test _); [rewrite orb_true_r; exact H|].
  destruct (orFalse _); cbn; lia.
Qed.

Lemma cards_only_of_counted (doc : Document.t) (block : Block.t) :
  List.length (extractBlock doc block)
  <= if orFalse (Block.isFlashcard block)
        || includes (lit "::") (Block.content block)
        || includes (lit ";;") (Block.content block)
        || cloze_test (Block.content block)
     then 1 else 0.
Proof.
  pose proof (derived_counts doc [] 0 block) as (_ & H).
  unfold extractBlock in *. destruct (orFalse (SrsData.disabled _)).
  { destruct (_ || _); cbn; lia. }
  destruct (includes (lit "::") _); [rewrite orb_true_r; exact H|].
  destruct (includes (lit ";;") _); [rewrite orb_true_r; exact H|].
  destruct (cloze_test _); [rewrite orb_true_r; exact H|].
  destruct (orFalse _); cbn; lia.
Qed.

(** X4. The number the editor shows as the count of flashcards bounds the
    cards of the document: the card table has at most two rows, and the
    study extractor at most one card, for each block counted. *)
Theorem flashcardCount_bounds_cards (doc : Document.t) :
  List.length (CardTable.tableData (Document.blocks doc))
  <= 2 * Editor.flashcardCount (Document.blocks doc)
  /\ List.length (extractCards [doc]) <= Editor.flashcardCount (Document.blocks doc).
Proof.
  split.
  - unfold CardTable.tableData, Editor.flashcardCount.
    rewrite forEachRow_flat_map. cbn [app].
    set (p := fun b : Block.t => _ || _).
    etransitivity.
    + apply (length_flat_map_bound _ (fun ib => p (snd ib)) 2).
      intros [i b]. apply rows_only_of_counted.
    + apply Nat.mul_le_mono_l. apply Nat.eq_le_incl.
      generalize 0. induction (Document.blocks doc) as [|b bs IH]; intros k; [reflexivity|].
      cbn [List.length seq combine filter snd]. destruct (p b); cbn [List.length]; now rewrite IH.
  - rewrite extractCards_flat_map. cbn [flat_map]. rewrite app_nil_r.
    unfold Editor.flashcardCount. rewrite <- (Nat.mul_1_l (List.length (filter _ _))).
    apply length_flat_map_bound. intros b. apply cards_only_of_counted.
Qed.

(* ================================================================== *)
(** * Ratings and the disabled flag, seen through the derivations *)
(* ================================================================== *)

(** The rows of a block show its contents and its record only. *)
Lemma tableRows_faces_of_content (blocks : list Block.t) (index : nat) (b b' : Block.t) :
  Block.id b' = Block.id b -> Block.content b' = Block.content b ->
  map Spec.face (CardTable.tableRows blocks index b')
  = map Spec.face (CardTable.tableRows blocks index b).
Proof.
  intros Hi Hc. unfold CardTable.tableRows. rewrite Hi, Hc.
  destruct (includes (lit "::") _).
  - destruct (nth_error _ 0); [|reflexivity].
    destruct (nth_error _ 1); [|reflexivity].
    now destruct (_ && _).
  - destruct (includes (lit ";;") _).
    + destruct (nth_error _ 0); [|reflexivity].
      destruct (nth_error _ 1); [|reflexivity].
      now destruct (_ && _).
    + now destruct (cloze_test _).
Qed.

(** X5. In the card table, a block that has just been given a fail rating
    shows one more lapse and no repetition: unless disabled it is a new
    card again and, for every threshold, either a leech or a struggling
    card. After any other rating it shows one more repetition, the same
    lapses, and is no new card. The texts of its rows are the same. *)
Theorem rated_block_in_card_table
    (now : Z) (rating : Rating) (blocks : list Block.t) (index : nat)
    (block : Block.t) (leechThreshold : Z) :
  let rated := Block.with_srsData block (rateSrs now rating block) in
  map Spec.face (CardTable.tableRows blocks index rated)
  = map Spec.face (CardTable.tableRows blocks index block)
  /\ forall r, In r (CardTable.tableRows blocks index rated) ->
       TableRow.disabled r = orFalse (SrsData.disabled (srsOrDefault block))
       /\ (isFail rating = true ->
           TableRow.lapses r = (or0 (SrsData.lapses (srsOrDefault block)) + 1)%N
           /\ TableRow.repetitions r = 0%N
           /\ (TableRow.disabled r = false ->
               CardTable.isNew r = true
               /\ xorb (CardTable.isLeech leechThreshold r)
                       (CardTable.isStruggling leechThreshold r) = true))
       /\ (isFail rating = false ->
           TableRow.lapses r = or0 (SrsData.lapses (srsOrDefault block))
           /\ TableRow.repetitions r = (SrsData.repetitions (srsOrDefault block) + 1)%N
           /\ CardTable.isNew r = false).
Proof.
  intros rated. split; [now apply tableRows_faces_of_content|].
  intros r Hr. apply tableRows_view in Hr as (_ & Hl & Hd & Hp).
  subst rated. cbn [Block.with_srsData Block.srsData] in Hl, Hd, Hp.
  unfold rateSrs in Hl, Hd, Hp. split.
  - rewrite Hd. now destruct (isFail rating).
  - split; intros Hf; rewrite Hf in *; cbn in Hl, Hd, Hp.
    + split; [exact Hl|]. split; [exact Hp|]. intros Hen.
      unfold CardTable.isNew, CardTable.isLeech, CardTable.isStruggling.
      rewrite Hp, Hen, Hl. cbn [negb andb N.eqb]. split; [reflexivity|].
      set (n := or0 _).
      destruct (Z.leb_spec leechThreshold (Z.of_N (n + 1)));
      destruct (Z.ltb_spec (Z.of_N (n + 1)) leechThreshold);
      destruct (N.ltb_spec 0 (n + 1)); cbn; try reflexivity; lia.
    + split; [exact Hl|]. split; [exact Hp|].
      unfold CardTable.isNew. rewrite Hp.
      destruct (N.eqb_spec (SrsData.repetitions (srsOrDefault block) + 1) 0); [lia|].
      reflexivity.
Qed.

Lemma rated_block_in_card_table_witness :
  CardTable.tableRows [] 0
    (Block.with_srsData Sample.twoWay (rateSrs 0 (study AGAIN) Sample.twoWay)) <> []
  /\ forall r,
       In r (CardTable.tableRows [] 0
               (Block.with_srsData Sample.twoWay (rateSrs 0 (study AGAIN) Sample.twoWay))) ->
       TableRow.lapses r = 1%N /\ TableRow.repetitions r = 0%N
       /\ CardTable.isNew r = true /\ CardTable.isLeech 5 r = false
       /\ CardTable.isStruggling 5 r = true.
Proof.
  split; [vm_compute; discriminate|]. intros r Hr.
  destruct (rated_block_in_card_table 0 (study AGAIN) [] 0 Sample.twoWay 5)
    as (_ & H).
  destruct (H r Hr) as (Hd & Hfail & _).
  destruct (Hfail eq_refl) as (Hl & Hrep & Hnew).
  destruct (Hnew Hd) as (Hn & Hx).
  split; [exact Hl|]. split; [exact Hrep|]. split; [exact Hn|].
  unfold CardTable.isLeech, CardTable.isStruggling in *. rewrite Hl, Hd in *.
  split; reflexivity.
Defined.

(** X6. The study cards of a block after a rating are its study cards
    before the rating, with [repetitions], [lapses] and [status] brought
    up to date: a fail rating makes the card [new] again, with one more
    lapse; any other rating makes it a [review] card with one more
    repetition. *)
Theorem rated_block_study_cards
    (now : Z) (rating : Rating) (doc : Document.t) (block : Block.t) :
  let rated := Block.with_srsData block (rateSrs now rating block) in
  extractBlock doc rated
  = map (fun c =>
           Flashcard.mk (Flashcard.id c) (Flashcard.front c) (Flashcard.back c)
             (Flashcard.blockId c) (Flashcard.docId c) (Flashcard.cardType c)
             (if isFail rating then status_new else status_review)
             (Flashcard.nextReview c) (Flashcard.interval c) (Flashcard.easeFactor c)
             (if isFail rating then 0%N else (Flashcard.repetitions c + 1)%N)
             (Some (if isFail rating then (or0 (Flashcard.lapses c) + 1)%N
                    else or0 (Flashcard.lapses c)))
             (Flashcard.disabled c))
        (extractBlock doc block).
Proof.
  intros rated. subst rated. unfold extractBlock.
  replace (srsOrDefault (Block.with_srsData block (rateSrs now rating block)))
    with (rateSrs now rating block) by reflexivity.
  assert (Hd : SrsData.disabled (rateSrs now rating block)
               = SrsData.disabled (srsOrDefault block))
    by (unfold rateSrs; now destruct (isFail rating)).
  rewrite Hd. destruct (orFalse _); [reflexivity|].
  cbn [Block.with_srsData Block.content Block.id].
  assert (Hc : forall i f k ty,
             baseCard doc (Block.with_srsData block (rateSrs now rating block))
               (rateSrs now rating block) i f k ty
             = Flashcard.mk i f k (Block.id block) (Document.id doc) ty
                 (if isFail rating then status_new else status_review)
                 (SrsData.nextReview (srsOrDefault block))
                 (SrsData.interval (srsOrDefault block))
                 (SrsData.easeFactor (srsOrDefault block))
                 (if isFail rating then 0%N
                  else (SrsData.repetitions (srsOrDefault block) + 1)%N)
                 (Some (if isFail rating
                        then (or0 (SrsData.lapses (srsOrDefault block)) + 1)%N
                        else or0 (SrsData.lapses (srsOrDefault block))))
                 (SrsData.disabled (srsOrDefault block))).
  { intros. unfold baseCard, rateSrs. destruct (isFail rating); cbn; [reflexivity|].
    destruct (N.eqb_spec (SrsData.repetitions (srsOrDefault block) + 1) 0); [lia|].
    reflexivity. }
  destruct (includes (lit "::") _).
  - destruct (split _ _) as [|p0 [|p1 ?]]; try reflexivity.
    cbn [map]. now rewrite Hc.
  - destruct (includes (lit ";;") _).
    + destruct (split _ _) as [|p0 [|p1 ?]]; try reflexivity.
      cbn [map]. now rewrite Hc.
    + destruct (cloze_test _); [|reflexivity]. cbn [map]. now rewrite Hc.
Qed.

(** X7. Disabling an enabled block through the card table takes its card
    out of the study extraction but leaves its rows in the table, with the
    same ids, texts and counters, now marked disabled; the blocks with
    another id are not touched. *)
Theorem disabling_hides_from_study_only
    (doc : Document.t) (blocks : list Block.t) (index : nat) (block : Block.t) :
  orFalse (SrsData.disabled (srsOrDefault block)) = false ->
  let toggled := Block.with_srsData block (Editor.toggledSrs block) in
  extractBlock doc toggled = []
  /\ map Spec.face (CardTable.tableRows blocks index toggled)
     = map Spec.face (CardTable.tableRows blocks index block)
  /\ map TableRow.lapses (CardTable.tableRows blocks index toggled)
     = map TableRow.lapses (CardTable.tableRows blocks index block)
  /\ map TableRow.repetitions (CardTable.tableRows blocks index toggled)
     = map TableRow.repetitions (CardTable.tableRows blocks index block)
  /\ (forall r, In r (CardTable.tableRows blocks index toggled) ->
                TableRow.disabled r = true)
  /\ (forall blockId,
        Forall2 (fun b b' => if str_eqb (Block.id b) blockId
                             then b' = Block.with_srsData b (Editor.toggledSrs b)
                             else b' = b)
                blocks (Editor.handleToggleDisable blockId blocks)).
Proof.
  intros Hen toggled.
  assert (Hd : orFalse (match Block.srsData block with
                        | Some s => SrsData.disabled s | None => None end) = false).
  { unfold srsOrDefault in Hen. now destruct (Block.srsData block). }
  split.
  { unfold extractBlock. subst toggled. cbn. now rewrite Hd. }
  split; [now apply tableRows_faces_of_content|].
  assert (Hrows : forall r, In r (CardTable.tableRows blocks index toggled) ->
            TableRow.disabled r = true
            /\ TableRow.lapses r
               = or0 (match Block.srsData block with
                      | Some s => SrsData.lapses s | None => None end)
            /\ TableRow.repetitions r
               = match Block.srsData block with
                 | Some s => SrsData.repetitions s | None => 0%N end).
  { intros r Hr. apply tableRows_view in Hr as (_ & Hl & Hdis & Hp).
    subst toggled. cbn in Hl, Hdis, Hp. rewrite Hd in Hdis.
    split; [exact Hdis|]. split.
    - rewrite Hl. destruct (Block.srsData block) as [s|]; [|reflexivity].
      destruct (SrsData.lapses s) as [n|]; [|reflexivity]. cbn.
      now destruct (N.eqb_spec n 0).
    - rewrite Hp. destruct (Block.srsData block) as [s|]; [|reflexivity]. cbn.
      now destruct (N.eqb_spec (SrsData.repetitions s) 0). }
  assert (Hold : forall r, In r (CardTable.tableRows blocks index block) ->
            TableRow.lapses r
            = or0 (match Block.srsData block with
                   | Some s => SrsData.lapses s | None => None end)
            /\ TableRow.repetitions r
               = match Block.srsData block with
                 | Some s => SrsData.repetitions s | None => 0%N end).
  { intros r Hr. now apply tableRows_view in Hr as (_ & Hl & _ & Hp). }
  assert (Hlen : List.length (CardTable.tableRows blocks index toggled)
                 = List.length (CardTable.tableRows blocks index block)).
  { rewrite <- (length_map Spec.face), <- (length_map Spec.face (CardTable.tableRows _ _ block)).
    f_equal. now apply tableRows_faces_of_content. }
  assert (Hconst : forall (f : TableRow.t -> N) (v : N) (l1 l2 : list TableRow.t),
            List.length l1 = List.length l2 ->
            (forall r, In r l1 -> f r = v) -> (forall r, In r l2 -> f r = v) ->
            map f l1 = map f l2).
  { intros f v l1. induction l1 as [|x l1 IH]; intros [|y l2] Hl H1 H2;
      try discriminate; [reflexivity|].
    cbn [map]. rewrite (H1 x), (H2 y) by now left. f_equal.
    apply IH; [now injection Hl|intros; apply H1; now right|intros; apply H2; now right]. }
  split.
  { eapply Hconst; [exact Hlen|intros r Hr; apply (Hrows r Hr)|intros r Hr; apply (Hold r Hr)]. }
  split.
  { eapply Hconst; [exact Hlen|intros r Hr; apply (Hrows r Hr)|intros r Hr; apply (Hold r Hr)]. }
  split; [intros r Hr; apply (Hrows r Hr)|].
  intros blockId. unfold Editor.handleToggleDisable.
  apply Forall2_map_fun. intros b _. now destruct (str_eqb (Block.id b) blockId).
Qed.

Lemma disabling_hides_from_study_only_witness :
  orFalse (SrsData.disabled (srsOrDefault Sample.twoWay)) = false
  /\ extractBlock Sample.twoWayDoc Sample.twoWay <> []
  /\ extractBlock Sample.twoWayDoc
       (Block.with_srsData Sample.twoWay (Editor.toggledSrs Sample.twoWay)) = []
  /\ map TableRow.disabled
       (CardTable.tableData (Editor.handleToggleDisable (lit "b4") [Sample.twoWay]))
     = [true; true].
Proof.
  assert (He : orFalse (SrsData.disabled (srsOrDefault Sample.twoWay)) = false)
    by reflexivity.
  destruct (disabling_hides_from_study_only Sample.twoWayDoc [] 0 Sample.twoWay He)
    as (H & _).
  split; [exact He|]. split; [discriminate|]. split; [exact H|reflexivity].
Defined.

Lemma zOr_same (z : Z) : Editor.zOr (Some z) 0 = z.
Proof. cbn. now destruct (Z.eqb_spec z 0). Qed.

Lemma nOr_same (n : N) : Editor.nOr (Some n) 0 = n.
Proof. cbn. now destruct (N.eqb_spec n 0). Qed.

Lemma nOr_or0 (o : option N) : Editor.nOr o 0 = or0 o.
Proof. destruct o as [n|]; [apply nOr_same|reflexivity]. Qed.

Lemma qOr_stable (q d : Q) :
  (Qnum d =? 0)%Z = false \/ d = 0%Q ->
  Editor.qOr (Some (Editor.qOr (Some q) d)) d = Editor.qOr (Some q) d.
Proof.
  intros Hd. cbn. destruct (Qnum q =? 0)%Z eqn:E.
  - destruct Hd as [Hd | ->]; [now rewrite Hd|reflexivity].
  - now rewrite E.
Qed.

(** X8. Toggling the disabled flag of a block twice gives back its
    [disabled] state, its counters, [nextReview] and [lastReview]; the
    interval keeps its value; the ease factor is kept unless it was 0, in
    which case it becomes 2.5. Once a block has been toggled, toggling it
    twice more gives back exactly the same block. *)
Theorem toggling_twice (block : Block.t) :
  let toggle := fun b => Block.with_srsData b (Editor.toggledSrs b) in
  let before := srsOrDefault block in
  let after := srsOrDefault (toggle (toggle block)) in
  orFalse (SrsData.disabled after) = orFalse (SrsData.disabled before)
  /\ SrsData.repetitions after = SrsData.repetitions before
  /\ or0 (SrsData.lapses after) = or0 (SrsData.lapses before)
  /\ SrsData.nextReview after = SrsData.nextReview before
  /\ SrsData.lastReview after = SrsData.lastReview before
  /\ Qeq (SrsData.interval after) (SrsData.interval before)
  /\ SrsData.easeFactor after
     = (if (Qnum (SrsData.easeFactor before) =? 0)%Z then (5 # 2)%Q
        else SrsData.easeFactor before)
  /\ toggle (toggle (toggle block)) = toggle block.
Proof.
  intros toggle before after. subst toggle before after.
  unfold srsOrDefault, Editor.toggledSrs.
  cbn [Block.with_srsData Block.srsData option_map SrsData.nextReview SrsData.interval
       SrsData.easeFactor SrsData.repetitions SrsData.lapses SrsData.disabled
       SrsData.lastReview orFalse or0].
  destruct (Block.srsData block) as [[nr iv ef rp lp ds lr]|];
    cbn [option_map SrsData.nextReview SrsData.interval SrsData.easeFactor
         SrsData.repetitions SrsData.lapses SrsData.disabled SrsData.lastReview
         defaultSrs orFalse or0 negb].
  2:{ repeat split; reflexivity. }
  rewrite !zOr_same, !nOr_same, !nOr_or0, negb_involutive.
  rewrite (qOr_stable iv 0%Q (or_intror eq_refl)).
  rewrite (qOr_stable ef (5 # 2)%Q (or_introl eq_refl)).
  split; [reflexivity|]. split; [reflexivity|]. split; [reflexivity|].
  split; [reflexivity|]. split; [reflexivity|].
  split.
  { cbn. destruct (Z.eqb_spec (Qnum iv) 0) as [E|E]; [|reflexivity].
    unfold Qeq. cbn. rewrite E. reflexivity. }
  split; [reflexivity|].
  unfold Block.with_srsData. cbn [Block.id Block.content Block.level Block.isFlashcard
    Block.parentId Block.srsData option_map SrsData.nextReview SrsData.interval
    SrsData.easeFactor SrsData.repetitions SrsData.lapses SrsData.disabled
    SrsData.lastReview orFalse or0 negb].
  rewrite ?zOr_same, ?nOr_same, ?nOr_or0, ?negb_involutive.
  rewrite ?(qOr_stable iv 0%Q (or_intror eq_refl)).
  rewrite ?(qOr_stable ef (5 # 2)%Q (or_introl eq_refl)).
  reflexivity.
Qed.

(* ================================================================== *)
(** * Editing: contents written by the editor and the session *)
(* ================================================================== *)

Lemma trimStart_involutive (s : str) : trimStart (trimStart s) = trimStart s.
Proof.
  induction s as [|c s IH]; [reflexivity|]. cbn [trimStart].
  destruct (is_ws c) eqn:E; [exact IH|]. cbn [trimStart]. now rewrite E.
Qed.

Lemma trimStart_app (s r : str) :
  trimStart (s ++ r)
  = match trimStart s with [] => trimStart r | _ :: _ => trimStart s ++ r end.
Proof.
  induction s as [|c s IH]; [reflexivity|]. cbn [app trimStart].
  destruct (is_ws c); [exact IH|reflexivity].
Qed.

Lemma trim_space_front (s : str) : trim (32%N :: s) = trim s.
Proof. reflexivity. Qed.

Lemma trim_space_back (s : str) : trim (s ++ [32%N]) = trim s.
Proof.
  unfold trim. rewrite trimStart_app.
  destruct (trimStart s) as [|c t] eqn:E; [reflexivity|].
  unfold trimEnd. rewrite rev_app_distr. reflexivity.
Qed.

Section TwoCharDelimiter.

Variables p q c : char.
Hypothesis c_not_p : c <> p.
Hypothesis c_not_q : c <> q.

Lemma is_prefix2_sep (x rest : str) :
  is_prefix [p; q] x = false -> x <> [] ->
  is_prefix [p; q] (x ++ c :: rest) = false.
Proof.
  destruct x as [|a [|b x]]; intros H Hne; [contradiction| |exact H].
  cbn [app is_prefix]. destruct (N.eqb_spec q c); [congruence|].
  now rewrite andb_false_r.
Qed.

Lemma indexOf2_after_sep (x r : str) :
  indexOf [p; q] x = None ->
  indexOf [p; q] (x ++ c :: p :: q :: r) = Some (S (List.length x)).
Proof.
  induction x as [|a x IH]; intros H.
  - cbn [app List.length indexOf is_prefix].
    destruct (N.eqb_spec p c); [congruence|]. cbn [andb].
    rewrite !N.eqb_refl. reflexivity.
  - apply indexOf_cons_None in H as [Hp H].
    change ((a :: x) ++ c :: p :: q :: r) with (a :: (x ++ c :: p :: q :: r)).
    cbn [indexOf List.length].
    change (a :: (x ++ c :: p :: q :: r)) with ((a :: x) ++ c :: p :: q :: r).
    rewrite is_prefix2_sep by (auto; discriminate).
    change ((a :: x) ++ c :: p :: q :: r) with (a :: (x ++ c :: p :: q :: r)).
    now rewrite (IH H).
Qed.

Lemma indexOf2_none_sep (x y : str) :
  indexOf [p; q] x = None -> indexOf [p; q] y = None ->
  indexOf [p; q] (x ++ c :: y) = None.
Proof.
  induction x as [|a x IH]; intros H Hy.
  - cbn [app indexOf is_prefix]. destruct (N.eqb_spec p c); [congruence|].
    cbn [andb]. now rewrite Hy.
  - apply indexOf_cons_None in H as [Hp H].
    change ((a :: x) ++ c :: y) with (a :: (x ++ c :: y)).
    cbn [indexOf].
    change (a :: (x ++ c :: y)) with ((a :: x) ++ c :: y).
    rewrite is_prefix2_sep by (auto; discriminate).
    change ((a :: x) ++ c :: y) with (a :: (x ++ c :: y)).
    now rewrite (IH H Hy).
Qed.

End TwoCharDelimiter.

Lemma indexOf_short (d s : str) :
  List.length s < List.length d -> indexOf d s = None.
Proof.
  revert d. induction s as [|a s IH]; intros d Hl.
  - destruct d; [cbn in Hl; lia|reflexivity].
  - cbn [indexOf].
    assert (Hp : is_prefix d (a :: s) = false).
    { clear IH. revert Hl. generalize (a :: s) as t. induction d as [|x d IHd]; intros t Hl.
      - cbn in Hl. lia.
      - destruct t as [|y t]; [reflexivity|]. cbn [is_prefix].
        rewrite IHd by (cbn in Hl; lia). apply andb_false_r. }
    rewrite Hp, IH by (cbn in Hl; lia). reflexivity.
Qed.

(** The content [front sep back] written between two parts without
    delimiter is cut at the delimiter written. *)
Lemma written_content_cut (p : char) (F B : str) :
  p <> 32%N ->
  indexOf [p; p] F = None -> indexOf [p; p] B = None ->
  Spec.cutAtFirst [p; p] (F ++ lit " " ++ [p; p] ++ lit " " ++ B)
                  (F ++ [32%N]) (32%N :: B)
  /\ Spec.pieceUpTo [p; p] (32%N :: B) (32%N :: B).
Proof.
  intros Hp HF HB. split; [split|].
  - now rewrite <- app_assoc.
  - rewrite length_app. cbn [List.length]. rewrite Nat.add_1_r.
    change (F ++ lit " " ++ [p; p] ++ lit " " ++ B) with (F ++ 32%N :: p :: p :: 32%N :: B).
    apply indexOf2_after_sep; auto.
  - left. split; [|reflexivity].
    apply (indexOf2_none_sep p p 32%N) with (x := []) (y := B); auto.
Qed.

Lemma includes_none (d s : str) : includes d s = false -> indexOf d s = None.
Proof. apply includes_false_indexOf. Qed.

(** X9. Editing a card that is not a cloze card writes the block's content
    as the new front, the delimiter the block has and the new back. When
    the new texts contain no delimiter, the cards derived from the edited
    block have the trimmed new front and back, and the kind of the block
    is kept: a two-way block gives the bidirectional pair in the card
    table, a one-way block its forward row, and the study extractor its
    one card. In the documents, [handleEditCard] changes exactly the
    blocks with the card's block id in the documents with its document
    id. *)
Theorem edited_card_derives_new_faces
    (card : Flashcard.t) (doc : Document.t) (blocks : list Block.t) (index : nat)
    (b : Block.t) (F B : str) :
  Flashcard.cardType card <> cloze ->
  includes (lit "::") F = false -> includes (lit ";;") F = false ->
  includes (lit "::") B = false -> includes (lit ";;") B = false ->
  let b' := App.editBlock card F B b in
  extractBlock doc b'
  = (if orFalse (SrsData.disabled (srsOrDefault b)) then []
     else [baseCard doc b (srsOrDefault b) (Block.id b ++ lit "_fwd")
             (trim F) (trim B) forward])
  /\ map Spec.face (CardTable.tableRows blocks index b')
     = (if truthy (trim F) && truthy (trim B)
        then if includes (lit "::") (Block.content b)
             then [ (Block.id b ++ lit "-fwd", trim F, trim B, bidirectional);
                    (Block.id b ++ lit "-bwd", trim B, trim F, bidirectional) ]
             else [ (Block.id b ++ lit "-fwd", trim F, trim B, forward) ]
        else [])
  /\ (forall docs,
        Forall2 (fun d d' =>
                   if str_eqb (Document.id d) (Flashcard.docId card)
                   then Document.id d' = Document.id d
                        /\ Document.title d' = Document.title d
                        /\ Forall2 (fun x x' =>
                                      if str_eqb (Block.id x) (Flashcard.blockId card)
                                      then x' = App.editBlock card F B x
                                      else x' = x)
                                   (Document.blocks d) (Document.blocks d')
                   else d' = d)
                docs (App.handleEditCard card F B docs)).
Proof.
  intros Hty HF1 HF2 HB1 HB2 b'.
  apply includes_none in HF1, HF2, HB1, HB2.
  assert (Hb' : b' = Spec.withContent b
                  (F ++ lit " "
                   ++ (if includes (lit "::") (Block.content b) then lit "::" else lit ";;")
                   ++ lit " " ++ B)).
  { subst b'. unfold App.editBlock.
    destruct (Flashcard.cardType card); [reflexivity|reflexivity|now contradiction Hty]. }
  assert (Htrim : trim (F ++ [32%N]) = trim F /\ trim (32%N :: B) = trim B)
    by (split; [apply trim_space_back|apply trim_space_front]).
  destruct Htrim as [HtF HtB].
  assert (Hcut2 : Spec.cutAtFirst (lit "::")
                    (Block.content (Spec.withContent b
                       (F ++ lit " " ++ lit "::" ++ lit " " ++ B)))
                    (F ++ [32%N]) (32%N :: B)
                  /\ Spec.pieceUpTo (lit "::") (32%N :: B) (32%N :: B))
    by (apply (written_content_cut 58%N F B); [discriminate|auto|auto]).
  assert (Hcut1 : Spec.cutAtFirst (lit ";;")
                    (Block.content (Spec.withContent b
                       (F ++ lit " " ++ lit ";;" ++ lit " " ++ B)))
                    (F ++ [32%N]) (32%N :: B)
                  /\ Spec.pieceUpTo (lit ";;") (32%N :: B) (32%N :: B))
    by (apply (written_content_cut 59%N F B); [discriminate|auto|auto]).
  assert (Hno : includes (lit "::")
                  (Block.content (Spec.withContent b
                     (F ++ lit " " ++ lit ";;" ++ lit " " ++ B))) = false).
  { apply includes_false_indexOf. cbn [Spec.withContent Block.content].
    apply (indexOf2_none_sep 58%N 58%N 32%N); [discriminate|discriminate|exact HF1|].
    change (lit ";;" ++ lit " " ++ B) with (lit ";;" ++ 32%N :: B).
    apply (indexOf2_none_sep 58%N 58%N 32%N); [discriminate|discriminate| |exact HB1].
    reflexivity. }
  split; [|split].
  - rewrite Hb'. destruct (includes (lit "::") (Block.content b)).
    + rewrite (extractBlock_two_way doc _ _ _ _ (proj1 Hcut2) (proj2 Hcut2)).
      now rewrite HtF, HtB.
    + rewrite (extractBlock_one_way doc _ _ _ _ Hno (proj1 Hcut1) (proj2 Hcut1)).
      now rewrite HtF, HtB.
  - rewrite Hb'. destruct (includes (lit "::") (Block.content b)).
    + rewrite (tableRows_two_way _ _ _ _ blocks index (proj1 Hcut2) (proj2 Hcut2)).
      now rewrite HtF, HtB.
    + rewrite (tableRows_one_way _ _ _ _ blocks index Hno (proj1 Hcut1) (proj2 Hcut1)).
      now rewrite HtF, HtB.
  - intros docs. unfold App.handleEditCard. apply Forall2_map_fun. intros d _.
    destruct (str_eqb (Document.id d) (Flashcard.docId card)); [|reflexivity].
    split; [reflexivity|]. split; [reflexivity|].
    cbn [Document.with_blocks Document.blocks]. apply Forall2_map_fun. intros x _.
    now destruct (str_eqb (Block.id x) (Flashcard.blockId card)).
Qed.

Lemma edited_card_derives_new_faces_witness :
  Flashcard.cardType Sample.cardA <> cloze
  /\ includes (lit "::") (lit "uno") = false
  /\ map Spec.face
       (CardTable.tableRows [] 0
          (App.editBlock Sample.cardA (lit "uno") (lit "1") (Sample.block "q1" "one ;; 1" 0)))
     = [ (lit "q1-fwd", lit "uno", lit "1", forward) ]
  /\ map (fun c => (Flashcard.front c, Flashcard.back c))
       (extractCards (App.handleEditCard Sample.cardA (lit "uno") (lit "1") [Sample.deck]))
     = [ (lit "uno", lit "1"); (lit "two", lit "2"); (lit "three", lit "3") ].
Proof.
  assert (Hty : Flashcard.cardType Sample.cardA <> cloze) by discriminate.
  destruct (edited_card_derives_new_faces Sample.cardA Sample.deck [] 0
              (Sample.block "q1" "one ;; 1" 0) (lit "uno") (lit "1")
              Hty eq_refl eq_refl eq_refl eq_refl) as (_ & H & _).
  split; [exact Hty|]. split; [reflexivity|]. split; [exact H|reflexivity].
Defined.

Lemma endsWith_app (d a : str) : JsText.endsWith d (a ++ d) = true.
Proof. unfold JsText.endsWith. rewrite rev_app_distr. apply is_prefix_self. Qed.

(** An occurrence of [::] or [;;] followed by a space lies at the end of a
    content whose earlier part has no such delimiter. *)
Lemma replaceFirst_at_end (p : char) (r a : str) :
  p <> 32%N -> indexOf [p; p] a = None ->
  JsText.replaceFirst [p; p; 32%N] r (a ++ [p; p; 32%N]) = a ++ r.
Proof.
  intros Hp. induction a as [|x a IH]; intros H.
  - cbn [app JsText.replaceFirst is_prefix]. rewrite !N.eqb_refl. cbn.
    now rewrite app_nil_r.
  - apply indexOf_cons_None in H as [Hx H].
    change ((x :: a) ++ [p; p; 32%N]) with (x :: (a ++ [p; p; 32%N])).
    cbn [JsText.replaceFirst].
    assert (Hn : is_prefix [p; p; 32%N] (x :: (a ++ [p; p; 32%N])) = false).
    { destruct a as [|y [|z a]]; cbn [app is_prefix] in *.
      - destruct (N.eqb_spec p x); [|reflexivity]. rewrite N.eqb_refl.
        destruct (N.eqb_spec 32 p) as [E|E]; [now symmetry in E|reflexivity].
      - destruct (p =? x)%N; [|reflexivity]. cbn in *.
        rewrite andb_true_r in Hx. now rewrite Hx.
      - destruct (p =? x)%N; [|reflexivity]. cbn in *.
        rewrite andb_true_r in Hx. now rewrite Hx. }
    rewrite Hn, (IH H). reflexivity.
Qed.

Lemma setAt_nth {A : Type} (index : nat) (x y : A) (l : list A) :
  nth_error l index = Some y ->
  nth_error (setAt index x l) index = Some x
  /\ List.length (setAt index x l) = List.length l
  /\ forall k, k <> index -> nth_error (setAt index x l) k = nth_error l k.
Proof.
  revert index. induction l as [|z l IH]; intros [|i] H; try discriminate.
  - unfold setAt. cbn. repeat split. intros [|k] Hk; [contradiction|reflexivity].
  - cbn [nth_error] in H. destruct (IH i H) as (H1 & H2 & H3).
    unfold setAt in *. cbn [firstn skipn app nth_error List.length].
    split; [exact H1|]. split; [cbn [List.length] in *; now f_equal|].
    intros [|k] Hk; [reflexivity|]. cbn [nth_error]. apply H3. congruence.
Qed.

Lemma cloze_body_no_close (seen : bool) (a t : str) :
  cloze_body seen a = false -> ~ In brace_close t ->
  cloze_body seen (a ++ t) = false.
Proof.
  revert seen. induction a as [|x a IH]; intros seen H Ht.
  - cbn [app]. clear H. revert seen. induction t as [|y t IHt]; intros seen; [reflexivity|].
    cbn [cloze_body]. destruct (N.eqb_spec y brace_close) as [E|E].
    + exfalso. apply Ht. now left.
    + apply IHt. intros Hin. apply Ht. now right.
  - cbn [app cloze_body] in *. destruct (x =? brace_close)%N; [exact H|].
    now apply IH.
Qed.

Lemma cloze_test_no_close (a t : str) :
  cloze_test a = false -> ~ In brace_close t -> cloze_test (a ++ t) = false.
Proof.
  induction a as [|x a IH]; intros H Ht.
  - cbn [app]. clear H. induction t as [|y t IHt]; [reflexivity|].
    cbn [cloze_test]. rewrite IHt by (intros Hin; apply Ht; now right).
    rewrite orb_false_r.
    assert (Hb : cloze_body false ([] ++ t) = false).
    { apply cloze_body_no_close; [reflexivity|]. intros Hin. apply Ht. now right. }
    cbn [app] in Hb. rewrite Hb. apply andb_false_r.
  - cbn [app cloze_test] in *. apply orb_false_iff in H as [H1 H2].
    rewrite (IH H2 Ht), orb_false_r.
    destruct (x =? brace_open)%N; [|reflexivity]. cbn [andb] in *.
    now apply cloze_body_no_close.
Qed.

(** X10. A content typed in the editor that ends with [::] and a space,
    with no [::] before, is stored with the arrow U+2194 in place of the
    delimiter, and the stored content has no [::]; likewise [;;] and a
    space become the arrow U+21D2. When the text typed before has no
    delimiter and no cloze span, the block stored by [handleBlockChange]
    has no row in the card table and no study card. *)
Theorem typed_delimiter_becomes_arrow (a : str) :
  (includes (lit "::") a = false ->
   Editor.replacements (a ++ lit ":: ") = a ++ JsText.arrowBoth
   /\ includes (lit "::") (a ++ JsText.arrowBoth) = false)
  /\ (includes (lit ";;") a = false ->
      Editor.replacements (a ++ lit ";; ") = a ++ JsText.arrowForward
      /\ includes (lit ";;") (a ++ JsText.arrowForward) = false)
  /\ (includes (lit "::") a = false -> includes (lit ";;") a = false ->
      cloze_test a = false ->
      forall typed, typed = a ++ lit ":: " \/ typed = a ++ lit ";; " ->
      forall doc blocks index b,
        nth_error blocks index = Some b ->
        exists blocks' b',
          Editor.handleBlockChange index typed blocks = Some blocks'
          /\ nth_error blocks' index = Some b'
          /\ (Block.content b' = a ++ JsText.arrowBoth
              \/ Block.content b' = a ++ JsText.arrowForward)
          /\ CardTable.tableRows blocks' index b' = []
          /\ extractBlock doc b' = []).
Proof.
  assert (H2 : includes (lit "::") a = false ->
               Editor.replacements (a ++ lit ":: ") = a ++ JsText.arrowBoth
               /\ includes (lit "::") (a ++ JsText.arrowBoth) = false).
  { intros Ha. apply includes_none in Ha. unfold Editor.replacements.
    assert (E1 : JsText.endsWith (lit ";; ") (a ++ lit ":: ") = false).
    { unfold JsText.endsWith. rewrite rev_app_distr. reflexivity. }
    rewrite E1, endsWith_app.
    split; [apply (replaceFirst_at_end 58%N); [discriminate|exact Ha]|].
    apply includes_false_indexOf.
    apply (indexOf2_none_sep 58%N 58%N 8596%N); [discriminate|discriminate|exact Ha|].
    reflexivity. }
  assert (H1 : includes (lit ";;") a = false ->
               Editor.replacements (a ++ lit ";; ") = a ++ JsText.arrowForward
               /\ includes (lit ";;") (a ++ JsText.arrowForward) = false).
  { intros Ha. apply includes_none in Ha. unfold Editor.replacements.
    rewrite endsWith_app.
    change (JsText.replaceFirst (lit ";; ") JsText.arrowForward (a ++ lit ";; "))
      with (JsText.replaceFirst [59%N; 59%N; 32%N] JsText.arrowForward
              (a ++ [59%N; 59%N; 32%N])).
    rewrite (replaceFirst_at_end 59%N) by (try discriminate; exact Ha).
    assert (E2 : JsText.endsWith (lit ":: ") (a ++ JsText.arrowForward) = false).
    { unfold JsText.endsWith. rewrite rev_app_distr. reflexivity. }
    rewrite E2. split; [reflexivity|].
    apply includes_false_indexOf.
    apply (indexOf2_none_sep 59%N 59%N 8658%N); [discriminate|discriminate|exact Ha|].
    reflexivity. }
  split; [exact H2|]. split; [exact H1|].
  intros Ha2 Ha1 Hc typed Hty doc blocks index b Hb.
  assert (Hfree : forall arrow, arrow = 8596%N \/ arrow = 8658%N ->
            includes (lit "::") (a ++ [arrow; 32%N]) = false
            /\ includes (lit ";;") (a ++ [arrow; 32%N]) = false
            /\ cloze_test (a ++ [arrow; 32%N]) = false).
  { intros arrow Harr. apply includes_none in Ha2, Ha1. split; [|split].
    - apply includes_false_indexOf.
      apply (indexOf2_none_sep 58%N 58%N arrow);
        [destruct Harr; subst; discriminate|destruct Harr; subst; discriminate
        |exact Ha2|reflexivity].
    - apply includes_false_indexOf.
      apply (indexOf2_none_sep 59%N 59%N arrow);
        [destruct Harr; subst; discriminate|destruct Harr; subst; discriminate
        |exact Ha1|reflexivity].
    - apply cloze_test_no_close; [exact Hc|].
      intros [E|[E|[]]]; destruct Harr; subst; discriminate. }
  assert (Hnone : forall bl i x,
            includes (lit "::") (Block.content x) = false ->
            includes (lit ";;") (Block.content x) = false ->
            cloze_test (Block.content x) = false ->
            CardTable.tableRows bl i x = [] /\ extractBlock doc x = []).
  { intros bl i x E1 E2 E3. unfold CardTable.tableRows, extractBlock.
    rewrite E1, E2, E3. now destruct (orFalse _). }
  assert (Hnew : exists arrow, (arrow = 8596%N \/ arrow = 8658%N)
                               /\ Editor.replacements typed = a ++ [arrow; 32%N]).
  { destruct Hty as [-> | ->].
    - exists 8596%N. split; [now left|apply (H2 Ha2)].
    - exists 8658%N. split; [now right|apply (H1 Ha1)]. }
  destruct Hnew as (arrow & Harr & Hnew).
  destruct (Hfree arrow Harr) as (F1 & F2 & F3).
  unfold Editor.handleBlockChange. rewrite Hb, Hnew.
  destruct (str_eqb (Block.content b) (a ++ [arrow; 32%N])) eqn:E; cbn [negb].
  - apply str_eqb_eq in E. exists blocks, b. split; [reflexivity|]. split; [exact Hb|].
    split; [destruct Harr; subst arrow; auto|].
    apply Hnone; now rewrite E.
  - destruct (setAt_nth index (Spec.withContent b (a ++ [arrow; 32%N])) b blocks Hb)
      as (Hn & _).
    eexists. eexists. split; [reflexivity|]. split; [exact Hn|].
    split; [destruct Harr; subst arrow; auto|].
    apply Hnone; assumption.
Qed.

Lemma typed_delimiter_becomes_arrow_witness :
  includes (lit "::") (lit "question ") = false
  /\ Editor.replacements (lit "question :: ") = lit "question " ++ JsText.arrowBoth
  /\ option_map (map Block.content)
       (Editor.handleBlockChange 0 (lit "question :: ") [Sample.block "n1" "question ::" 0])
     = Some [lit "question " ++ JsText.arrowBoth]
  /\ CardTable.tableData
       [Spec.withContent (Sample.block "n1" "" 0)
          (lit "question " ++ JsText.arrowBoth ++ lit "answer")] = [].
Proof.
  assert (Hi : includes (lit "::") (lit "question ") = false) by reflexivity.
  destruct (typed_delimiter_becomes_arrow (lit "question ")) as (H & _).
  split; [exact Hi|]. split; [exact (proj1 (H Hi))|]. split; reflexivity.
Defined.

(** X13. Formatting a selection only puts the two marks around it: the
    text before, the selection and the text after are those of the block.
    The cloze format on a non-empty selection without closing brace gives
    a content with a cloze span. *)
Theorem applyFormat_wraps_selection
    (formatType : Editor.FormatType) (colorValue : option str)
    (start end_ : nat) (text : str) :
  start <= end_ -> end_ <= List.length text ->
  let selection := firstn (end_ - start) (skipn start text) in
  Editor.applyFormat formatType colorValue start end_ text
  = firstn start text ++ fst (Editor.formatMarks formatType colorValue)
    ++ selection ++ snd (Editor.formatMarks formatType colorValue) ++ skipn end_ text
  /\ firstn start text ++ selection ++ skipn end_ text = text
  /\ (start < end_ -> ~ In brace_close selection ->
      cloze_test (Editor.applyFormat Editor.format_cloze colorValue start end_ text) = true).
Proof.
  intros Hse Hel selection.
  assert (Hgen : forall f,
            Editor.applyFormat f colorValue start end_ text
            = firstn start text ++ fst (Editor.formatMarks f colorValue)
              ++ selection ++ snd (Editor.formatMarks f colorValue) ++ skipn end_ text).
  { intros f. unfold Editor.applyFormat, JsText.substring, JsText.substringFrom.
    destruct (Editor.formatMarks f colorValue) as [pre suf]. cbn [fst snd].
    rewrite (Nat.min_l start), (Nat.min_l end_), Nat.min_0_l by lia.
    rewrite (Nat.max_r start end_), (Nat.min_l start end_) by lia.
    rewrite Nat.max_r, Nat.min_l, Nat.sub_0_r by lia. reflexivity. }
  split; [apply Hgen|]. split.
  - subst selection.
    rewrite <- (firstn_skipn start text) at 4.
    f_equal. rewrite <- (firstn_skipn (end_ - start) (skipn start text)) at 2.
    f_equal. rewrite skipn_skipn. f_equal. lia.
  - intros Hlt Hno. rewrite Hgen. cbn [Editor.formatMarks fst snd].
    assert (Hsel : selection <> []).
    { subst selection. intros E. apply (f_equal (@List.length _)) in E.
      rewrite length_firstn, length_skipn in E. cbn in E. lia. }
    assert (Hpre : forall x y, cloze_test y = true -> cloze_test (x ++ y) = true).
    { intros x y Hy. induction x as [|c x IH]; [exact Hy|].
      cbn [app cloze_test]. rewrite IH. apply orb_true_r. }
    apply Hpre. change (lit "{" ++ selection ++ lit "}" ++ skipn end_ text)
      with (brace_open :: selection ++ brace_close :: skipn end_ text).
    cbn [cloze_test]. change ((brace_open =? brace_open)%N) with true. cbn [andb].
    assert (Hbody : forall sel seen rest,
              ~ In brace_close sel ->
              cloze_body seen (sel ++ brace_close :: rest)
              = (seen || match sel with [] => false | _ => true end)).
    { induction sel as [|c sel IH]; intros seen rest Hn.
      - cbn. now rewrite orb_false_r.
      - cbn [app cloze_body]. destruct (N.eqb_spec c brace_close) as [E|E].
        + exfalso. apply Hn. now left.
        + rewrite IH by (intros Hin; apply Hn; now right). cbn. now rewrite orb_true_r. }
    rewrite Hbody by exact Hno. destruct selection; [contradiction|reflexivity].
Qed.

Lemma applyFormat_wraps_selection_witness :
  4 <= 16 /\ 16 <= List.length (lit "The mitochondria is")
  /\ Editor.applyFormat Editor.format_cloze None 4 16 (lit "The mitochondria is")
     = lit "The {mitochondria} is"
  /\ cloze_test (Editor.applyFormat Editor.format_cloze None 4 16 (lit "The mitochondria is"))
     = true.
Proof.
  assert (H1 : 4 <= 16) by lia.
  assert (H2 : 16 <= List.length (lit "The mitochondria is")) by (vm_compute; lia).
  destruct (applyFormat_wraps_selection Editor.format_cloze None 4 16
              (lit "The mitochondria is") H1 H2) as (_ & _ & H).
  split; [lia|]. split; [vm_compute; lia|]. split; [reflexivity|].
  apply H; [lia|]. vm_compute. intros Hin.
  repeat (destruct Hin as [Hin|Hin]; [discriminate Hin|]). exact Hin.
Defined.

(* ================================================================== *)
(** * The import of generated notes *)
(* ================================================================== *)

Lemma trimStart_suffix (s : str) : exists pre, s = pre ++ trimStart s.
Proof.
  induction s as [|c s [pre IH]]; [now exists []|].
  cbn [trimStart]. destruct (is_ws c).
  - exists (c :: pre). cbn [app]. now f_equal.
  - now exists [].
Qed.

Lemma cleanMarker_suffix (s : str) : exists pre, s = pre ++ NoteImport.cleanMarker s.
Proof.
  destruct s as [|c s]; [now exists []|]. cbn [NoteImport.cleanMarker].
  destruct (NoteImport.isMarker c).
  - destruct (trimStart_suffix s) as [pre E]. exists (c :: pre). cbn [app]. now f_equal.
  - now exists [].
Qed.

Lemma cleanMarker_trimmed (s : str) :
  trimStart s = s -> trimStart (NoteImport.cleanMarker s) = NoteImport.cleanMarker s.
Proof.
  destruct s as [|c s]; [reflexivity|]. cbn [NoteImport.cleanMarker].
  destruct (NoteImport.isMarker c); [intros _; apply trimStart_involutive|auto].
Qed.

Lemma levelOf_bound (line : str) : (NoteImport.levelOf line <= 2)%N.
Proof.
  unfold NoteImport.levelOf.
  destruct (is_prefix (lit "        ") line || is_prefix [9%N; 9%N] line);
    destruct (is_prefix (lit "    ") line || is_prefix [9%N] line); lia.
Qed.

Lemma includes_one_card (doc : Document.t) (b : Block.t) :
  includes (lit "::") (Block.content b) = true -> Block.srsData b = None ->
  exists c, extractBlock doc b = [c] /\ Flashcard.cardType c = forward
            /\ Flashcard.status c = status_new.
Proof.
  intros Hi Hs.
  destruct (includes_pieces (lit "::") (Block.content b) Hi) as (a & rest & p & Ha & Hp).
  rewrite (extractBlock_two_way doc b a rest p Ha Hp).
  unfold srsOrDefault. rewrite Hs. cbn. eauto.
Qed.

(** X22. The blocks made of a generated text: one block for each
    non-blank line, in order, with the generated ids; each at a level of
    at most 2, without study record, with a content that is the end of its
    line and starts with no white space, and flagged as a flashcard
    exactly when its content has [::]; a flagged block gives exactly one
    study card, a new forward card. *)
Theorem imported_blocks_follow_lines (genId : nat -> str) (text : str) :
  let lines := NoteImport.linesOf text in
  let blocks := NoteImport.blocksOfText genId text in
  map Block.id blocks = map genId (seq 0 (List.length lines))
  /\ Forall (fun line => trim line <> []) lines
  /\ Forall2 (fun line b =>
                (Block.level b <= 2)%N
                /\ Block.srsData b = None
                /\ (exists pre, line = pre ++ Block.content b)
                /\ trimStart (Block.content b) = Block.content b
                /\ Block.isFlashcard b = Some (includes (lit "::") (Block.content b))
                /\ (Block.isFlashcard b = Some true ->
                    forall doc, exists c,
                      extractBlock doc b = [c] /\ Flashcard.cardType c = forward
                      /\ Flashcard.status c = status_new))
             lines blocks.
Proof.
  intros lines blocks. subst lines blocks. unfold NoteImport.blocksOfText.
  set (lines := NoteImport.linesOf text).
  assert (Hgen : forall (l : list str) k,
            map Block.id (map (fun kl => NoteImport.blockOfLine (genId (fst kl)) (snd kl))
                              (combine (seq k (List.length l)) l))
            = map genId (seq k (List.length l))
            /\ Forall2 (fun line b =>
                (Block.level b <= 2)%N
                /\ Block.srsData b = None
                /\ (exists pre, line = pre ++ Block.content b)
                /\ trimStart (Block.content b) = Block.content b
                /\ Block.isFlashcard b = Some (includes (lit "::") (Block.content b))
                /\ (Block.isFlashcard b = Some true ->
                    forall doc, exists c,
                      extractBlock doc b = [c] /\ Flashcard.cardType c = forward
                      /\ Flashcard.status c = status_new))
                 l (map (fun kl => NoteImport.blockOfLine (genId (fst kl)) (snd kl))
                        (combine (seq k (List.length l)) l))).
  { induction l as [|line l IH]; intros k; [split; [reflexivity|constructor]|].
    cbn [List.length seq combine map fst snd]. destruct (IH (S k)) as [I1 I2].
    split; [now rewrite I1|]. constructor; [|exact I2].
    unfold NoteImport.blockOfLine. cbn [Block.level Block.srsData Block.content Block.isFlashcard].
    split; [apply levelOf_bound|]. split; [reflexivity|]. split.
    { destruct (trimStart_suffix line) as [p1 E1].
      destruct (cleanMarker_suffix (trimStart line)) as [p2 E2].
      exists (p1 ++ p2). rewrite <- app_assoc, <- E2. exact E1. }
    split; [apply cleanMarker_trimmed, trimStart_involutive|].
    split; [reflexivity|]. intros [= Hi] doc.
    apply includes_one_card; [exact Hi|reflexivity]. }
  destruct (Hgen lines 0) as [G1 G2]. split; [exact G1|]. split; [|exact G2].
  apply Forall_forall. intros line Hin. apply filter_In in Hin as [_ Ht].
  intros E. rewrite E in Ht. discriminate.
Qed.

Lemma imported_blocks_follow_lines_witness :
  map (fun b => (Block.level b, Block.isFlashcard b))
      (NoteImport.blocksOfText (fun _ => lit "id")
         (lit "Topic" ++ [10%N] ++ lit "    - Sun :: star" ++ [10%N; 10%N]))
  = [(0%N, Some false); (1%N, Some true)]
  /\ Forall (fun b => trimStart (Block.content b) = Block.content b)
       (NoteImport.blocksOfText (fun _ => lit "id")
          (lit "Topic" ++ [10%N] ++ lit "    - Sun :: star" ++ [10%N; 10%N])).
Proof.
  split; [reflexivity|].
  destruct (imported_blocks_follow_lines (fun _ => lit "id")
              (lit "Topic" ++ [10%N] ++ lit "    - Sun :: star" ++ [10%N; 10%N]))
    as (_ & _ & H).
  induction H as [|line b lines blocks Hb _ IH]; constructor; [|exact IH].
  now destruct Hb as (_ & _ & _ & Ht & _).
Defined.

(* ================================================================== *)
(** * The keys of the editor and the outline *)
(* ================================================================== *)














(* ================================================================== *)
(** * The queue and the state of a session *)
(* ================================================================== *)

Section SessionFrame.

Import StudySession.

(** The three cases of [requeue] are one insertion. *)
Lemma requeue_insertion (c : Flashcard.t) (pos : nat) (q : list Flashcard.t) :
  requeue c pos q = firstn (pos + 1) q ++ c :: skipn (pos + 1) q.
Proof.
  destruct (Nat.lt_ge_cases pos (List.length q)) as [H|H].
  - apply requeue_within, H.
  - rewrite (proj1 (requeue_beyond c pos q H)).
    rewrite firstn_all2, skipn_all2 by lia. reflexivity.
Qed.

Lemma requeue_permutation (c : Flashcard.t) (pos : nat) (q : list Flashcard.t) :
  Permutation (requeue c pos q) (c :: q).
Proof.
  rewrite requeue_insertion. symmetry.
  rewrite <- (firstn_skipn (pos + 1) q) at 1. apply Permutation_middle.
Qed.

(** X14. Putting a card back is one insertion, right behind the position
    read from the ref, or at the end of a queue that is not longer than
    that: the queue gains the card and loses none, the cards up to the
    position stay where they are, and the cards behind it move one place
    on. *)
Theorem requeue_is_insertion (c : Flashcard.t) (pos : nat) (q : list Flashcard.t) :
  requeue c pos q = firstn (pos + 1) q ++ c :: skipn (pos + 1) q
  /\ Permutation (requeue c pos q) (c :: q)
  /\ List.length (requeue c pos q) = S (List.length q)
  /\ nth_error (requeue c pos q) (Nat.min (pos + 1) (List.length q)) = Some c
  /\ (forall k, k <= pos -> k < List.length q ->
                nth_error (requeue c pos q) k = nth_error q k)
  /\ (forall k, pos < k -> nth_error (requeue c pos q) (S k) = nth_error q k).
Proof.
  split; [apply requeue_insertion|]. split; [apply requeue_permutation|].
  rewrite requeue_insertion.
  assert (Hf : List.length (firstn (pos + 1) q) = Nat.min (pos + 1) (List.length q))
    by apply length_firstn.
  split; [|split; [|split]].
  - rewrite length_app. cbn [List.length]. rewrite Hf, length_skipn. lia.
  - rewrite nth_error_app2 by lia. rewrite Hf, Nat.sub_diag. reflexivity.
  - intros k Hk Hl. rewrite nth_error_app1 by lia. rewrite nth_error_firstn.
    destruct (Nat.ltb_spec k (pos + 1)); [reflexivity|lia].
  - intros k Hk. destruct (Nat.lt_ge_cases k (List.length q)) as [H|H].
    + rewrite nth_error_app2 by lia. rewrite Hf.
      replace (S k - Nat.min (pos + 1) (List.length q))
        with (S (k - (pos + 1))) by lia.
      cbn [nth_error]. rewrite nth_error_skipn. f_equal. lia.
    + transitivity (@None Flashcard.t); [|symmetry; now apply nth_error_None].
      apply nth_error_None. rewrite length_app. cbn [List.length].
      rewrite Hf, length_skipn. lia.
Qed.

Lemma autoPlayEffect_frame (s : t) :
  documents (autoPlayEffect s) = documents s
  /\ settings (autoPlayEffect s) = settings s
  /\ mode (autoPlayEffect s) = mode s
  /\ originalQueue (autoPlayEffect s) = originalQueue s
  /\ queue (autoPlayEffect s) = queue s
  /\ currentIndex (autoPlayEffect s) = currentIndex s
  /\ missedCards (autoPlayEffect s) = missedCards s
  /\ now (autoPlayEffect s) = now s
  /\ mounted (autoPlayEffect s) = mounted s
  /\ nextHandle s <= nextHandle (autoPlayEffect s).
Proof.
  unfold autoPlayEffect.
  destruct (autoPlayRef s) as [h|];
    match goal with
    | |- context [if ?c then _ else _] => destruct c
    end;
    try match goal with
    | |- context [if ?c then _ else _] => destruct c
    end; cbn; repeat split; lia.
Qed.

Lemma commit_frame (prev next : t) :
  documents (commit prev next) = documents next
  /\ settings (commit prev next) = settings next
  /\ mode (commit prev next) = mode next
  /\ originalQueue (commit prev next) = originalQueue next
  /\ queue (commit prev next) = queue next
  /\ currentIndex (commit prev next) = currentIndex next
  /\ missedCards (commit prev next) = missedCards next
  /\ now (commit prev next) = now next
  /\ mounted (commit prev next) = mounted next
  /\ nextHandle next <= nextHandle (commit prev next).
Proof.
  unfold commit.
  destruct (negb (currentIndex prev =? _) || _);
    destruct (_ || _ || _ || _);
    try (match goal with
         | |- context [autoPlayEffect ?x] =>
             destruct (autoPlayEffect_frame x)
               as (B1 & B2 & B3 & B4 & B5 & B6 & B7 & B8 & B9 & B10)
         end; cbn in *; repeat split; try congruence; lia);
    cbn; repeat split; lia.
Qed.

(** Every branch of [handleNextCard] moves the position on. *)
Lemma handleNextCard_moves_on (i n : nat) (s : t) :
  handleNextCard i n s = setCurrentIndex (fun _ => i + 1) s.
Proof. unfold handleNextCard. destruct (i <? n - 1); [reflexivity|now destruct (mode s)]. Qed.

(** One event: what it leaves alone, and what only a rating writes. *)
Lemma step_frame (e : Event) (s s' : t) :
  step e s = Some s' ->
  settings s' = settings s /\ mode s' = mode s /\ originalQueue s' = originalQueue s
  /\ (now s <= now s')%Z /\ nextHandle s <= nextHandle s'
  /\ ((forall rating, e <> Rate rating) -> documents s' = documents s)
  /\ (mode s = flashcards -> documents s' = documents s).
Proof.
  destruct e; cbn [step].
  - (* Rate *)
    destruct (mounted s); cbn [negb]; [|discriminate].
    destruct (offered (mode s) rating) eqn:Ho; cbn [andb]; [|discriminate].
    destruct (endScreen s); cbn [negb]; [discriminate|]. intros [= <-].
    match goal with
    | |- context [commit s ?x] =>
        destruct (commit_frame s x) as (? & ? & ? & ? & ? & ? & ? & ? & ? & ?)
    end.
    assert (F : settings (handleRate rating s) = settings s
                /\ mode (handleRate rating s) = mode s
                /\ originalQueue (handleRate rating s) = originalQueue s
                /\ now (handleRate rating s) = now s
                /\ nextHandle s <= nextHandle (handleRate rating s)).
    { unfold handleRate. destruct (currentCard s); [|repeat split; lia].
      destruct (isFail rating); cbn; repeat split; lia. }
    destruct F as (F1 & F2 & F3 & F4 & F5).
    repeat split; try congruence; try lia.
    + intros Hr. now contradiction (Hr rating).
    + intros Hm. rewrite Hm in Ho. discriminate.
  - destruct (mounted s); cbn [negb]; [|discriminate].
    destruct (_ && _); [|discriminate]. intros [= <-].
    match goal with
    | |- context [commit s ?x] =>
        destruct (commit_frame s x) as (? & ? & ? & ? & ? & ? & ? & ? & ? & ?)
    end. cbn in *. repeat split; try congruence; lia.
  - destruct (mounted s); cbn [negb]; [|discriminate].
    destruct (_ && _); [|discriminate]. intros [= <-].
    match goal with
    | |- context [commit s ?x] =>
        destruct (commit_frame s x) as (? & ? & ? & ? & ? & ? & ? & ? & ? & ?)
    end. cbn in *. repeat split; try congruence; lia.
  - destruct (mounted s); cbn [negb]; [|discriminate].
    destruct (_ && _ && _); [|discriminate]. intros [= <-].
    match goal with
    | |- context [commit s ?x] =>
        destruct (commit_frame s x) as (? & ? & ? & ? & ? & ? & ? & ? & ? & ?)
    end. cbn in *. repeat split; try congruence; lia.
  - destruct (mounted s); cbn [negb]; [|discriminate].
    destruct (_ && _); [|discriminate]. intros [= <-].
    match goal with
    | |- context [commit s ?x] =>
        destruct (commit_frame s x) as (? & ? & ? & ? & ? & ? & ? & ? & ? & ?)
    end. unfold handleCardAction in *.
    destruct (currentCard s); [destruct direction|]; cbn in *;
      repeat split; try congruence; lia.
  - destruct (mounted s); cbn [negb]; [|discriminate].
    destruct (_ && _); [|discriminate]. intros [= <-].
    match goal with
    | |- context [commit s ?x] =>
        destruct (commit_frame s x) as (? & ? & ? & ? & ? & ? & ? & ? & ? & ?)
    end. destruct (isPlaying s); cbn in *;
      repeat split; try congruence; lia.
  - destruct (mounted s); cbn [negb]; [|discriminate].
    destruct (_ && _); [|discriminate]. intros [= <-].
    match goal with
    | |- context [commit s ?x] =>
        destruct (commit_frame s x) as (? & ? & ? & ? & ? & ? & ? & ? & ? & ?)
    end. cbn in *. repeat split; try congruence; lia.
  - destruct (mounted s); cbn [negb]; [|discriminate].
    destruct (_ && _); [|discriminate]. intros [= <-].
    match goal with
    | |- context [commit s ?x] =>
        destruct (commit_frame s x) as (? & ? & ? & ? & ? & ? & ? & ? & ? & ?)
    end. cbn in *. repeat split; try congruence; lia.
  - destruct (mounted s); cbn [negb]; [|discriminate]. intros [= <-].
    unfold close. destruct (autoPlayRef s); cbn; repeat split; lia.
  - destruct (Z.leb_spec 0 dt); [|discriminate]. intros [= <-]. cbn.
    repeat split; lia.
  - destruct (find _ (timers s)) as [tm|]; [|discriminate].
    destruct (fireable tm s); [|discriminate].
    destruct (mounted s); intros [= <-]; [|cbn; repeat split; lia].
    match goal with
    | |- context [commit s ?x] =>
        destruct (commit_frame s x) as (? & ? & ? & ? & ? & ? & ? & ? & ? & ?)
    end. unfold fireAction, handleCardAction, handleFlip in *.
    rewrite ?handleNextCard_moves_on in *.
    destruct (action tm) as [c|f|[c|] i n|i n]; rewrite ?handleNextCard_moves_on in *;
      cbn in *; repeat split; try congruence; lia.
Qed.

(** X16. In every run of the events of [Event], the cards the session
    was mounted on, its mode and its settings stay, the clock and the
    timer handles do not go back, and the documents are written by the
    rating events only. A swipe session offers no rating: swiping,
    flipping, playing and restarting leave every document as it is.
    Editing a card is not an event of [Event]. *)
Theorem only_ratings_write_documents (es : list Event) (s s' : t) :
  run es s = Some s' ->
  settings s' = settings s /\ mode s' = mode s /\ originalQueue s' = originalQueue s
  /\ (now s <= now s')%Z /\ nextHandle s <= nextHandle s'
  /\ ((forall rating, ~ In (Rate rating) es) -> documents s' = documents s)
  /\ (mode s = flashcards -> documents s' = documents s).
Proof.
  revert s. induction es as [|e es IH]; intros s.
  - intros [= <-]. repeat split; lia.
  - cbn [run]. destruct (step e s) as [s1|] eqn:E; [|discriminate]. intros Hr.
    destruct (step_frame e s s1 E) as (A1 & A2 & A3 & A4 & A5 & A6 & A7).
    destruct (IH s1 Hr) as (B1 & B2 & B3 & B4 & B5 & B6 & B7).
    repeat split; try congruence; try lia.
    + intros Hn. rewrite B6, A6; [reflexivity| |].
      * intros rating ->. apply (Hn rating). now left.
      * intros rating Hin. apply (Hn rating). now right.
    + intros Hm. rewrite B7, A7; congruence.
Qed.

Lemma only_ratings_write_documents_witness :
  run [CardAction swipe_left; Tick 300; Fire 1; FlipClick] Sample.swipe3 <> None
  /\ forall s', run [CardAction swipe_left; Tick 300; Fire 1; FlipClick] Sample.swipe3 = Some s' ->
                documents s' = [Sample.deck] /\ missedCards s' = [lit "q1_fwd"].
Proof.
  split; [vm_compute; discriminate|].
  intros s' H.
  destruct (only_ratings_write_documents _ _ _ H) as (_ & _ & _ & _ & _ & _ & Hd).
  split; [exact (Hd eq_refl)|].
  vm_compute in H. injection H as <-. reflexivity.
Defined.

End SessionFrame.

Section RatingInvariant.

Import StudySession SessionSpec.

Lemma in_insertion {A : Type} (n : nat) (x y : A) (l : list A) :
  In y (firstn n l ++ x :: skipn n l) <-> y = x \/ In y l.
Proof.
  rewrite in_app_iff. cbn [In].
  assert (H : In y l <-> In y (firstn n l) \/ In y (skipn n l))
    by (rewrite <- in_app_iff, firstn_skipn; reflexivity).
  rewrite H. intuition congruence.
Qed.

Lemma rating_mode_not_flashcards (m : Mode) (s : t) :
  m <> flashcards -> mode s = m -> isFlashcards s = false.
Proof. unfold isFlashcards. intros Hm ->. destruct m; try reflexivity. now contradiction Hm. Qed.

(** One event keeps what holds of a session in a rating mode. *)
Lemma ratingSession_step (cards : list Flashcard.t) (m : Mode) (e : Event) (s s' : t) :
  m <> flashcards -> ratingSession cards m s -> step e s = Some s' ->
  ratingSession cards m s'.
Proof.
  intros Hm (I1 & I2 & I3 & I4 & I5 & I6 & I7 & I8 & I9 & I10) Hs.
  pose proof (rating_mode_not_flashcards m s Hm I1) as Hf.
  destruct e; pose proof Hs as Hs0; cbn [step] in Hs; try rewrite Hf in Hs.
  - (* Rate *)
    destruct (mounted s) eqn:Hmo; cbn [negb] in Hs; [|discriminate].
    destruct (offered (mode s) rating) eqn:Ho; cbn [andb] in Hs; [|discriminate].
    destruct (endScreen s) eqn:He; cbn [negb] in Hs; [discriminate|].
    unfold endScreen in He. destruct (currentCard s) as [card|] eqn:Hc; [|discriminate].
    apply Nat.leb_gt in He.
    destruct (step_rate s rating card Hmo Ho I4 Hc) as [b Hb].
    rewrite Hb in Hs0. injection Hs0 as <-.
    assert (Hcard : In card cards).
    { apply I8. unfold currentCard in Hc. now apply nth_error_In in Hc. }
    destruct (isFail rating) eqn:Hr.
    + rewrite (handleRate_fail s rating card Hr Hc). unfold ratingSession. cbn.
      repeat split; try assumption; try lia; try apply I8.
      intros tm Hin. apply in_app_or in Hin as [Hin|[<-|[]]]; [now apply I9|].
      cbn. eauto.
    + rewrite (handleRate_pass s rating card Hr Hc). unfold ratingSession. cbn.
      repeat split; try assumption; try lia; try apply I8.
  - (* RestartSession *)
    destruct (mounted s) eqn:Hmo; cbn [negb] in Hs; [|discriminate].
    destruct (endScreen s); cbn [andb] in Hs; [|discriminate]. injection Hs as <-.
    destruct (commit_rating_mode s (handleRestartSession s) Hf I4) as [b ->].
    unfold ratingSession. cbn. repeat split; try assumption; try lia; try apply I8.
  - destruct (mounted s); cbn in Hs; discriminate.
  - destruct (mounted s); cbn in Hs; discriminate.
  - destruct (mounted s); cbn in Hs; discriminate.
  - destruct (mounted s); cbn in Hs; discriminate.
  - destruct (mounted s); cbn in Hs; discriminate.
  - destruct (mounted s); cbn in Hs; discriminate.
  - (* Close *)
    destruct (mounted s); cbn [negb] in Hs; [|discriminate]. injection Hs as <-.
    unfold close. rewrite I4. unfold ratingSession. cbn.
    repeat split; try assumption; try apply I8. discriminate.
  - (* Tick *)
    destruct (0 <=? dt)%Z; [|discriminate]. injection Hs as <-.
    unfold ratingSession. cbn. repeat split; try assumption; try apply I8.
  - (* Fire *)
    destruct (find _ (timers s)) as [tm|] eqn:Hfind; [|discriminate].
    destruct (fireable tm s) eqn:Hfire; [|discriminate].
    assert (Hkeep : forall tm', In tm' (timers (clearTimeout h s)) ->
                      exists c, action tm' = Requeue c /\ In c cards).
    { intros tm' Hin. cbn in Hin. apply filter_In in Hin as [Hin _]. now apply I9. }
    destruct (mounted s) eqn:Hmo.
    + destruct (I9 tm) as (c & Hact & Hc); [apply (find_some _ _ Hfind)|].
      destruct (step_fire s h tm Hmo Hf I4 Hfind Hfire c Hact) as [b Hb].
      rewrite Hb in Hs0. injection Hs0 as <-. unfold ratingSession. cbn.
      rewrite requeue_insertion. rewrite length_app. cbn [List.length].
      rewrite length_firstn, length_skipn.
      repeat split; try assumption; try lia.
      * intros Hin. apply in_insertion in Hin as [->|Hin]; [exact Hc|now apply I8].
      * intros Hin. apply in_insertion. right. now apply I8.
    + injection Hs as <-. unfold ratingSession. cbn.
      repeat split; try assumption; try apply I8. rewrite Hmo. exact I10.
Qed.

(** X15. A session of a rating mode, after any run of the events of
    [Event] (ratings, the restart button, closing, the clock, timers
    firing; the events of a swipe session are refused): the queue always
    has the cards the session was mounted on and no other card, a card
    put back being one of them; the position is at most the length of the
    queue; every pending timer of the state puts back a card of the
    session; nothing is played automatically or marked as missed. Going
    back, skipping and editing a card are not events of [Event]. *)
Theorem rating_session_keeps_its_cards
    (cards : list Flashcard.t) (docs : list Document.t) (settings : AppSettings.t)
    (m : Mode) (now : Z) (es : list Event) (s : t) :
  m <> flashcards ->
  run es (start cards docs settings m now) = Some s ->
  ratingSession cards m s.
Proof.
  intros Hm.
  assert (H0 : ratingSession cards m (start cards docs settings m now)).
  { unfold ratingSession. cbn. repeat split; try lia; auto; try contradiction. }
  revert H0. generalize (start cards docs settings m now).
  induction es as [|e es IH]; intros s0 H0.
  - now intros [= <-].
  - cbn [run]. destruct (step e s0) as [s1|] eqn:E; [|discriminate].
    apply IH. exact (ratingSession_step cards m e s0 s1 Hm H0 E).
Qed.

Lemma rating_session_keeps_its_cards_witness :
  spaced <> flashcards
  /\ run [Rate (study AGAIN); Tick 2000; Fire 1; Rate (study GOOD)] Sample.session3 <> None
  /\ forall s,
       run [Rate (study AGAIN); Tick 2000; Fire 1; Rate (study GOOD)] Sample.session3 = Some s ->
       ratingSession (extractCards [Sample.deck]) spaced s.
Proof.
  split; [discriminate|]. split; [vm_compute; discriminate|].
  intros s H.
  apply (rating_session_keeps_its_cards (extractCards [Sample.deck]) [Sample.deck]
           Sample.settings spaced 1000
           [Rate (study AGAIN); Tick 2000; Fire 1; Rate (study GOOD)]);
    [discriminate|exact H].
Defined.

End RatingInvariant.

(* ================================================================== *)
(** * Starting a session: selection and shuffle *)
(* ================================================================== *)

Lemma setAt_permutation {A : Type} (i : nat) (x y : A) (l : list A) :
  nth_error l i = Some x ->
  Permutation (y :: l) (x :: setAt i y l).
Proof.
  revert i. induction l as [|z l IH]; intros [|i] H; try discriminate.
  - injection H as ->. unfold setAt. cbn. apply perm_swap.
  - cbn [nth_error] in H. specialize (IH i H). unfold setAt in *.
    cbn [firstn skipn app].
    eapply perm_trans; [apply perm_swap|].
    eapply perm_trans; [apply perm_skip, IH|]. apply perm_swap.
Qed.

Lemma swap_permutation {A : Type} (i j : nat) (l : list A) :
  Permutation (swap i j l) l.
Proof.
  unfold swap. destruct (nth_error l i) as [x|] eqn:Hi; [|reflexivity].
  destruct (nth_error l j) as [y|] eqn:Hj; [|reflexivity].
  change (Permutation (setAt j x (setAt i y l)) l).
  assert (Hj' : nth_error (setAt i y l) j = Some y).
  { destruct (setAt_nth i y x l Hi) as (H1 & _ & H3).
    destruct (Nat.eq_dec j i) as [->|Hne]; [exact H1|]. now rewrite H3. }
  pose proof (setAt_permutation i x y l Hi) as P1.
  pose proof (setAt_permutation j y x (setAt i y l) Hj') as P2.
  apply (Permutation_cons_inv (a := y)). symmetry.
  eapply perm_trans; [exact P1|exact P2].
Qed.

Lemma shuffle_from_permutation {A : Type} (rand : nat -> nat) (i : nat) (cards : list A) :
  Permutation (shuffle_from rand i cards) cards.
Proof.
  revert cards. induction i as [|i IH]; intros cards; [reflexivity|].
  cbn [shuffle_from]. rewrite IH. apply swap_permutation.
Qed.

(** X17. A session starts on the cards selected, each exactly once, in
    whatever order the random numbers give: the shuffle loses and repeats
    no card. In mode [order] the cards keep the order of the documents.
    No session starts exactly when no card is selected. The shuffle
    button of a swipe session likewise only reorders the queue, and goes
    back to its first card; in the other modes it does nothing. *)
Theorem session_starts_on_selected_cards
    (rand : nat -> nat) (documents : list Document.t) (activeDocId : option str)
    (mode : Mode) (specificCardIds : option (list str)) :
  let selected := selectCards (docsToStudy mode documents activeDocId) specificCardIds in
  (selected = [] <->
   handleStartStudy rand documents activeDocId mode specificCardIds = None)
  /\ (forall cards,
        handleStartStudy rand documents activeDocId mode specificCardIds = Some cards ->
        Permutation cards selected
        /\ (mode = mode_order -> cards = selected))
  /\ (forall s : StudySession.t,
        Permutation (StudySession.queue (SessionHandlers.handleShuffle rand s))
                    (StudySession.queue s)
        /\ (StudySession.mode s = flashcards ->
            StudySession.currentIndex (SessionHandlers.handleShuffle rand s) = 0)
        /\ (StudySession.mode s <> flashcards ->
            SessionHandlers.handleShuffle rand s = s)).
Proof.
  intros selected. unfold handleStartStudy. fold selected.
  split; [|split].
  - destruct selected as [|c l]; cbn; [tauto|].
    split; [discriminate|]. now destruct mode.
  - intros cards. destruct (List.length selected =? 0); [discriminate|].
    destruct mode; intros [= <-]; (split; [|try discriminate; reflexivity]);
      try apply shuffle_from_permutation; reflexivity.
  - intros s. unfold SessionHandlers.handleShuffle, StudySession.isFlashcards.
    destruct (StudySession.mode s); cbn; repeat split; try reflexivity;
      try discriminate; try apply shuffle_from_permutation;
      intros H; now contradiction H.
Qed.

Lemma session_starts_on_selected_cards_witness :
  exists cards,
    handleStartStudy (fun i => i + 1) [Sample.deck] None spaced None = Some cards
    /\ Permutation cards (extractCards [Sample.deck])
    /\ handleStartStudy (fun i => i + 1) [Sample.doc "e" []] None spaced None = None.
Proof.
  destruct (handleStartStudy (fun i => i + 1) [Sample.deck] None spaced None)
    as [cards|] eqn:E; [|vm_compute in E; discriminate].
  exists cards. split; [reflexivity|].
  destruct (session_starts_on_selected_cards (fun i => i + 1) [Sample.deck] None spaced None)
    as (_ & H & _).
  split; [exact (proj1 (H cards E))|reflexivity].
Defined.

(* ================================================================== *)
(** * A swipe session from the first card to the end screen *)
(* ================================================================== *)

Section SwipeSession.

Import StudySession SessionSpec.

(** With nothing playing and the card face up, the effects only move the
    ref. *)
Lemma commit_idle (prev next : t) :
  isPlaying next = false -> autoPlayRef next = None -> isFlipped next = false ->
  commit prev next = setCurrentIndexRef (currentIndex next) next.
Proof.
  intros Hp Ha Hf. unfold commit. cbv zeta.
  set (n1 := setCurrentIndexRef (currentIndex next) next).
  assert (E : setIsFlipped false n1 = n1).
  { rewrite <- (setIsFlipped_same n1) at 2. f_equal. symmetry. exact Hf. }
  rewrite E.
  assert (Hq : autoPlayEffect n1 = n1).
  { unfold autoPlayEffect. change (autoPlayRef n1) with (autoPlayRef next). rewrite Ha.
    change (isPlaying n1) with (isPlaying next). now rewrite Hp. }
  assert (Hif : forall b : bool, (if b then n1 else n1) = n1) by now intros [].
  rewrite !Hif, Hq. apply Hif.
Qed.

(** What holds between two swipes. *)
Lemma swipe_one (s : t) (d : Direction) (c : Flashcard.t) :
  mounted s = true -> mode s = flashcards -> isPlaying s = false ->
  autoPlayRef s = None -> isFlipped s = false -> timers s = [] ->
  currentCard s = Some c ->
  exists s',
    run [CardAction d; Tick 300; Fire (nextHandle s)] s = Some s'
    /\ mounted s' = true /\ mode s' = flashcards /\ isPlaying s' = false
    /\ autoPlayRef s' = None /\ isFlipped s' = false /\ timers s' = []
    /\ nextHandle s' = S (nextHandle s)
    /\ currentIndex s' = currentIndex s + 1
    /\ queue s' = queue s /\ originalQueue s' = originalQueue s
    /\ missedCards s' = missedCards s ++ (if isLeft d then [Flashcard.id c] else [])
    /\ documents s' = documents s /\ settings s' = settings s.
Proof.
  intros Hmo Hm Hp Ha Hf Ht Hc.
  assert (Hlt : currentIndex s < List.length (queue s)).
  { apply nth_error_Some. unfold currentCard in Hc. congruence. }
  set (s1 := setCurrentIndexRef (currentIndex s)
               (handleCardAction d (Some c) (currentIndex s) (List.length (queue s)) s)).
  assert (E1 : step (CardAction d) s = Some s1).
  { cbn [step]. rewrite Hmo. cbn [negb]. unfold isFlashcards, endScreen.
    rewrite Hm, Hc. cbn [mode_eqb andb].
    destruct (Nat.leb_spec (List.length (queue s)) (currentIndex s)); [lia|].
    cbn [negb]. rewrite commit_idle; [subst s1; destruct d; reflexivity| | |];
      destruct d; cbn; assumption. }
  set (s2 := setNow (now s1 + 300) s1).
  assert (E2 : step (Tick 300) s1 = Some s2) by (apply step_tick; lia).
  set (tm := mkTimer (nextHandle s) (now s + 300)
               (NextCard (currentIndex s) (List.length (queue s)))).
  assert (Ht2 : timers s2 = [tm]).
  { subst s2 s1 tm. destruct d; cbn; rewrite Ht; reflexivity. }
  assert (Hn2 : now s2 = (now s + 300)%Z) by (subst s2 s1; destruct d; reflexivity).
  set (s3 := setCurrentIndexRef (currentIndex s + 1)
               (setCurrentIndex (fun _ => currentIndex s + 1)
                  (clearTimeout (nextHandle s) s2))).
  assert (E3 : step (Fire (nextHandle s)) s2 = Some s3).
  { cbn [step]. rewrite Ht2. cbn [find handle tm]. rewrite Nat.eqb_refl.
    unfold fireable. rewrite Ht2, Hn2. cbn [due tm forallb handle].
    rewrite Z.leb_refl, Z.eqb_refl, Nat.leb_refl, Z.ltb_irrefl. cbn [andb orb].
    replace (mounted s2) with true by (subst s2 s1; destruct d; cbn; now rewrite Hmo).
    cbn [action tm fireAction]. rewrite handleNextCard_moves_on.
    rewrite commit_idle; [reflexivity| | |];
      subst s2 s1; destruct d; cbn; assumption. }
  exists s3. split.
  { rewrite (run_step _ _ _ _ E1), (run_step _ _ _ _ E2), (run_step _ _ _ _ E3).
    reflexivity. }
  subst s3 s2 s1. destruct d; cbn; rewrite ?Ht, ?Nat.eqb_refl; cbn;
    repeat split; try assumption; try reflexivity; try (now rewrite app_nil_r);
    now rewrite Nat.eqb_refl.
Qed.

Lemma swipedLeft_cons (c : Flashcard.t) (cs : list Flashcard.t) (d : Direction)
    (ds : list Direction) :
  swipedLeft (c :: cs) (d :: ds)
  = (if isLeft d then [c] else []) ++ swipedLeft cs ds.
Proof. unfold swipedLeft. cbn. now destruct (isLeft d). Qed.

Lemma swipedLeft_incl (cs : list Flashcard.t) (ds : list Direction) (c : Flashcard.t) :
  In c (swipedLeft cs ds) -> In c cs.
Proof.
  unfold swipedLeft. intros H. apply in_map_iff in H as ([c' d] & <- & H).
  apply filter_In in H as [H _]. now apply in_combine_l in H.
Qed.

(** The swipes of the cards from the position on. *)
Lemma swipe_rest (directions : list Direction) :
  forall (s : t) (done rest : list Flashcard.t),
    mounted s = true -> mode s = flashcards -> isPlaying s = false ->
    autoPlayRef s = None -> isFlipped s = false -> timers s = [] ->
    queue s = done ++ rest -> currentIndex s = List.length done ->
    List.length directions = List.length rest ->
    exists s',
      run (swipeEvents (nextHandle s) directions) s = Some s'
      /\ mounted s' = true /\ mode s' = flashcards /\ isPlaying s' = false
      /\ autoPlayRef s' = None /\ isFlipped s' = false /\ timers s' = []
      /\ currentIndex s' = List.length (queue s)
      /\ queue s' = queue s /\ originalQueue s' = originalQueue s
      /\ missedCards s'
         = missedCards s ++ map Flashcard.id (swipedLeft rest directions)
      /\ documents s' = documents s /\ settings s' = settings s.
Proof.
  induction directions as [|d ds IH]; intros s done rest Hmo Hm Hp Ha Hf Ht Hq Hi Hl.
  - destruct rest; [|discriminate]. exists s. rewrite app_nil_r in Hq.
    cbn. rewrite app_nil_r, Hq, Hi. repeat split; assumption.
  - destruct rest as [|c rest]; [discriminate|].
    assert (Hc : currentCard s = Some c).
    { unfold currentCard. rewrite Hq, Hi, nth_error_app2, Nat.sub_diag by lia.
      reflexivity. }
    destruct (swipe_one s d c Hmo Hm Hp Ha Hf Ht Hc)
      as (s1 & R1 & A1 & A2 & A3 & A4 & A5 & A6 & A7 & A8 & A9 & A10 & A11 & A12 & A13).
    destruct (IH s1 (done ++ [c]) rest A1 A2 A3 A4 A5 A6) as
      (s' & R2 & B1 & B2 & B3 & B4 & B5 & B6 & B7 & B8 & B9 & B10 & B11 & B12).
    + rewrite A9, Hq, <- app_assoc. reflexivity.
    + rewrite A8, Hi, length_app. reflexivity.
    + now injection Hl.
    + exists s'. split.
      { change (swipeEvents (nextHandle s) (d :: ds))
          with ([CardAction d; Tick 300; Fire (nextHandle s)]
                ++ swipeEvents (S (nextHandle s)) ds).
        cbn [app run] in *.
        destruct (step (CardAction d) s) as [x1|]; [|discriminate].
        destruct (step (Tick 300) x1) as [x2|]; [|discriminate].
        destruct (step (Fire (nextHandle s)) x2) as [x3|]; [|discriminate].
        injection R1 as ->. rewrite <- A7. exact R2. }
      repeat split; try assumption; try congruence.
      rewrite B10, A11, swipedLeft_cons, map_app, <- app_assoc.
      f_equal. f_equal. now destruct (isLeft d).
Qed.

Lemma existsb_id_in (x : str) (l : list str) :
  existsb (str_eqb x) l = true <-> In x l.
Proof.
  rewrite existsb_exists. split.
  - intros (y & Hin & E). apply str_eqb_eq in E. now subst.
  - intros H. exists x. split; [exact H|]. now apply str_eqb_eq.
Qed.

(** With distinct ids the ids of the cards swiped left select those cards. *)
Lemma filter_swipedLeft (cards : list Flashcard.t) :
  forall directions,
    NoDup (map Flashcard.id cards) -> List.length directions = List.length cards ->
    filter (fun c => existsb (str_eqb (Flashcard.id c))
                       (map Flashcard.id (swipedLeft cards directions)))
           cards
    = swipedLeft cards directions.
Proof.
  induction cards as [|c cs IH]; intros [|d ds] Hn Hl; try discriminate; [reflexivity|].
  cbn [map] in Hn. apply NoDup_cons_iff in Hn as [Hc Hn]. injection Hl as Hl.
  rewrite swipedLeft_cons. cbn [filter].
  assert (Htail : filter (fun c0 => existsb (str_eqb (Flashcard.id c0))
                            (map Flashcard.id ((if isLeft d then [c] else [])
                                               ++ swipedLeft cs ds))) cs
                  = swipedLeft cs ds).
  { transitivity (filter (fun c0 => existsb (str_eqb (Flashcard.id c0))
                                      (map Flashcard.id (swipedLeft cs ds))) cs);
      [|now apply IH].
    apply filter_ext_in. intros c' Hin.
    destruct (isLeft d); [|reflexivity]. cbn [app map existsb].
    destruct (str_eqb (Flashcard.id c') (Flashcard.id c)) eqn:E; [|reflexivity].
    apply str_eqb_eq in E. exfalso. apply Hc. rewrite <- E. now apply in_map. }
  rewrite Htail. destruct (isLeft d); cbn [app map existsb].
  - assert (E : str_eqb (Flashcard.id c) (Flashcard.id c) = true) by now apply str_eqb_eq.
    rewrite E. reflexivity.
  - destruct (existsb _ _) eqn:E; [|reflexivity].
    apply existsb_id_in in E. exfalso. apply Hc.
    apply in_map_iff in E as (c' & <- & Hin). apply in_map.
    now apply swipedLeft_incl in Hin.
Qed.

(** X18. A swipe session swiped through from the first card to the last:
    every swipe moves on by one card after its animation, the end screen
    is reached with the queue as it was and the documents unwritten, and
    the cards missed are those swiped to the left, in order. With no card
    missed the button for the missed cards is not offered; otherwise, when
    the cards have distinct ids, it starts again at the first card on
    exactly the cards swiped to the left, in the order of the queue. The
    button for all cards starts again on the whole queue. *)
Theorem swipe_session_collects_missed
    (cards : list Flashcard.t) (docs : list Document.t) (settings : AppSettings.t)
    (now : Z) (directions : list Direction) :
  List.length directions = List.length cards ->
  exists s,
    run (swipeEvents 1 directions) (start cards docs settings flashcards now) = Some s
    /\ endScreen s = true /\ currentIndex s = List.length cards /\ queue s = cards
    /\ documents s = docs
    /\ missedCards s = map Flashcard.id (swipedLeft cards directions)
    /\ (swipedLeft cards directions = [] -> step RestartMissed s = None)
    /\ (swipedLeft cards directions <> [] -> NoDup (map Flashcard.id cards) ->
        exists s', step RestartMissed s = Some s'
                   /\ queue s' = swipedLeft cards directions
                   /\ currentIndex s' = 0 /\ missedCards s' = []
                   /\ originalQueue s' = cards)
    /\ (exists s', step RestartAll s = Some s'
                   /\ queue s' = cards /\ currentIndex s' = 0 /\ missedCards s' = []).
Proof.
  intros Hl.
  destruct (swipe_rest directions (start cards docs settings flashcards now) [] cards)
    as (s & R & B1 & B2 & B3 & B4 & B5 & B6 & B7 & B8 & B9 & B10 & B11 & B12);
    try reflexivity; [exact Hl|].
  cbn in R, B7, B8, B9, B10, B11.
  assert (He : endScreen s = true).
  { unfold endScreen, currentCard. rewrite B7, B8.
    assert (E : nth_error cards (List.length cards) = None) by now apply nth_error_None.
    now rewrite E. }
  assert (Hfl : isFlashcards s = true) by (unfold isFlashcards; now rewrite B2).
  exists s. split; [exact R|]. split; [exact He|]. split; [exact B7|].
  split; [exact B8|]. split; [exact B11|]. split; [exact B10|]. split; [|split].
  - intros E. cbn [step]. rewrite B1, Hfl, He, B10, E. reflexivity.
  - intros Hne Hn. cbn [step]. rewrite B1, Hfl, He, B10. cbn [negb andb].
    assert (Hpos : (0 <? List.length (map Flashcard.id (swipedLeft cards directions)))
                   = true).
    { destruct (swipedLeft cards directions); [now contradiction Hne|reflexivity]. }
    rewrite Hpos. rewrite commit_idle; [|cbn; first [assumption|reflexivity]..].
    eexists. split; [reflexivity|]. cbn. rewrite B10, B9. repeat split.
    now apply filter_swipedLeft.
  - cbn [step]. rewrite B1, Hfl, He. cbn [negb andb].
    rewrite commit_idle; [|cbn; first [assumption|reflexivity]..].
    eexists. split; [reflexivity|]. cbn. now rewrite B9.
Qed.

Lemma swipe_session_collects_missed_witness :
  exists s,
    run (swipeEvents 1 [swipe_left; swipe_right; swipe_left]) Sample.swipe3 = Some s
    /\ missedCards s = [lit "q1_fwd"; lit "q3_fwd"]
    /\ option_map queue (step RestartMissed s) = Some [Sample.cardA; Sample.cardC].
Proof.
  assert (Hl : List.length [swipe_left; swipe_right; swipe_left]
               = List.length (extractCards [Sample.deck])) by reflexivity.
  destruct (swipe_session_collects_missed (extractCards [Sample.deck]) [Sample.deck]
              Sample.settings 1000 [swipe_left; swipe_right; swipe_left] Hl)
    as (s & R & _ & _ & _ & _ & Hmiss & _ & Hre & _).
  exists s. split; [exact R|]. split; [rewrite Hmiss; reflexivity|].
  destruct Hre as (s' & E & Hq & _).
  - vm_compute. discriminate.
  - vm_compute. repeat constructor; cbn; intuition discriminate.
  - rewrite E. cbn [option_map]. rewrite Hq. reflexivity.
Defined.

End SwipeSession.

(* ================================================================== *)
(** * The context path of the card under study *)
(* ================================================================== *)


Lemma find_by_id {A : Type} (key : A -> str) (l : list A) (x : A) :
  NoDup (map key l) -> In x l ->
  find (fun y => str_eqb (key y) (key x)) l = Some x.
Proof.
  induction l as [|y l IH]; intros Hn Hin; [contradiction|].
  cbn [map] in Hn. apply NoDup_cons_iff in Hn as [Hy Hn]. cbn [find].
  destruct Hin as [->|Hin].
  - assert (E : str_eqb (key x) (key x) = true) by now apply str_eqb_eq.
    now rewrite E.
  - destruct (str_eqb (key y) (key x)) eqn:E; [|now apply IH].
    apply str_eqb_eq in E. exfalso. apply Hy. rewrite E. now apply in_map.
Qed.




(* ================================================================== *)
(** * Backspace on an empty block *)
(* ================================================================== *)








(* ================================================================== *)
(** * Documents and folders *)
(* ================================================================== *)

Section LibraryFacts.

Import App.

Lemma length_filter_other {A : Type} (key : A -> str) (id : str) (l : list A) (x : A) :
  NoDup (map key l) -> In x l -> key x = id ->
  S (List.length (filter (fun d => negb (str_eqb (key d) id)) l)) = List.length l.
Proof.
  induction l as [|y l IH]; intros Hn Hin Hx; [contradiction|].
  cbn [map] in Hn. apply NoDup_cons_iff in Hn as [Hy Hn]. cbn [filter].
  destruct (str_eqb (key y) id) eqn:E; cbn [negb List.length].
  - apply str_eqb_eq in E. f_equal.
    assert (Hall : forall z, In z l -> negb (str_eqb (key z) id) = true).
    { intros z Hz. destruct (str_eqb (key z) id) eqn:Ez; [|reflexivity].
      apply str_eqb_eq in Ez. exfalso. apply Hy. rewrite E, <- Ez. now apply in_map. }
    clear -Hall. induction l as [|z l IH]; [reflexivity|]. cbn [filter].
    rewrite (Hall z (or_introl eq_refl)). cbn [List.length]. f_equal.
    apply IH. intros w Hw. apply Hall. now right.
  - destruct Hin as [->|Hin].
    + apply str_eqb_neq in E. now contradiction E.
    + f_equal. now apply IH.
Qed.

Lemma NoDup_map_filter {A : Type} (key : A -> str) (f : A -> bool) (l : list A) :
  NoDup (map key l) -> NoDup (map key (filter f l)).
Proof.
  induction l as [|y l IH]; intros Hn; [constructor|].
  cbn [map] in Hn. apply NoDup_cons_iff in Hn as [Hy Hn]. cbn [filter].
  destruct (f y); [|now apply IH]. cbn [map]. constructor; [|now apply IH].
  intros Hin. apply Hy. apply in_map_iff in Hin as (z & <- & Hz).
  apply in_map. now apply filter_In in Hz as [Hz _].
Qed.

(** X20. Deleting a document, when the documents have distinct ids and
    one of them is the active one: the handler never fails, never leaves
    the library without a document, keeps the ids distinct and the
    folders as they are, and the active document is always one of the
    documents left. No document other than the one named is removed, and
    a library that changes has lost exactly that document, after a
    confirmed question. *)
Theorem delete_doc_keeps_library_usable (id : str) (confirm : bool) (lib : Library) :
  NoDup (map Document.id (documents lib)) ->
  (exists d, In d (documents lib) /\ activeDocId lib = Some (Document.id d)) ->
  exists lib',
    handleDeleteDoc id confirm lib = Some lib'
    /\ documents lib' <> []
    /\ NoDup (map Document.id (documents lib'))
    /\ (exists d, In d (documents lib') /\ activeDocId lib' = Some (Document.id d))
    /\ folders lib' = folders lib
    /\ (forall d, In d (documents lib') -> In d (documents lib))
    /\ (forall d, In d (documents lib) -> Document.id d <> id -> In d (documents lib'))
    /\ (lib' <> lib ->
        confirm = true
        /\ ~ In id (map Document.id (documents lib'))
        /\ S (List.length (documents lib')) = List.length (documents lib)).
Proof.
  intros Hn (a & Ha & Hact).
  assert (Hne : documents lib <> []) by (intros E; rewrite E in Ha; contradiction).
  assert (Hsame : exists lib', Some lib = Some lib'
            /\ documents lib' <> []
            /\ NoDup (map Document.id (documents lib'))
            /\ (exists d, In d (documents lib') /\ activeDocId lib' = Some (Document.id d))
            /\ folders lib' = folders lib
            /\ (forall d, In d (documents lib') -> In d (documents lib))
            /\ (forall d, In d (documents lib) -> Document.id d <> id ->
                          In d (documents lib'))
            /\ (lib' <> lib ->
                confirm = true
                /\ ~ In id (map Document.id (documents lib'))
                /\ S (List.length (documents lib')) = List.length (documents lib))).
  { exists lib. repeat split; eauto; now contradiction H. }
  unfold handleDeleteDoc.
  destruct (find _ (documents lib)) as [x|] eqn:Hfind; [|exact Hsame].
  destruct (Nat.leb_spec (List.length (documents lib)) 1) as [|Hlen]; [exact Hsame|].
  destruct confirm; [|exact Hsame]. clear Hsame.
  apply find_some in Hfind as [Hx Ex]. apply str_eqb_eq in Ex.
  set (newDocs := filter (fun d => negb (str_eqb (Document.id d) id)) (documents lib)).
  pose proof (length_filter_other Document.id id (documents lib) x Hn Hx Ex) as Hl.
  fold newDocs in Hl.
  assert (Hnew : newDocs <> []) by (intros E; rewrite E in Hl; cbn in Hl; lia).
  assert (Hnd : NoDup (map Document.id newDocs)) by now apply NoDup_map_filter.
  assert (Hsub : forall d, In d newDocs -> In d (documents lib))
    by (intros d Hd; now apply filter_In in Hd as [Hd _]).
  assert (Hkeep : forall d, In d (documents lib) -> Document.id d <> id -> In d newDocs).
  { intros d Hd Hid. apply filter_In. split; [exact Hd|].
    apply str_eqb_neq in Hid. now rewrite Hid. }
  assert (Hgone : ~ In id (map Document.id newDocs)).
  { intros Hin. apply in_map_iff in Hin as (d & Hid & Hd).
    apply filter_In in Hd as [_ Hd]. apply str_eqb_eq in Hid. now rewrite Hid in Hd. }
  rewrite Hact.
  destruct (str_eqb (Document.id a) id) eqn:Ea.
  - destruct newDocs as [|d0 rest] eqn:En; [now contradiction Hnew|]. cbn [nth_error].
    eexists. split; [reflexivity|]. cbn [documents folders activeDocId].
    repeat split; try assumption.
    exists d0. split; [now left|reflexivity].
  - eexists. split; [reflexivity|]. cbn [documents folders activeDocId].
    repeat split; try assumption.
    exists a. split; [|reflexivity]. apply Hkeep; [exact Ha|]. now apply str_eqb_neq.
Qed.

Lemma delete_doc_keeps_library_usable_witness :
  option_map (fun l => (map Document.id (documents l), activeDocId l))
    (handleDeleteDoc (lit "a") true
       (mkLibrary [Sample.doc "a" []; Sample.doc "b" []] [] (Some (lit "a"))))
  = Some ([lit "b"], Some (lit "b")).
Proof.
  destruct (delete_doc_keeps_library_usable (lit "a") true
              (mkLibrary [Sample.doc "a" []; Sample.doc "b" []] [] (Some (lit "a"))))
    as (lib' & E & _).
  - repeat constructor; cbn; intuition discriminate.
  - exists (Sample.doc "a" []). split; [now left|reflexivity].
  - rewrite E. vm_compute in E. injection E as <-. reflexivity.
Defined.

Lemma listed_iff (lib : Library) (d : Document.t) :
  In d (listed lib) <->
  In d (documents lib)
  /\ (hasFolder d = false
      \/ exists f, In f (folders lib) /\ inFolder (Folder.id f) d = true).
Proof.
  unfold listed, unorganizedDocs, folderDocs. rewrite in_app_iff, in_flat_map. split.
  - intros [(f & Hf & Hd)|Hd].
    + apply filter_In in Hd as [Hd Hi]. split; [exact Hd|]. right. eauto.
    + apply filter_In in Hd as [Hd Hi]. split; [exact Hd|]. left.
      now destruct (hasFolder d).
  - intros [Hd [Hh|(f & Hf & Hi)]].
    + right. apply filter_In. split; [exact Hd|]. now rewrite Hh.
    + left. exists f. split; [exact Hf|]. apply filter_In. now split.
Qed.

Lemma inFolder_withFolder_None (folderId : str) (d : Document.t) :
  hasFolder (withFolder d None) = false /\ inFolder folderId (withFolder d None) = false.
Proof. now split. Qed.

(** X21. A library in which every document has a place in the sidebar,
    under [Unsorted] or under one of the folders, stays so when a folder
    is deleted, whatever the answer to the question, and when a document
    is moved under [Unsorted] or into one of the folders. Neither handler
    removes, adds or reorders a document or touches its blocks; deleting
    a folder removes no other folder, and once it is deleted no document
    is left in it. *)
Theorem folders_keep_every_document_listed (lib : Library) :
  (forall d, In d (documents lib) -> In d (listed lib)) ->
  (forall folderId confirm,
     let lib' := handleDeleteFolder folderId confirm lib in
     (forall d, In d (documents lib') -> In d (listed lib'))
     /\ map Document.id (documents lib') = map Document.id (documents lib)
     /\ map Document.blocks (documents lib') = map Document.blocks (documents lib)
     /\ (forall f, In f (folders lib) -> Folder.id f <> folderId -> In f (folders lib'))
     /\ (lib' <> lib ->
         confirm = true
         /\ ~ In folderId (map Folder.id (folders lib'))
         /\ forall d, In d (documents lib') -> inFolder folderId d = false))
  /\ (forall docId folderId,
        (folderId = None
         \/ exists f, In f (folders lib) /\ folderId = Some (Folder.id f)) ->
        let lib' := handleMoveDoc docId folderId lib in
        (forall d, In d (documents lib') -> In d (listed lib'))
        /\ map Document.id (documents lib') = map Document.id (documents lib)
        /\ map Document.blocks (documents lib') = map Document.blocks (documents lib)
        /\ folders lib' = folders lib
        /\ forall d, In d (documents lib') -> Document.id d = docId ->
                     Document.folderId d = folderId).
Proof.
  intros Hall.
  assert (Hplace : forall d, In d (documents lib) ->
            hasFolder d = false
            \/ exists f, In f (folders lib) /\ inFolder (Folder.id f) d = true).
  { intros d Hd. now apply listed_iff, Hall. }
  split.
  - intros folderId confirm lib'. subst lib'. unfold handleDeleteFolder.
    assert (Hsame : (forall d, In d (documents lib) -> In d (listed lib))
              /\ map Document.id (documents lib) = map Document.id (documents lib)
              /\ map Document.blocks (documents lib) = map Document.blocks (documents lib)
              /\ (forall f, In f (folders lib) -> Folder.id f <> folderId ->
                            In f (folders lib))
              /\ (lib <> lib ->
                  confirm = true
                  /\ ~ In folderId (map Folder.id (folders lib))
                  /\ forall d, In d (documents lib) -> inFolder folderId d = false)).
    { repeat split; auto; now contradiction H. }
    destruct (find _ (folders lib)) as [folder|]; [|exact Hsame].
    destruct confirm; [|exact Hsame]. clear Hsame.
    set (moved := map (fun d => if inFolder folderId d then withFolder d None else d)
                      (documents lib)).
    set (docs' := if 0 <? List.length (filter (inFolder folderId) (documents lib))
                  then moved else documents lib).
    set (folders' := filter (fun f => negb (str_eqb (Folder.id f) folderId)) (folders lib)).
    assert (Hdocs : forall d', In d' docs' ->
              exists d, In d (documents lib)
                        /\ d' = (if inFolder folderId d then withFolder d None else d)).
    { intros d' Hd'. subst docs'.
      destruct (Nat.ltb_spec 0 (List.length (filter (inFolder folderId) (documents lib))))
        as [Hlt|Hge].
      - apply in_map_iff in Hd' as (d & <- & Hd). eauto.
      - exists d'. split; [exact Hd'|].
        destruct (inFolder folderId d') eqn:E; [|reflexivity].
        assert (Hin : In d' (filter (inFolder folderId) (documents lib)))
          by (apply filter_In; now split).
        destruct (filter (inFolder folderId) (documents lib));
          [destruct Hin|cbn in Hge; lia]. }
    assert (Hmap : forall {B : Type} (g : Document.t -> B),
              (forall d, g (withFolder d None) = g d) ->
              map g docs' = map g (documents lib)).
    { intros B g Hg. subst docs' moved. destruct (_ <? _); [|reflexivity].
      rewrite map_map. apply map_ext. intros d. now destruct (inFolder folderId d). }
    cbn [documents folders].
    split; [|split; [now apply Hmap|split; [now apply Hmap|split; [|intros _; split; [reflexivity|split]]]]].
    + intros d' Hd'. apply listed_iff. cbn [documents folders]. split; [exact Hd'|].
      destruct (Hdocs d' Hd') as (d & Hd & ->).
      destruct (inFolder folderId d) eqn:E; [now left|].
      destruct (Hplace d Hd) as [Hh|(f & Hf & Hi)]; [now left|]. right.
      exists f. split; [|exact Hi]. apply filter_In. split; [exact Hf|].
      destruct (str_eqb (Folder.id f) folderId) eqn:Ef; [|reflexivity].
      apply str_eqb_eq in Ef. rewrite Ef in Hi. congruence.
    + intros f Hf Hid. apply filter_In. split; [exact Hf|].
      apply str_eqb_neq in Hid. now rewrite Hid.
    + intros Hin. apply in_map_iff in Hin as (f & Hid & Hf).
      apply filter_In in Hf as [_ Hf]. apply str_eqb_eq in Hid. now rewrite Hid in Hf.
    + intros d' Hd'. destruct (Hdocs d' Hd') as (d & Hd & ->).
      destruct (inFolder folderId d) eqn:E; [reflexivity|exact E].
  - intros docId folderId Hdest lib'. subst lib'. unfold handleMoveDoc.
    cbn [documents folders].
    split; [|split; [|split; [|split; [reflexivity|]]]].
    + intros d' Hd'. apply listed_iff. cbn [documents folders]. split; [exact Hd'|].
      apply in_map_iff in Hd' as (d & <- & Hd).
      destruct (str_eqb (Document.id d) docId); [|now apply Hplace].
      destruct Hdest as [->|(f & Hf & ->)]; [now left|]. right.
      exists f. split; [exact Hf|]. unfold inFolder. cbn. now apply str_eqb_eq.
    + rewrite map_map. apply map_ext. intros d. now destruct (str_eqb _ _).
    + rewrite map_map. apply map_ext. intros d. now destruct (str_eqb _ _).
    + intros d' Hd' Hid. apply in_map_iff in Hd' as (d & <- & Hd).
      destruct (str_eqb (Document.id d) docId) eqn:E; [reflexivity|].
      apply str_eqb_neq in E. now contradiction E.
Qed.

Lemma folders_keep_every_document_listed_witness :
  map Document.folderId
    (documents
       (handleDeleteFolder (lit "f") true
          (mkLibrary [withFolder (Sample.doc "a" []) (Some (lit "f")); Sample.doc "b" []]
             [Folder.mk (lit "f") (lit "F") true] None)))
  = [None; None]
  /\ forall d,
       In d (documents
               (handleDeleteFolder (lit "f") true
                  (mkLibrary [withFolder (Sample.doc "a" []) (Some (lit "f")); Sample.doc "b" []]
                     [Folder.mk (lit "f") (lit "F") true] None))) ->
       In d (listed
               (handleDeleteFolder (lit "f") true
                  (mkLibrary [withFolder (Sample.doc "a" []) (Some (lit "f")); Sample.doc "b" []]
                     [Folder.mk (lit "f") (lit "F") true] None))).
Proof.
  split; [reflexivity|].
  apply (folders_keep_every_document_listed
           (mkLibrary [withFolder (Sample.doc "a" []) (Some (lit "f")); Sample.doc "b" []]
              [Folder.mk (lit "f") (lit "F") true] None)).
  intros d [<-|[<-|[]]]; vm_compute; auto.
Defined.

End LibraryFacts.

(* ================================================================== *)
(** * References and backlinks *)
(* ================================================================== *)

Lemma expand_plain (m before after r : str) :
  ~ In 36%N r -> JsText.expand m before after r = r.
Proof.
  induction r as [|c r IH]; intros H; [reflexivity|]. cbn [JsText.expand].
  destruct (N.eqb_spec c 36) as [E|E]; [exfalso; apply H; now left|].
  f_equal. apply IH. intros Hin. apply H. now right.
Qed.

Lemma includes_occurrence (d a r : str) : includes d (a ++ d ++ r) = true.
Proof.
  apply includes_indexOf. induction a as [|x a [n IH]].
  - exists 0. cbn [app]. destruct (d ++ r) eqn:E; cbn [indexOf];
      rewrite <- E, is_prefix_self; reflexivity.
  - change ((x :: a) ++ d ++ r) with (x :: (a ++ d ++ r)). cbn [indexOf].
    destruct (is_prefix d (x :: a ++ d ++ r)); [now exists 0|].
    rewrite IH. now exists (S n).
Qed.

(** X24. A reference inserted from the menu is found as a backlink. On a
    block whose content ends with two opening brackets, choosing a
    document whose title has no dollar sign stores the content with the
    title between double brackets and a space, in place of the two
    brackets, and changes no other block. A block with that content is
    listed among the backlinks of the active document whenever that
    document has the title chosen. *)
Theorem inserted_reference_is_backlink (docTitle pre : str) :
  ~ In 36%N docTitle ->
  let typed := pre ++ lit "[[" in
  let stored := pre ++ lit "[[" ++ docTitle ++ lit "]] " in
  JsText.replaceAtEnd (lit "[[") (lit "[[" ++ docTitle ++ lit "]] ") typed = stored
  /\ (forall index blocks b,
        nth_error blocks index = Some b -> Block.content b = typed ->
        exists blocks' b',
          Editor.insertReference docTitle (Some index) blocks = Some blocks'
          /\ nth_error blocks' index = Some b'
          /\ Block.content b' = stored /\ Block.id b' = Block.id b
          /\ forall k, k <> index -> nth_error blocks' k = nth_error blocks k)
  /\ (forall documents activeDocId active doc b,
        activeDoc documents activeDocId = Some active ->
        Document.title active = docTitle ->
        In doc documents -> In b (Document.blocks doc) -> Block.content b = stored ->
        In (Backlink.mk (Document.id doc) (Document.title doc) (Block.id b) stored)
           (App.activeBacklinks documents activeDocId)).
Proof.
  intros Hd typed stored.
  assert (E1 : JsText.replaceAtEnd (lit "[[") (lit "[[" ++ docTitle ++ lit "]] ") typed
               = stored).
  { unfold JsText.replaceAtEnd. subst typed stored. rewrite endsWith_app.
    rewrite length_app. replace (List.length pre + List.length (lit "[[")
                                 - List.length (lit "[[")) with (List.length pre) by lia.
    rewrite firstn_app, Nat.sub_diag, firstn_all. cbn [firstn]. rewrite app_nil_r.
    f_equal. apply expand_plain. intros Hin.
    apply in_app_or in Hin as [Hin|Hin];
      [|apply in_app_or in Hin as [Hin|Hin]]; [|now apply Hd|].
    - repeat (destruct Hin as [Hin|Hin]; [discriminate Hin|]). exact Hin.
    - repeat (destruct Hin as [Hin|Hin]; [discriminate Hin|]). exact Hin. }
  assert (E2 : Editor.replacements stored = stored).
  { assert (Hends : forall d, d = lit ";; " \/ d = lit ":: " ->
                        JsText.endsWith d stored = false).
    { intros d Hdd. unfold JsText.endsWith. subst stored.
      rewrite !app_assoc, rev_app_distr. now destruct Hdd as [-> | ->]. }
    unfold Editor.replacements. rewrite (Hends (lit ";; ")) by now left.
    now rewrite (Hends (lit ":: ")) by now right. }
  split; [exact E1|]. split.
  - intros index blocks b Hb Hc. unfold Editor.insertReference. rewrite Hb, Hc, E1.
    unfold Editor.handleBlockChange. rewrite Hb, E2.
    destruct (str_eqb (Block.content b) stored) eqn:E; cbn [negb].
    + apply str_eqb_eq in E. exists blocks, b. repeat split; auto.
    + destruct (setAt_nth index (Spec.withContent b stored) b blocks Hb) as (Hn & _ & Ho).
      eexists. eexists. split; [reflexivity|]. split; [exact Hn|].
      split; [reflexivity|]. split; [reflexivity|exact Ho].
  - intros documents activeDocId active doc b Ha Ht Hdoc Hbl Hc.
    unfold App.activeBacklinks. rewrite Ha. apply in_flat_map. exists doc.
    split; [exact Hdoc|]. apply in_flat_map. exists b. split; [exact Hbl|].
    rewrite Ht, Hc.
    assert (Hi : includes (App.titlePattern docTitle) stored = true).
    { subst stored. unfold App.titlePattern.
      change (lit "]] ") with (lit "]]" ++ lit " ").
      replace (pre ++ lit "[[" ++ docTitle ++ lit "]]" ++ lit " ")
        with (pre ++ (lit "[[" ++ docTitle ++ lit "]]") ++ lit " ")
        by (now rewrite <- !app_assoc).
      apply includes_occurrence. }
    rewrite Hi. now left.
Qed.

Lemma inserted_reference_is_backlink_witness :
  option_map (map Block.content)
    (Editor.insertReference (lit "Notes") (Some 0) [Sample.block "r" "see [[" 0])
  = Some [lit "see [[Notes]] "]
  /\ map Backlink.sourceBlockId
       (App.activeBacklinks
          [Sample.doc "d" []; Sample.doc "e" [Sample.block "r" "see [[Notes]] " 0]]
          (Some (lit "d")))
     = [lit "r"].
Proof.
  assert (Hd : ~ In 36%N (lit "Notes")).
  { intros Hin. repeat (destruct Hin as [Hin|Hin]; [discriminate Hin|]). exact Hin. }
  destruct (inserted_reference_is_backlink (lit "Notes") (lit "see ") Hd) as (_ & H & _).
  destruct (H 0 [Sample.block "r" "see [[" 0] _ eq_refl eq_refl)
    as (blocks' & b' & E & _).
  split; [|reflexivity]. rewrite E. vm_compute in E. injection E as <-. reflexivity.
Defined.

(* ================================================================== *)
(** * Edits of the editor and the active document *)
(* ================================================================== *)

Lemma find_none_by_id (documents : list Document.t) (a : str) :
  (forall d, In d documents -> Document.id d <> a) ->
  find (fun d => str_eqb (Document.id d) a) documents = None.
Proof.
  induction documents as [|x l IH]; intros H; [reflexivity|]. cbn [find].
  assert (E : str_eqb (Document.id x) a = false)
    by (apply str_eqb_neq, H; now left).
  rewrite E. apply IH. intros d Hd. apply H. now right.
Qed.

(** X25. The blocks the editor hands over are stored in the document
    whose id is the active id, which gets the time of the edit; no other
    document changes and none is added or removed. When the active id
    names no document, the editor shows the first document but the edit
    is stored nowhere. This with distinct document ids. *)
Theorem edits_reach_the_active_document
    (now : Z) (activeDocId : option str) (blocks : list Block.t)
    (documents : list Document.t) :
  NoDup (map Document.id documents) ->
  let documents' := App.handleUpdateBlocks now activeDocId blocks documents in
  map Document.id documents' = map Document.id documents
  /\ (forall active,
        In active documents -> activeDocId = Some (Document.id active) ->
        activeDoc documents activeDocId = Some active
        /\ activeDoc documents' activeDocId
           = Some (Document.mk (Document.id active) (Document.folderId active)
                     (Document.title active) blocks now)
        /\ forall d, In d documents -> Document.id d <> Document.id active ->
                     In d documents')
  /\ ((forall d, In d documents -> activeDocId <> Some (Document.id d)) ->
      activeDoc documents activeDocId = nth_error documents 0
      /\ documents' = documents).
Proof.
  intros Hn documents'. subst documents'. unfold App.handleUpdateBlocks.
  split; [|split].
  - rewrite map_map. apply map_ext. intros d.
    destruct activeDocId as [a|]; [|reflexivity]. now destruct (str_eqb _ _).
  - intros active Ha ->. unfold activeDoc.
    rewrite (find_by_id Document.id documents active Hn Ha).
    split; [reflexivity|]. split.
    + set (f := fun doc : Document.t =>
                  if str_eqb (Document.id doc) (Document.id active)
                  then Document.mk (Document.id doc) (Document.folderId doc)
                         (Document.title doc) blocks now
                  else doc).
      assert (Hn' : NoDup (map Document.id (map f documents))).
      { rewrite map_map. erewrite map_ext; [exact Hn|].
        intros d. subst f. cbn. now destruct (str_eqb _ _). }
      assert (Hin : In (f active) (map f documents)) by now apply in_map.
      assert (Hf : f active = Document.mk (Document.id active) (Document.folderId active)
                                 (Document.title active) blocks now).
      { subst f. cbn.
        assert (E : str_eqb (Document.id active) (Document.id active) = true)
          by now apply str_eqb_eq.
        now rewrite E. }
      pose proof (find_by_id Document.id _ (f active) Hn' Hin) as Hfind.
      assert (Hid : Document.id (f active) = Document.id active) by now rewrite Hf.
      rewrite Hid in Hfind. rewrite Hfind, Hf. reflexivity.
    + intros d Hd Hid. apply in_map_iff. exists d. split; [|exact Hd].
      apply str_eqb_neq in Hid. now rewrite Hid.
  - intros Hnone. split.
    + unfold activeDoc. destruct activeDocId as [a|]; [|reflexivity].
      rewrite find_none_by_id; [reflexivity|].
      intros d Hd E. apply (Hnone d Hd). now rewrite E.
    + rewrite <- (map_id documents) at 2. apply map_ext_in. intros d Hd.
      destruct activeDocId as [a|]; [|reflexivity].
      destruct (str_eqb (Document.id d) a) eqn:E; [|reflexivity].
      apply str_eqb_eq in E. exfalso. apply (Hnone d Hd). now rewrite E.
Qed.

Lemma edits_reach_the_active_document_witness :
  map Document.blocks
    (App.handleUpdateBlocks 7 (Some (lit "b")) [Sample.twoWay]
       [Sample.doc "a" []; Sample.doc "b" []])
  = [[]; [Sample.twoWay]]
  /\ activeDoc
       (App.handleUpdateBlocks 7 (Some (lit "b")) [Sample.twoWay]
          [Sample.doc "a" []; Sample.doc "b" []])
       (Some (lit "b"))
     = Some (Document.mk (lit "b") None (lit "Notes") [Sample.twoWay] 7).
Proof.
  split; [reflexivity|].
  destruct (edits_reach_the_active_document 7 (Some (lit "b")) [Sample.twoWay]
              [Sample.doc "a" []; Sample.doc "b" []]) as (_ & H & _).
  - repeat constructor; cbn; intuition discriminate.
  - destruct (H (Sample.doc "b" [])) as (_ & E & _);
      [right; now left|reflexivity|exact E].
Defined.

(* ================================================================== *)
(** * Editing and skipping the card under study *)
(* ================================================================== *)

Section SessionEdits.

Import StudySession SessionHandlers.

(** X26. Saving an edit of the card under study: the documents get the
    edit of [handleEditCard]; in the queue only the card under study
    changes, it keeps its place, its id and its block and shows the texts
    typed. The cards the session was mounted on are not edited: starting
    all cards again brings back the card with its old texts. *)
Theorem save_edit_keeps_card_identity (editFront editBack : str) (s : t) (c : Flashcard.t) :
  currentCard s = Some c ->
  let s' := handleSaveEdit editFront editBack s in
  documents s' = App.handleEditCard c editFront editBack (documents s)
  /\ currentIndex s' = currentIndex s
  /\ currentCard s' = Some (withFaces c editFront editBack)
  /\ map Flashcard.id (queue s') = map Flashcard.id (queue s)
  /\ map Flashcard.blockId (queue s') = map Flashcard.blockId (queue s)
  /\ (forall k, k <> currentIndex s -> nth_error (queue s') k = nth_error (queue s) k)
  /\ originalQueue s' = originalQueue s
  /\ queue (handleRestartAll s') = originalQueue s.
Proof.
  intros Hc s'. subst s'. unfold handleSaveEdit. rewrite Hc. cbn.
  unfold currentCard in *. cbn.
  destruct (setAt_nth (currentIndex s) (withFaces c editFront editBack) c (queue s) Hc)
    as (Hn & Hl & Ho).
  assert (Hmap : forall {B : Type} (g : Flashcard.t -> B),
            g (withFaces c editFront editBack) = g c ->
            map g (setAt (currentIndex s) (withFaces c editFront editBack) (queue s))
            = map g (queue s)).
  { intros B g Hg. apply nth_error_ext. intros k. rewrite !nth_error_map.
    destruct (Nat.eq_dec k (currentIndex s)) as [->|Hk].
    - rewrite Hn, Hc. cbn. now rewrite Hg.
    - now rewrite Ho. }
  repeat split; auto.
Qed.

Lemma save_edit_keeps_card_identity_witness :
  map Flashcard.front (queue (handleSaveEdit (lit "uno") (lit "1") Sample.swipe3))
  = [lit "uno"; lit "two"; lit "three"]
  /\ map Flashcard.front
       (queue (handleRestartAll (handleSaveEdit (lit "uno") (lit "1") Sample.swipe3)))
     = [lit "one"; lit "two"; lit "three"].
Proof.
  assert (Hc : currentCard Sample.swipe3 = Some Sample.cardA) by reflexivity.
  destruct (save_edit_keeps_card_identity (lit "uno") (lit "1") Sample.swipe3
              Sample.cardA Hc) as (_ & _ & _ & _ & _ & _ & _ & H).
  split; [reflexivity|]. rewrite H. reflexivity.
Defined.

(** X27. The button that says it disables the card for the session only
    moves on to the next card, and on the last card does nothing: the
    queue, the cards the session was mounted on and the documents stay as
    they are, so the card comes back with every restart and keeps its
    flag. Going back and moving on this way never leave the queue. *)
Theorem disable_button_only_moves_on (s : t) (c : Flashcard.t) :
  currentCard s = Some c ->
  queue (handleDisableCard s) = queue s
  /\ originalQueue (handleDisableCard s) = originalQueue s
  /\ documents (handleDisableCard s) = documents s
  /\ timers (handleDisableCard s) = timers s
  /\ queue (handleRestartAll (handleDisableCard s)) = originalQueue s
  /\ (currentIndex s + 1 = List.length (queue s) -> handleDisableCard s = s)
  /\ (currentIndex s + 1 < List.length (queue s) ->
      currentCard (handleDisableCard s) = nth_error (queue s) (currentIndex s + 1))
  /\ (exists c', currentCard (handleDisableCard s) = Some c')
  /\ (exists c', currentCard (handlePrevCard s) = Some c')
  /\ queue (handlePrevCard s) = queue s
  /\ currentIndex (handlePrevCard s) = currentIndex s - 1.
Proof.
  intros Hc. unfold currentCard in *.
  assert (Hlt : currentIndex s < List.length (queue s))
    by (apply nth_error_Some; congruence).
  unfold handleDisableCard, handlePrevCard.
  destruct (Nat.ltb_spec (currentIndex s) (List.length (queue s) - 1)) as [H1|H1];
    destruct (Nat.ltb_spec 0 (currentIndex s)) as [H2|H2]; cbn;
    repeat split; try reflexivity; try lia; eauto;
    match goal with
    | |- exists c', nth_error ?q ?k = Some c' =>
        destruct (nth_error q k) eqn:E; [eauto|apply nth_error_None in E; lia]
    end.
Qed.

Lemma disable_button_only_moves_on_witness :
  currentCard (handleDisableCard Sample.session3) = Some Sample.cardB
  /\ documents (handleDisableCard Sample.session3) = [Sample.deck].
Proof.
  assert (Hc : currentCard Sample.session3 = Some Sample.cardA) by reflexivity.
  destruct (disable_button_only_moves_on Sample.session3 Sample.cardA Hc)
    as (_ & _ & Hd & _).
  split; [reflexivity|exact Hd].
Defined.

End SessionEdits.
